(** * node-sendspin: binary header codec, Kalman time filter, server session,
      session registry and client, embedded from the TypeScript sources.

    Modelling conventions.
    - A JavaScript [number] is modelled by [Num.num]: an exact rational,
      or one of [+Infinity], [-Infinity], [NaN].  Arithmetic is exact: the
      rounding of IEEE-754 binary64 and the sign of zero are not modelled.
    - Buffers are [list byte]; a [BigInt] is a [Z].
    - Strings are [string]; a character is a code unit below 256.
    - A thrown exception is an [Err] result; a handler that throws keeps the
      assignments it made before the throw.
    - Hooks and listeners are observers: the model records each invocation
      in a log and assumes that they return normally and do not call back
      into the object that invoked them. *)

From Stdlib Require Import ZArith QArith Qround Qreduction Qabs Lia Lqa List Bool.
From Stdlib.Strings Require Import String Ascii Byte.
From Stdlib Require Import DecimalString.
From stdpp Require Import gmap strings.
Import ListNotations.

Local Open Scope Z_scope.
Set Warnings "-register-all".

(** ** Results of operations that may throw *)

Inductive error : Set :=
  | ShortHeader            (* binary.ts: "Expected at least 9 bytes" *)
  | ERR_OUT_OF_RANGE       (* node:buffer write out of range *)
  | BigIntRangeError       (* BigInt(x) for a non-integral number *)
  | NotConnected           (* "Client is not connected" *)
  | MissingTimestamp       (* "captureTimestampUs or serverTimestampUs must be provided" *)
  | NotSynchronized        (* "time sync not ready; provide serverTimestampUs explicitly" *)
  | SocketNotConnected     (* "WebSocket is not connected" *)
  | InvalidSampleRate      (* "sampleRate must be positive" *)
  | InvalidChannels        (* "channels must be 1 or 2" *)
  | InvalidBitDepth        (* "bitDepth must be 16, 24, or 32" *)
  | TypeError.             (* property read on null or undefined *)

Inductive result (A : Type) : Type :=
  | Ok (a : A)
  | Err (e : error).
Arguments Ok {A} a.
Arguments Err {A} e.

Definition rbind {A B : Type} (r : result A) (k : A -> result B) : result B :=
  match r with
  | Ok a => k a
  | Err e => Err e
  end.

Notation "'do' x <- r ; k" := (rbind r (fun x => k))
  (at level 10, x name, r at level 100, k at level 200).

(** ** JavaScript numbers *)

Module Num.

Inductive num : Set :=
  | Fin (q : Q)
  | PInf
  | NInf
  | NaN.

Definition of_Z (z : Z) : num := Fin (inject_Z z).

(** -1, 0 or 1 according to the sign of a rational. *)
Definition Qsign (q : Q) : Z := Z.sgn (Qnum q).

Definition opp (x : num) : num :=
  match x with
  | Fin q => Fin (Qred (- q))
  | PInf => NInf
  | NInf => PInf
  | NaN => NaN
  end.

Definition add (x y : num) : num :=
  match x, y with
  | NaN, _ | _, NaN => NaN
  | Fin a, Fin b => Fin (Qred (a + b))
  | PInf, NInf | NInf, PInf => NaN
  | PInf, _ | _, PInf => PInf
  | NInf, _ | _, NInf => NInf
  end.

Definition sub (x y : num) : num := add x (opp y).

(** An infinity of the sign [s] ([NaN] when [s] is 0). *)
Definition inf_of_sign (s : Z) : num :=
  match s with
  | Z0 => NaN
  | Zpos _ => PInf
  | Zneg _ => NInf
  end.

Definition sign (x : num) : Z :=
  match x with
  | Fin q => Qsign q
  | PInf => 1
  | NInf => -1
  | NaN => 0
  end.

Definition mul (x y : num) : num :=
  match x, y with
  | NaN, _ | _, NaN => NaN
  | Fin a, Fin b => Fin (Qred (a * b))
  | _, _ => inf_of_sign (sign x * sign y)
  end.

(** Division; a zero divisor counts as +0. *)
Definition div (x y : num) : num :=
  match x, y with
  | NaN, _ | _, NaN => NaN
  | Fin a, Fin b =>
      if Qeq_bool b 0 then inf_of_sign (Qsign a) else Fin (Qred (a / b))
  | Fin _, _ => Fin 0
  | _, Fin b => if Qeq_bool b 0 then x else inf_of_sign (sign x * Qsign b)
  | _, _ => NaN
  end.

(** [x === y] on numbers. *)
Definition eqb (x y : num) : bool :=
  match x, y with
  | Fin a, Fin b => Qeq_bool a b
  | PInf, PInf | NInf, NInf => true
  | _, _ => false
  end.

(** [x <= y] *)
Definition leb (x y : num) : bool :=
  match x, y with
  | NaN, _ | _, NaN => false
  | Fin a, Fin b => Qle_bool a b
  | NInf, _ | _, PInf => true
  | _, _ => false
  end.

(** [x < y] *)
Definition ltb (x y : num) : bool :=
  match x, y with
  | NaN, _ | _, NaN => false
  | Fin a, Fin b => negb (Qle_bool b a)
  | PInf, _ | _, NInf => false
  | _, _ => true
  end.

(** [x > y] and [x >= y] *)
Definition gtb (x y : num) : bool := ltb y x.
Definition geb (x y : num) : bool := leb y x.

(** [Number.isFinite] *)
Definition isFinite (x : num) : bool :=
  match x with
  | Fin _ => true
  | _ => false
  end.

(** [Math.round]: the nearest integer, a tie going up. *)
Definition round (x : num) : num :=
  match x with
  | Fin q => of_Z (Qfloor (q + (1 # 2)))
  | _ => x
  end.

(** [Math.floor] *)
Definition floor (x : num) : num :=
  match x with
  | Fin q => of_Z (Qfloor q)
  | _ => x
  end.

(** [Math.round(Math.sqrt(x))], computed exactly: for [q >= 0] the
    nearest integer to the real square root of [q] is
    [(floor (sqrt (4 q)) + 1) / 2], and [floor (sqrt (n / d))] is
    [Z.sqrt (n * d) / d]. *)
Definition round_sqrt (x : num) : num :=
  match x with
  | Fin q =>
      if negb (Qle_bool 0 q) then NaN
      else
        let n := Qnum q in
        let d := Zpos (Qden q) in
        of_Z ((Z.sqrt (4 * n * d) / d + 1) / 2)
  | PInf => PInf
  | _ => NaN
  end.

(** [BigInt(x)]: throws a RangeError unless [x] is an integer. *)
Definition toBigInt (x : num) : result Z :=
  match x with
  | Fin q =>
      if Qeq_bool q (inject_Z (Qfloor q)) then Ok (Qfloor q)
      else Err BigIntRangeError
  | _ => Err BigIntRangeError
  end.

(** [Number(b)] for a BigInt [b]. *)
Definition ofBigInt (b : Z) : num := of_Z b.

(** Truthiness of a number: 0 and NaN are falsy. *)
Definition truthy (x : num) : bool :=
  match x with
  | Fin q => negb (Qeq_bool q 0)
  | NaN => false
  | _ => true
  end.

End Num.

Abbreviation num := Num.num.

(** ** binary.ts *)

Module Binary.

Record BinaryHeader : Set := mkHeader {
  messageType : num;
  timestampUs : num
}.

Definition BINARY_HEADER_SIZE : nat := 9.

(** BinaryMessageType (types.ts) *)
Definition AUDIO_CHUNK : Z := 4.
Definition ARTWORK_CHANNEL_0 : Z := 8.
Definition SOURCE_AUDIO_CHUNK : Z := 12.
Definition VISUALIZATION_DATA : Z := 16.

Definition Z_of_byte (b : byte) : Z := Z.of_N (Byte.to_N b).

(** The byte holding [z mod 256]. *)
Definition byte_of_Z (z : Z) : byte :=
  match Byte.of_N (Z.to_N (z mod 256)) with
  | Some b => b
  | None => x00
  end.

(** The [n] low bytes of [u], most significant first. *)
Fixpoint be_bytes (n : nat) (u : Z) : list byte :=
  match n with
  | O => []
  | S k => byte_of_Z (u / 256 ^ Z.of_nat k) :: be_bytes k u
  end.

(** The unsigned value of a big-endian byte string. *)
Definition be_value (bs : list byte) : Z :=
  fold_left (fun acc b => acc * 256 + Z_of_byte b) bs 0.

(** [buf.writeUInt8(value, 0)]: range-checked, then stored truncated
    (a NaN passes both comparisons and is stored as 0). *)
Definition writeUInt8 (value : num) : result byte :=
  if Num.gtb value (Num.of_Z 255) || Num.ltb value (Num.of_Z 0)
  then Err ERR_OUT_OF_RANGE
  else match value with
       | Num.Fin q => Ok (byte_of_Z (Qfloor q))
       | _ => Ok x00
       end.

(** [buf.writeBigInt64BE(value, 1)]: range-checked, then the eight bytes
    of the two's-complement representation. *)
Definition writeBigInt64BE (value : Z) : result (list byte) :=
  if (value >? 2 ^ 63 - 1) || (value <? - 2 ^ 63)
  then Err ERR_OUT_OF_RANGE
  else Ok (be_bytes 8 (value mod 2 ^ 64)).

(** [buf.readBigInt64BE(1)] on the eight bytes [bs]. *)
Definition readBigInt64BE (bs : list byte) : Z :=
  let u := be_value bs in
  if u <? 2 ^ 63 then u else u - 2 ^ 64.

Definition packBinaryHeader (header : BinaryHeader) : result (list byte) :=
  do b0 <- writeUInt8 (messageType header);
  do big <- Num.toBigInt (timestampUs header);
  do rest <- writeBigInt64BE big;
  Ok (b0 :: rest).

Definition unpackBinaryHeader (data : list byte) : result BinaryHeader :=
  if (length data <? BINARY_HEADER_SIZE)%nat then Err ShortHeader
  else
    match data with
    | b0 :: rest =>
        Ok {| messageType := Num.of_Z (Z_of_byte b0);
              timestampUs := Num.ofBigInt (readBigInt64BE (firstn 8 rest)) |}
    | [] => Err ShortHeader
    end.

Definition packBinaryHeaderRaw (messageType timestampUs : num)
  : result (list byte) :=
  packBinaryHeader {| messageType := messageType; timestampUs := timestampUs |}.

End Binary.

(** ** time-filter.ts *)

Module TimeElement.

Record t : Set := mk {
  lastUpdate : num;
  offset : num;
  drift : num
}.

(** [new TimeElement()] *)
Definition new : t :=
  {| lastUpdate := Num.of_Z 0; offset := Num.of_Z 0; drift := Num.of_Z 0 |}.

End TimeElement.

Module TimeFilter.

Definition ADAPTIVE_FORGETTING_CUTOFF : num := Num.Fin (3 # 4).

Record SendspinTimeFilter : Set := mk {
  lastUpdate : num;
  count : Z;
  offset : num;
  drift : num;
  offsetCovariance : num;
  offsetDriftCovariance : num;
  driftCovariance : num;
  processVariance : num;
  forgetVarianceFactor : num;
  current : TimeElement.t
}.

(** [new SendspinTimeFilter(processStdDev, forgetFactor)] *)
Definition make (processStdDev forgetFactor : num) : SendspinTimeFilter :=
  {| lastUpdate := Num.of_Z 0;
     count := 0;
     offset := Num.of_Z 0;
     drift := Num.of_Z 0;
     offsetCovariance := Num.PInf;
     offsetDriftCovariance := Num.of_Z 0;
     driftCovariance := Num.of_Z 0;
     processVariance := Num.mul processStdDev processStdDev;
     forgetVarianceFactor := Num.mul forgetFactor forgetFactor;
     current := TimeElement.new |}.

(** [new SendspinTimeFilter()]: processStdDev = 0.01, forgetFactor = 1.001 *)
Definition new : SendspinTimeFilter :=
  make (Num.Fin (1 # 100)) (Num.Fin (1001 # 1000)).

Definition snapshot (lu o d : num) : TimeElement.t :=
  {| TimeElement.lastUpdate := lu; TimeElement.offset := o; TimeElement.drift := d |}.

(** The filter [f] with [this.current] replaced. *)
Definition with_current (f : SendspinTimeFilter) (te : TimeElement.t)
  : SendspinTimeFilter :=
  mk (lastUpdate f) (count f) (offset f) (drift f) (offsetCovariance f)
     (offsetDriftCovariance f) (driftCovariance f) (processVariance f)
     (forgetVarianceFactor f) te.

Definition update (f : SendspinTimeFilter) (measurement maxError timeAdded : num)
  : SendspinTimeFilter :=
  if Num.eqb timeAdded (lastUpdate f) then f
  else
    let dt := Num.sub timeAdded (lastUpdate f) in
    let measurementVariance := Num.mul maxError maxError in
    if count f <=? 0 then
      {| lastUpdate := timeAdded;
         count := count f + 1;
         offset := measurement;
         drift := Num.of_Z 0;
         offsetCovariance := measurementVariance;
         offsetDriftCovariance := offsetDriftCovariance f;
         driftCovariance := driftCovariance f;
         processVariance := processVariance f;
         forgetVarianceFactor := forgetVarianceFactor f;
         current := snapshot timeAdded measurement (Num.of_Z 0) |}
    else if count f =? 1 then
      let drift' := Num.div (Num.sub measurement (offset f)) dt in
      {| lastUpdate := timeAdded;
         count := count f + 1;
         offset := measurement;
         drift := drift';
         offsetCovariance := measurementVariance;
         offsetDriftCovariance := offsetDriftCovariance f;
         driftCovariance :=
           Num.div (Num.add (offsetCovariance f) measurementVariance) dt;
         processVariance := processVariance f;
         forgetVarianceFactor := forgetVarianceFactor f;
         current := snapshot timeAdded measurement drift' |}
    else
      let offsetPrediction := Num.add (offset f) (Num.mul (drift f) dt) in
      let dtSquared := Num.mul dt dt in
      let driftProcessVariance := Num.of_Z 0 in
      let newDriftCovariance := Num.add (driftCovariance f) driftProcessVariance in
      let newOffsetDriftCovariance :=
        Num.add (offsetDriftCovariance f) (Num.mul (driftCovariance f) dt) in
      let offsetProcessVariance := Num.mul dt (processVariance f) in
      let newOffsetCovariance :=
        Num.add
          (Num.add
             (Num.add (offsetCovariance f)
                (Num.mul (Num.mul (Num.of_Z 2) (offsetDriftCovariance f)) dt))
             (Num.mul (driftCovariance f) dtSquared))
          offsetProcessVariance in
      let residual := Num.sub measurement offsetPrediction in
      let maxResidualCutoff := Num.mul maxError ADAPTIVE_FORGETTING_CUTOFF in
      let forget := negb (count f <? 100) && Num.gtb residual maxResidualCutoff in
      let count' := if count f <? 100 then count f + 1 else count f in
      let newDriftCovariance :=
        if forget then Num.mul newDriftCovariance (forgetVarianceFactor f)
        else newDriftCovariance in
      let newOffsetDriftCovariance :=
        if forget then Num.mul newOffsetDriftCovariance (forgetVarianceFactor f)
        else newOffsetDriftCovariance in
      let newOffsetCovariance :=
        if forget then Num.mul newOffsetCovariance (forgetVarianceFactor f)
        else newOffsetCovariance in
      let uncertainty :=
        Num.div (Num.of_Z 1) (Num.add newOffsetCovariance measurementVariance) in
      let offsetGain := Num.mul newOffsetCovariance uncertainty in
      let driftGain := Num.mul newOffsetDriftCovariance uncertainty in
      let offset' := Num.add offsetPrediction (Num.mul offsetGain residual) in
      let drift' := Num.add (drift f) (Num.mul driftGain residual) in
      {| lastUpdate := timeAdded;
         count := count';
         offset := offset';
         drift := drift';
         offsetCovariance :=
           Num.sub newOffsetCovariance (Num.mul offsetGain newOffsetCovariance);
         offsetDriftCovariance :=
           Num.sub newOffsetDriftCovariance (Num.mul driftGain newOffsetCovariance);
         driftCovariance :=
           Num.sub newDriftCovariance (Num.mul driftGain newOffsetDriftCovariance);
         processVariance := processVariance f;
         forgetVarianceFactor := forgetVarianceFactor f;
         current := snapshot timeAdded offset' drift' |}.

Definition computeServerTime (f : SendspinTimeFilter) (clientTime : num) : num :=
  let dt := Num.sub clientTime (TimeElement.lastUpdate (current f)) in
  let offset :=
    Num.round (Num.add (TimeElement.offset (current f))
                       (Num.mul (TimeElement.drift (current f)) dt)) in
  Num.add clientTime offset.

Definition computeClientTime (f : SendspinTimeFilter) (serverTime : num) : num :=
  Num.round
    (Num.div
       (Num.add (Num.sub serverTime (TimeElement.offset (current f)))
                (Num.mul (TimeElement.drift (current f))
                         (TimeElement.lastUpdate (current f))))
       (Num.add (Num.of_Z 1) (TimeElement.drift (current f)))).

(** [reset()] leaves [lastUpdate] and the two variance factors as they are. *)
Definition reset (f : SendspinTimeFilter) : SendspinTimeFilter :=
  {| lastUpdate := lastUpdate f;
     count := 0;
     offset := Num.of_Z 0;
     drift := Num.of_Z 0;
     offsetCovariance := Num.PInf;
     offsetDriftCovariance := Num.of_Z 0;
     driftCovariance := Num.of_Z 0;
     processVariance := processVariance f;
     forgetVarianceFactor := forgetVarianceFactor f;
     current := TimeElement.new |}.

Definition isSynchronized (f : SendspinTimeFilter) : bool :=
  (count f >=? 2) && Num.isFinite (offsetCovariance f).

(** [get error]: [Math.round(Math.sqrt(this.offsetCovariance))] *)
Definition error (f : SendspinTimeFilter) : num :=
  Num.round_sqrt (offsetCovariance f).

Definition covariance (f : SendspinTimeFilter) : num :=
  Num.round (offsetCovariance f).

Definition offsetUs (f : SendspinTimeFilter) : num := offset f.

End TimeFilter.

(** ** JavaScript values, as [JSON.parse] and property reads produce them *)

Module Js.

Inductive value : Type :=
  | VUndefined
  | VNull
  | VBool (b : bool)
  | VNum (n : num)
  | VStr (s : string)
  | VArr (items : list value)
  | VObj (fields : list (string * value)).

Fixpoint lookup (k : string) (fields : list (string * value)) : value :=
  match fields with
  | [] => VUndefined
  | (k', v) :: rest => if String.eqb k k' then v else lookup k rest
  end.

(** [v?.k], and [v.k] where [v] is known not to be null or undefined.
    None of the property names the sources read is a property of an
    array or of a primitive. *)
Definition get (v : value) (k : string) : value :=
  match v with
  | VObj fields => lookup k fields
  | _ => VUndefined
  end.

(** [v == null] *)
Definition nullish (v : value) : bool :=
  match v with
  | VUndefined | VNull => true
  | _ => false
  end.

(** [v.k]: a TypeError on null and undefined. *)
Definition get_strict (v : value) (k : string) : result value :=
  if nullish v then Err TypeError else Ok (get v k).

(** [a ?? b] *)
Definition coalesce (a b : value) : value := if nullish a then b else a.

(** [!!v] *)
Definition truthy (v : value) : bool :=
  match v with
  | VUndefined | VNull => false
  | VBool b => b
  | VNum n => Num.truthy n
  | VStr s => negb (String.eqb s "")
  | VArr _ | VObj _ => true
  end.

(** [v === s] for a string literal [s] *)
Definition is_str (v : value) (s : string) : bool :=
  match v with
  | VStr s' => String.eqb s' s
  | _ => false
  end.

(** White space of [String.prototype.trim] among the code units below 256. *)
Definition is_space (c : ascii) : bool :=
  let n := N_of_ascii c in
  ((9 <=? n) && (n <=? 13) || (n =? 32) || (n =? 160))%N.

Fixpoint trimStart (s : string) : string :=
  match s with
  | String c rest => if is_space c then trimStart rest else s
  | EmptyString => EmptyString
  end.

Fixpoint trimEnd (s : string) : string :=
  match s with
  | String c rest =>
      match trimEnd rest with
      | EmptyString => if is_space c then EmptyString else String c EmptyString
      | rest' => String c rest'
      end
  | EmptyString => EmptyString
  end.

Definition trim (s : string) : string := trimEnd (trimStart s).

(** [s.split(sep)[0]]: the part of [s] before the first [sep]. *)
Fixpoint split_head (sep : ascii) (s : string) : string :=
  match s with
  | String c rest =>
      if Ascii.eqb c sep then EmptyString else String c (split_head sep rest)
  | EmptyString => EmptyString
  end.

(** [s.startsWith(c)] for a one-character [c] *)
Definition startsWith (s : string) (c : ascii) : bool :=
  match s with
  | String c' _ => Ascii.eqb c' c
  | EmptyString => false
  end.

(** [hay.includes(needle)] on strings *)
Fixpoint str_includes (needle hay : string) : bool :=
  String.prefix needle hay ||
  match hay with
  | String _ rest => str_includes needle rest
  | EmptyString => false
  end.

(** [v.includes(s)] for a string literal [s]: membership in an array,
    substring of a string, and a TypeError on anything else but null and
    undefined, which the callers rule out. *)
Definition includes (v : value) (s : string) : result bool :=
  match v with
  | VArr items => Ok (existsb (fun x => is_str x s) items)
  | VStr hay => Ok (str_includes s hay)
  | _ => Err TypeError
  end.

End Js.

(** ** server/session.ts *)

Module Session.

Import Js.

(** *** types.ts *)

Module Roles.
Definition PLAYER : string := "player@v1".
Definition CONTROLLER : string := "controller@v1".
Definition METADATA : string := "metadata@v1".
Definition ARTWORK : string := "artwork@v1".
Definition VISUALIZER : string := "visualizer@v1".
Definition SOURCE : string := "source@v1".
End Roles.

Inductive ConnectionReason : Set := DISCOVERY | PLAYBACK.
Inductive PlaybackStateType : Set := PLAYING | PAUSED | STOPPED.
Inductive AudioCodec : Set := OPUS | FLAC | PCM.

(** *** Types of session.ts *)

Record SendspinConnectionMeta : Set := mkMeta {
  zoneId : option Z;
  playerId : option string;
  remote : option string
}.

Record SendspinPcmFrame : Set := mkFrame {
  data : list byte;
  timestampUs : option num
}.

Record PlayerFormat : Set := mkFormat {
  codec : AudioCodec;
  sampleRate : num;
  channels : num;
  bitDepth : num;
  codecHeader : option string
}.

(** [Partial<PlayerFormat>] *)
Record PartialPlayerFormat : Set := mkPartial {
  p_codec : option AudioCodec;
  p_sampleRate : option num;
  p_channels : option num;
  p_bitDepth : option num;
  p_codecHeader : option string
}.

Record ArtworkChannel : Type := mkChannel {
  source : value;
  format : value;
  width : num;
  height : num
}.

(** Which hooks of [SendspinSessionHooks] are present. *)
Record SendspinSessionHooks : Set := mkHooks {
  onPlayerState : bool;
  onGroupCommand : bool;
  onSourceState : bool;
  onSourceCommand : bool;
  onSourceAudio : bool;
  onIdentified : bool;
  onDisconnected : bool;
  onFormatChanged : bool;
  onGoodbye : bool;
  onUnsupportedRoles : bool
}.

(** [{}] *)
Definition no_hooks : SendspinSessionHooks :=
  mkHooks false false false false false false false false false false.

(** *** The transport and the runtime *)

Inductive ReadyState : Set := CONNECTING | OPEN | CLOSING | CLOSED.

Definition ReadyState_eqb (a b : ReadyState) : bool :=
  match a, b with
  | CONNECTING, CONNECTING | OPEN, OPEN | CLOSING, CLOSING | CLOSED, CLOSED => true
  | _, _ => false
  end.

(** What the session reads of its [WebSocket]. *)
Record WebSocket : Set := mkWs {
  readyState : ReadyState;
  bufferedAmount : Z
}.

(** The values the clocks return during one operation: the first and the
    second read of [serverNowUs()], and [Date.now()]. *)
Record Clock : Set := mkClock {
  serverNowUs : num;
  serverNowUs2 : num;
  DateNow : Z
}.

(** JSON messages handed to [sendJson]. *)
Inductive message : Type :=
  | ServerHello (active_roles : list string) (connection_reason : ConnectionReason)
  | ServerTime (client_transmitted : value) (server_received server_transmitted : num)
  | GroupUpdate (playback_state : PlaybackStateType) (group_id group_name : option string)
  | StreamStartPlayer (f : PlayerFormat)
  | StreamStartArtwork (chans : list ArtworkChannel)
  | StreamStartVisualizer (config : value)
  | StreamClear (rs : option (list string))
  | StreamEnd (rs : option (list string))
  | ServerCommand (payload : value)
  | ServerStateMetadata (timestamp : num) (metadata : value)
  | ServerStateController (controller : value).

(** What the session does to the outside, in order. *)
Inductive event : Type :=
  | WsSendText (m : message)
      (* ws.send(JSON.stringify(m)) *)
  | WsSendBinary (buf : list byte) (buffered : Z)
      (* ws.send(buf), and ws.bufferedAmount at that moment *)
  | WsClose (code : option Z) (reason : option string)
  | CallOnPlayerState (state volume muted : value)
  | CallOnGroupCommand (command volume mute : value)
  | CallOnSourceState (state level signal : value)
  | CallOnSourceCommand (command : value)
  | CallOnSourceAudio (ts : num) (chunk : list byte)
  | CallOnIdentified
  | CallOnDisconnected
  | CallOnFormatChanged (f : PlayerFormat)
  | CallOnGoodbye (reason : value)
  | CallOnUnsupportedRoles (rs : list string)
  | Thrown (e : error).

(** Callbacks waiting in [setTimeout]. *)
Inductive timer : Set :=
  | InitialStateTimeout                  (* 5000 ms *)
  | PcmRetry (frame : SendspinPcmFrame). (* 5 ms *)

(** *** The session object.  [initialStateTimer] tells whether the field
    holds a handle; [timers] are the callbacks still to run; [log] is what
    the session has done so far, oldest first. *)

Record SendspinSession : Type := mkSession {
  ready : bool;
  clientId : option string;
  clientName : option string;
  roles : list string;
  playerSupport : Js.value;
  sourceSupport : Js.value;
  artworkChannels : list ArtworkChannel;
  expectVolume : bool;
  expectMute : bool;
  warnedMissingVolume : bool;
  warnedMissingMute : bool;
  initialStateReceived : bool;
  initialStateTimer : bool;
  initialStateRequired : bool;
  identified : bool;
  playbackState : PlaybackStateType;
  sourceState : Js.value;
  sourceSignal : Js.value;
  hooks : SendspinSessionHooks;
  hooksAttached : bool;
  activeStream : bool;
  streamFormat : PlayerFormat;
  lastGoodbyeReason : Js.value;
  backpressureDrops : Z;
  lastBackpressureBytes : Z;
  lastBackpressureTs : Z;
  backpressureEvents : list Z;
  ws : WebSocket;
  connectionReason : ConnectionReason;
  connectionMeta : SendspinConnectionMeta;
  timers : list timer;
  log : list event
}.

Definition set_ready (x : bool) (s : SendspinSession) : SendspinSession :=
  mkSession x (clientId s) (clientName s) (roles s) (playerSupport s) (sourceSupport s)
    (artworkChannels s) (expectVolume s) (expectMute s) (warnedMissingVolume s)
    (warnedMissingMute s) (initialStateReceived s) (initialStateTimer s)
    (initialStateRequired s) (identified s) (playbackState s) (sourceState s)
    (sourceSignal s) (hooks s) (hooksAttached s) (activeStream s) (streamFormat s)
    (lastGoodbyeReason s) (backpressureDrops s) (lastBackpressureBytes s)
    (lastBackpressureTs s) (backpressureEvents s) (ws s) (connectionReason s)
    (connectionMeta s) (timers s) (log s).

Definition set_clientId (x : option string) (s : SendspinSession) : SendspinSession :=
  mkSession (ready s) x (clientName s) (roles s) (playerSupport s) (sourceSupport s)
    (artworkChannels s) (expectVolume s) (expectMute s) (warnedMissingVolume s)
    (warnedMissingMute s) (initialStateReceived s) (initialStateTimer s)
    (initialStateRequired s) (identified s) (playbackState s) (sourceState s)
    (sourceSignal s) (hooks s) (hooksAttached s) (activeStream s) (streamFormat s)
    (lastGoodbyeReason s) (backpressureDrops s) (lastBackpressureBytes s)
    (lastBackpressureTs s) (backpressureEvents s) (ws s) (connectionReason s)
    (connectionMeta s) (timers s) (log s).

Definition set_clientName (x : option string) (s : SendspinSession) : SendspinSession :=
  mkSession (ready s) (clientId s) x (roles s) (playerSupport s) (sourceSupport s)
    (artworkChannels s) (expectVolume s) (expectMute s) (warnedMissingVolume s)
    (warnedMissingMute s) (initialStateReceived s) (initialStateTimer s)
    (initialStateRequired s) (identified s) (playbackState s) (sourceState s)
    (sourceSignal s) (hooks s) (hooksAttached s) (activeStream s) (streamFormat s)
    (lastGoodbyeReason s) (backpressureDrops s) (lastBackpressureBytes s)
    (lastBackpressureTs s) (backpressureEvents s) (ws s) (connectionReason s)
    (connectionMeta s) (timers s) (log s).

Definition set_roles (x : list string) (s : SendspinSession) : SendspinSession :=
  mkSession (ready s) (clientId s) (clientName s) x (playerSupport s) (sourceSupport s)
    (artworkChannels s) (expectVolume s) (expectMute s) (warnedMissingVolume s)
    (warnedMissingMute s) (initialStateReceived s) (initialStateTimer s)
    (initialStateRequired s) (identified s) (playbackState s) (sourceState s)
    (sourceSignal s) (hooks s) (hooksAttached s) (activeStream s) (streamFormat s)
    (lastGoodbyeReason s) (backpressureDrops s) (lastBackpressureBytes s)
    (lastBackpressureTs s) (backpressureEvents s) (ws s) (connectionReason s)
    (connectionMeta s) (timers s) (log s).

Definition set_playerSupport (x : Js.value) (s : SendspinSession) : SendspinSession :=
  mkSession (ready s) (clientId s) (clientName s) (roles s) x (sourceSupport s)
    (artworkChannels s) (expectVolume s) (expectMute s) (warnedMissingVolume s)
    (warnedMissingMute s) (initialStateReceived s) (initialStateTimer s)
    (initialStateRequired s) (identified s) (playbackState s) (sourceState s)
    (sourceSignal s) (hooks s) (hooksAttached s) (activeStream s) (streamFormat s)
    (lastGoodbyeReason s) (backpressureDrops s) (lastBackpressureBytes s)
    (lastBackpressureTs s) (backpressureEvents s) (ws s) (connectionReason s)
    (connectionMeta s) (timers s) (log s).

Definition set_sourceSupport (x : Js.value) (s : SendspinSession) : SendspinSession :=
  mkSession (ready s) (clientId s) (clientName s) (roles s) (playerSupport s) x
    (artworkChannels s) (expectVolume s) (expectMute s) (warnedMissingVolume s)
    (warnedMissingMute s) (initialStateReceived s) (initialStateTimer s)
    (initialStateRequired s) (identified s) (playbackState s) (sourceState s)
    (sourceSignal s) (hooks s) (hooksAttached s) (activeStream s) (streamFormat s)
    (lastGoodbyeReason s) (backpressureDrops s) (lastBackpressureBytes s)
    (lastBackpressureTs s) (backpressureEvents s) (ws s) (connectionReason s)
    (connectionMeta s) (timers s) (log s).

Definition set_artworkChannels (x : list ArtworkChannel) (s : SendspinSession) : SendspinSession :=
  mkSession (ready s) (clientId s) (clientName s) (roles s) (playerSupport s)
    (sourceSupport s) x (expectVolume s) (expectMute s) (warnedMissingVolume s)
    (warnedMissingMute s) (initialStateReceived s) (initialStateTimer s)
    (initialStateRequired s) (identified s) (playbackState s) (sourceState s)
    (sourceSignal s) (hooks s) (hooksAttached s) (activeStream s) (streamFormat s)
    (lastGoodbyeReason s) (backpressureDrops s) (lastBackpressureBytes s)
    (lastBackpressureTs s) (backpressureEvents s) (ws s) (connectionReason s)
    (connectionMeta s) (timers s) (log s).

Definition set_expectVolume (x : bool) (s : SendspinSession) : SendspinSession :=
  mkSession (ready s) (clientId s) (clientName s) (roles s) (playerSupport s)
    (sourceSupport s) (artworkChannels s) x (expectMute s) (warnedMissingVolume s)
    (warnedMissingMute s) (initialStateReceived s) (initialStateTimer s)
    (initialStateRequired s) (identified s) (playbackState s) (sourceState s)
    (sourceSignal s) (hooks s) (hooksAttached s) (activeStream s) (streamFormat s)
    (lastGoodbyeReason s) (backpressureDrops s) (lastBackpressureBytes s)
    (lastBackpressureTs s) (backpressureEvents s) (ws s) (connectionReason s)
    (connectionMeta s) (timers s) (log s).

Definition set_expectMute (x : bool) (s : SendspinSession) : SendspinSession :=
  mkSession (ready s) (clientId s) (clientName s) (roles s) (playerSupport s)
    (sourceSupport s) (artworkChannels s) (expectVolume s) x (warnedMissingVolume s)
    (warnedMissingMute s) (initialStateReceived s) (initialStateTimer s)
    (initialStateRequired s) (identified s) (playbackState s) (sourceState s)
    (sourceSignal s) (hooks s) (hooksAttached s) (activeStream s) (streamFormat s)
    (lastGoodbyeReason s) (backpressureDrops s) (lastBackpressureBytes s)
    (lastBackpressureTs s) (backpressureEvents s) (ws s) (connectionReason s)
    (connectionMeta s) (timers s) (log s).

Definition set_warnedMissingVolume (x : bool) (s : SendspinSession) : SendspinSession :=
  mkSession (ready s) (clientId s) (clientName s) (roles s) (playerSupport s)
    (sourceSupport s) (artworkChannels s) (expectVolume s) (expectMute s) x
    (warnedMissingMute s) (initialStateReceived s) (initialStateTimer s)
    (initialStateRequired s) (identified s) (playbackState s) (sourceState s)
    (sourceSignal s) (hooks s) (hooksAttached s) (activeStream s) (streamFormat s)
    (lastGoodbyeReason s) (backpressureDrops s) (lastBackpressureBytes s)
    (lastBackpressureTs s) (backpressureEvents s) (ws s) (connectionReason s)
    (connectionMeta s) (timers s) (log s).

Definition set_warnedMissingMute (x : bool) (s : SendspinSession) : SendspinSession :=
  mkSession (ready s) (clientId s) (clientName s) (roles s) (playerSupport s)
    (sourceSupport s) (artworkChannels s) (expectVolume s) (expectMute s)
    (warnedMissingVolume s) x (initialStateReceived s) (initialStateTimer s)
    (initialStateRequired s) (identified s) (playbackState s) (sourceState s)
    (sourceSignal s) (hooks s) (hooksAttached s) (activeStream s) (streamFormat s)
    (lastGoodbyeReason s) (backpressureDrops s) (lastBackpressureBytes s)
    (lastBackpressureTs s) (backpressureEvents s) (ws s) (connectionReason s)
    (connectionMeta s) (timers s) (log s).

Definition set_initialStateReceived (x : bool) (s : SendspinSession) : SendspinSession :=
  mkSession (ready s) (clientId s) (clientName s) (roles s) (playerSupport s)
    (sourceSupport s) (artworkChannels s) (expectVolume s) (expectMute s)
    (warnedMissingVolume s) (warnedMissingMute s) x (initialStateTimer s)
    (initialStateRequired s) (identified s) (playbackState s) (sourceState s)
    (sourceSignal s) (hooks s) (hooksAttached s) (activeStream s) (streamFormat s)
    (lastGoodbyeReason s) (backpressureDrops s) (lastBackpressureBytes s)
    (lastBackpressureTs s) (backpressureEvents s) (ws s) (connectionReason s)
    (connectionMeta s) (timers s) (log s).

Definition set_initialStateTimer (x : bool) (s : SendspinSession) : SendspinSession :=
  mkSession (ready s) (clientId s) (clientName s) (roles s) (playerSupport s)
    (sourceSupport s) (artworkChannels s) (expectVolume s) (expectMute s)
    (warnedMissingVolume s) (warnedMissingMute s) (initialStateReceived s) x
    (initialStateRequired s) (identified s) (playbackState s) (sourceState s)
    (sourceSignal s) (hooks s) (hooksAttached s) (activeStream s) (streamFormat s)
    (lastGoodbyeReason s) (backpressureDrops s) (lastBackpressureBytes s)
    (lastBackpressureTs s) (backpressureEvents s) (ws s) (connectionReason s)
    (connectionMeta s) (timers s) (log s).

Definition set_initialStateRequired (x : bool) (s : SendspinSession) : SendspinSession :=
  mkSession (ready s) (clientId s) (clientName s) (roles s) (playerSupport s)
    (sourceSupport s) (artworkChannels s) (expectVolume s) (expectMute s)
    (warnedMissingVolume s) (warnedMissingMute s) (initialStateReceived s)
    (initialStateTimer s) x (identified s) (playbackState s) (sourceState s)
    (sourceSignal s) (hooks s) (hooksAttached s) (activeStream s) (streamFormat s)
    (lastGoodbyeReason s) (backpressureDrops s) (lastBackpressureBytes s)
    (lastBackpressureTs s) (backpressureEvents s) (ws s) (connectionReason s)
    (connectionMeta s) (timers s) (log s).

Definition set_identified (x : bool) (s : SendspinSession) : SendspinSession :=
  mkSession (ready s) (clientId s) (clientName s) (roles s) (playerSupport s)
    (sourceSupport s) (artworkChannels s) (expectVolume s) (expectMute s)
    (warnedMissingVolume s) (warnedMissingMute s) (initialStateReceived s)
    (initialStateTimer s) (initialStateRequired s) x (playbackState s) (sourceState s)
    (sourceSignal s) (hooks s) (hooksAttached s) (activeStream s) (streamFormat s)
    (lastGoodbyeReason s) (backpressureDrops s) (lastBackpressureBytes s)
    (lastBackpressureTs s) (backpressureEvents s) (ws s) (connectionReason s)
    (connectionMeta s) (timers s) (log s).

Definition set_playbackState (x : PlaybackStateType) (s : SendspinSession) : SendspinSession :=
  mkSession (ready s) (clientId s) (clientName s) (roles s) (playerSupport s)
    (sourceSupport s) (artworkChannels s) (expectVolume s) (expectMute s)
    (warnedMissingVolume s) (warnedMissingMute s) (initialStateReceived s)
    (initialStateTimer s) (initialStateRequired s) (identified s) x (sourceState s)
    (sourceSignal s) (hooks s) (hooksAttached s) (activeStream s) (streamFormat s)
    (lastGoodbyeReason s) (backpressureDrops s) (lastBackpressureBytes s)
    (lastBackpressureTs s) (backpressureEvents s) (ws s) (connectionReason s)
    (connectionMeta s) (timers s) (log s).

Definition set_sourceState (x : Js.value) (s : SendspinSession) : SendspinSession :=
  mkSession (ready s) (clientId s) (clientName s) (roles s) (playerSupport s)
    (sourceSupport s) (artworkChannels s) (expectVolume s) (expectMute s)
    (warnedMissingVolume s) (warnedMissingMute s) (initialStateReceived s)
    (initialStateTimer s) (initialStateRequired s) (identified s) (playbackState s) x
    (sourceSignal s) (hooks s) (hooksAttached s) (activeStream s) (streamFormat s)
    (lastGoodbyeReason s) (backpressureDrops s) (lastBackpressureBytes s)
    (lastBackpressureTs s) (backpressureEvents s) (ws s) (connectionReason s)
    (connectionMeta s) (timers s) (log s).

Definition set_sourceSignal (x : Js.value) (s : SendspinSession) : SendspinSession :=
  mkSession (ready s) (clientId s) (clientName s) (roles s) (playerSupport s)
    (sourceSupport s) (artworkChannels s) (expectVolume s) (expectMute s)
    (warnedMissingVolume s) (warnedMissingMute s) (initialStateReceived s)
    (initialStateTimer s) (initialStateRequired s) (identified s) (playbackState s)
    (sourceState s) x (hooks s) (hooksAttached s) (activeStream s) (streamFormat s)
    (lastGoodbyeReason s) (backpressureDrops s) (lastBackpressureBytes s)
    (lastBackpressureTs s) (backpressureEvents s) (ws s) (connectionReason s)
    (connectionMeta s) (timers s) (log s).

Definition set_hooks (x : SendspinSessionHooks) (s : SendspinSession) : SendspinSession :=
  mkSession (ready s) (clientId s) (clientName s) (roles s) (playerSupport s)
    (sourceSupport s) (artworkChannels s) (expectVolume s) (expectMute s)
    (warnedMissingVolume s) (warnedMissingMute s) (initialStateReceived s)
    (initialStateTimer s) (initialStateRequired s) (identified s) (playbackState s)
    (sourceState s) (sourceSignal s) x (hooksAttached s) (activeStream s)
    (streamFormat s) (lastGoodbyeReason s) (backpressureDrops s)
    (lastBackpressureBytes s) (lastBackpressureTs s) (backpressureEvents s) (ws s)
    (connectionReason s) (connectionMeta s) (timers s) (log s).

Definition set_hooksAttached (x : bool) (s : SendspinSession) : SendspinSession :=
  mkSession (ready s) (clientId s) (clientName s) (roles s) (playerSupport s)
    (sourceSupport s) (artworkChannels s) (expectVolume s) (expectMute s)
    (warnedMissingVolume s) (warnedMissingMute s) (initialStateReceived s)
    (initialStateTimer s) (initialStateRequired s) (identified s) (playbackState s)
    (sourceState s) (sourceSignal s) (hooks s) x (activeStream s) (streamFormat s)
    (lastGoodbyeReason s) (backpressureDrops s) (lastBackpressureBytes s)
    (lastBackpressureTs s) (backpressureEvents s) (ws s) (connectionReason s)
    (connectionMeta s) (timers s) (log s).

Definition set_activeStream (x : bool) (s : SendspinSession) : SendspinSession :=
  mkSession (ready s) (clientId s) (clientName s) (roles s) (playerSupport s)
    (sourceSupport s) (artworkChannels s) (expectVolume s) (expectMute s)
    (warnedMissingVolume s) (warnedMissingMute s) (initialStateReceived s)
    (initialStateTimer s) (initialStateRequired s) (identified s) (playbackState s)
    (sourceState s) (sourceSignal s) (hooks s) (hooksAttached s) x (streamFormat s)
    (lastGoodbyeReason s) (backpressureDrops s) (lastBackpressureBytes s)
    (lastBackpressureTs s) (backpressureEvents s) (ws s) (connectionReason s)
    (connectionMeta s) (timers s) (log s).

Definition set_streamFormat (x : PlayerFormat) (s : SendspinSession) : SendspinSession :=
  mkSession (ready s) (clientId s) (clientName s) (roles s) (playerSupport s)
    (sourceSupport s) (artworkChannels s) (expectVolume s) (expectMute s)
    (warnedMissingVolume s) (warnedMissingMute s) (initialStateReceived s)
    (initialStateTimer s) (initialStateRequired s) (identified s) (playbackState s)
    (sourceState s) (sourceSignal s) (hooks s) (hooksAttached s) (activeStream s) x
    (lastGoodbyeReason s) (backpressureDrops s) (lastBackpressureBytes s)
    (lastBackpressureTs s) (backpressureEvents s) (ws s) (connectionReason s)
    (connectionMeta s) (timers s) (log s).

Definition set_lastGoodbyeReason (x : Js.value) (s : SendspinSession) : SendspinSession :=
  mkSession (ready s) (clientId s) (clientName s) (roles s) (playerSupport s)
    (sourceSupport s) (artworkChannels s) (expectVolume s) (expectMute s)
    (warnedMissingVolume s) (warnedMissingMute s) (initialStateReceived s)
    (initialStateTimer s) (initialStateRequired s) (identified s) (playbackState s)
    (sourceState s) (sourceSignal s) (hooks s) (hooksAttached s) (activeStream s)
    (streamFormat s) x (backpressureDrops s) (lastBackpressureBytes s)
    (lastBackpressureTs s) (backpressureEvents s) (ws s) (connectionReason s)
    (connectionMeta s) (timers s) (log s).

Definition set_backpressureDrops (x : Z) (s : SendspinSession) : SendspinSession :=
  mkSession (ready s) (clientId s) (clientName s) (roles s) (playerSupport s)
    (sourceSupport s) (artworkChannels s) (expectVolume s) (expectMute s)
    (warnedMissingVolume s) (warnedMissingMute s) (initialStateReceived s)
    (initialStateTimer s) (initialStateRequired s) (identified s) (playbackState s)
    (sourceState s) (sourceSignal s) (hooks s) (hooksAttached s) (activeStream s)
    (streamFormat s) (lastGoodbyeReason s) x (lastBackpressureBytes s)
    (lastBackpressureTs s) (backpressureEvents s) (ws s) (connectionReason s)
    (connectionMeta s) (timers s) (log s).

Definition set_lastBackpressureBytes (x : Z) (s : SendspinSession) : SendspinSession :=
  mkSession (ready s) (clientId s) (clientName s) (roles s) (playerSupport s)
    (sourceSupport s) (artworkChannels s) (expectVolume s) (expectMute s)
    (warnedMissingVolume s) (warnedMissingMute s) (initialStateReceived s)
    (initialStateTimer s) (initialStateRequired s) (identified s) (playbackState s)
    (sourceState s) (sourceSignal s) (hooks s) (hooksAttached s) (activeStream s)
    (streamFormat s) (lastGoodbyeReason s) (backpressureDrops s) x (lastBackpressureTs s)
    (backpressureEvents s) (ws s) (connectionReason s) (connectionMeta s) (timers s)
    (log s).

Definition set_lastBackpressureTs (x : Z) (s : SendspinSession) : SendspinSession :=
  mkSession (ready s) (clientId s) (clientName s) (roles s) (playerSupport s)
    (sourceSupport s) (artworkChannels s) (expectVolume s) (expectMute s)
    (warnedMissingVolume s) (warnedMissingMute s) (initialStateReceived s)
    (initialStateTimer s) (initialStateRequired s) (identified s) (playbackState s)
    (sourceState s) (sourceSignal s) (hooks s) (hooksAttached s) (activeStream s)
    (streamFormat s) (lastGoodbyeReason s) (backpressureDrops s)
    (lastBackpressureBytes s) x (backpressureEvents s) (ws s) (connectionReason s)
    (connectionMeta s) (timers s) (log s).

Definition set_backpressureEvents (x : list Z) (s : SendspinSession) : SendspinSession :=
  mkSession (ready s) (clientId s) (clientName s) (roles s) (playerSupport s)
    (sourceSupport s) (artworkChannels s) (expectVolume s) (expectMute s)
    (warnedMissingVolume s) (warnedMissingMute s) (initialStateReceived s)
    (initialStateTimer s) (initialStateRequired s) (identified s) (playbackState s)
    (sourceState s) (sourceSignal s) (hooks s) (hooksAttached s) (activeStream s)
    (streamFormat s) (lastGoodbyeReason s) (backpressureDrops s)
    (lastBackpressureBytes s) (lastBackpressureTs s) x (ws s) (connectionReason s)
    (connectionMeta s) (timers s) (log s).

Definition set_ws (x : WebSocket) (s : SendspinSession) : SendspinSession :=
  mkSession (ready s) (clientId s) (clientName s) (roles s) (playerSupport s)
    (sourceSupport s) (artworkChannels s) (expectVolume s) (expectMute s)
    (warnedMissingVolume s) (warnedMissingMute s) (initialStateReceived s)
    (initialStateTimer s) (initialStateRequired s) (identified s) (playbackState s)
    (sourceState s) (sourceSignal s) (hooks s) (hooksAttached s) (activeStream s)
    (streamFormat s) (lastGoodbyeReason s) (backpressureDrops s)
    (lastBackpressureBytes s) (lastBackpressureTs s) (backpressureEvents s) x
    (connectionReason s) (connectionMeta s) (timers s) (log s).

Definition set_connectionMeta (x : SendspinConnectionMeta) (s : SendspinSession) : SendspinSession :=
  mkSession (ready s) (clientId s) (clientName s) (roles s) (playerSupport s)
    (sourceSupport s) (artworkChannels s) (expectVolume s) (expectMute s)
    (warnedMissingVolume s) (warnedMissingMute s) (initialStateReceived s)
    (initialStateTimer s) (initialStateRequired s) (identified s) (playbackState s)
    (sourceState s) (sourceSignal s) (hooks s) (hooksAttached s) (activeStream s)
    (streamFormat s) (lastGoodbyeReason s) (backpressureDrops s)
    (lastBackpressureBytes s) (lastBackpressureTs s) (backpressureEvents s) (ws s)
    (connectionReason s) x (timers s) (log s).

Definition set_timers (x : list timer) (s : SendspinSession) : SendspinSession :=
  mkSession (ready s) (clientId s) (clientName s) (roles s) (playerSupport s)
    (sourceSupport s) (artworkChannels s) (expectVolume s) (expectMute s)
    (warnedMissingVolume s) (warnedMissingMute s) (initialStateReceived s)
    (initialStateTimer s) (initialStateRequired s) (identified s) (playbackState s)
    (sourceState s) (sourceSignal s) (hooks s) (hooksAttached s) (activeStream s)
    (streamFormat s) (lastGoodbyeReason s) (backpressureDrops s)
    (lastBackpressureBytes s) (lastBackpressureTs s) (backpressureEvents s) (ws s)
    (connectionReason s) (connectionMeta s) x (log s).

Definition set_log (x : list event) (s : SendspinSession) : SendspinSession :=
  mkSession (ready s) (clientId s) (clientName s) (roles s) (playerSupport s)
    (sourceSupport s) (artworkChannels s) (expectVolume s) (expectMute s)
    (warnedMissingVolume s) (warnedMissingMute s) (initialStateReceived s)
    (initialStateTimer s) (initialStateRequired s) (identified s) (playbackState s)
    (sourceState s) (sourceSignal s) (hooks s) (hooksAttached s) (activeStream s)
    (streamFormat s) (lastGoodbyeReason s) (backpressureDrops s)
    (lastBackpressureBytes s) (lastBackpressureTs s) (backpressureEvents s) (ws s)
    (connectionReason s) (connectionMeta s) (timers s) x.

Definition maxBufferedSend : Z := 1024 * 512.

Definition default_format : PlayerFormat :=
  {| codec := PCM; sampleRate := Num.of_Z 48000; channels := Num.of_Z 2;
     bitDepth := Num.of_Z 16; codecHeader := None |}.

(** [new SendspinSession(ws, req, connectionReason, connectionMeta, hooks)] *)
Definition new (w : WebSocket) (reason : ConnectionReason)
    (meta : SendspinConnectionMeta) (h : SendspinSessionHooks) : SendspinSession :=
  {| ready := false; clientId := None; clientName := None; roles := [];
     playerSupport := VNull; sourceSupport := VNull; artworkChannels := [];
     expectVolume := false; expectMute := false;
     warnedMissingVolume := false; warnedMissingMute := false;
     initialStateReceived := false; initialStateTimer := false;
     initialStateRequired := false; identified := false;
     playbackState := STOPPED; sourceState := VNull; sourceSignal := VNull;
     hooks := h; hooksAttached := false; activeStream := false;
     streamFormat := default_format; lastGoodbyeReason := VNull;
     backpressureDrops := 0; lastBackpressureBytes := 0; lastBackpressureTs := 0;
     backpressureEvents := []; ws := w; connectionReason := reason;
     connectionMeta := meta; timers := []; log := [] |}.

Definition emit (e : event) (s : SendspinSession) : SendspinSession :=
  set_log (log s ++ [e]) s.

Definition is_open (s : SendspinSession) : bool :=
  ReadyState_eqb (readyState (ws s)) OPEN.

(** [this.roles.includes(r)] *)
Definition has_role (r : string) (s : SendspinSession) : bool :=
  existsb (String.eqb r) (roles s).

(** *** Transport primitives *)

Definition ws_close (code : option Z) (reason : option string)
    (s : SendspinSession) : SendspinSession :=
  emit (WsClose code reason) s.

Definition ws_send_binary (buf : list byte) (s : SendspinSession) : SendspinSession :=
  emit (WsSendBinary buf (bufferedAmount (ws s))) s.

Definition throw (e : error) (s : SendspinSession) : SendspinSession :=
  emit (Thrown e) s.

Definition is_initial_timeout (t : timer) : bool :=
  match t with
  | InitialStateTimeout => true
  | PcmRetry _ => false
  end.

(** [clearTimeout(this.initialStateTimer); this.initialStateTimer = null] *)
Definition clearInitialStateTimer (s : SendspinSession) : SendspinSession :=
  set_initialStateTimer false
    (set_timers (List.filter (fun t => negb (is_initial_timeout t)) (timers s)) s).

(** *** Private methods *)

Definition sendJson (m : message) (s : SendspinSession) : SendspinSession :=
  if negb (is_open s) then s else emit (WsSendText m) s.

Definition sendBinary (buf : list byte) (allowDrop : bool) (clk : Clock)
    (s : SendspinSession) : SendspinSession :=
  if negb (is_open s) then s
  else
    let buffered := bufferedAmount (ws s) in
    if allowDrop && (buffered >? maxBufferedSend) then
      let s := set_backpressureDrops (backpressureDrops s + 1) s in
      let s := set_lastBackpressureBytes buffered s in
      let s := set_lastBackpressureTs (DateNow clk) s in
      set_backpressureEvents (backpressureEvents s ++ [DateNow clk]) s
    else ws_send_binary buf s.

Definition maybeNotifyIdentified (s : SendspinSession) : SendspinSession :=
  if identified s then s
  else if negb (ready s) || negb (onIdentified (hooks s)) then s
  else if initialStateRequired s && negb (initialStateReceived s) then s
  else set_identified true (emit CallOnIdentified s).

Definition serverSupported : gset string :=
  {[ Roles.PLAYER; Roles.CONTROLLER; Roles.METADATA;
     Roles.ARTWORK; Roles.VISUALIZER; Roles.SOURCE ]}.

(** The loop variables of [resolveActiveRoles]. *)
Record resolution : Type := mkResolution {
  activeRoles : list string;
  unsupportedRoles : list string;
  seenFamilies : gset string
}.

(** One iteration of the loop of [resolveActiveRoles]. *)
Definition resolve_role (acc : resolution) (entry : value) : resolution :=
  match entry with
  | VStr role =>
      let family := split_head "@" role in
      if decide (role ∈ serverSupported) then
        if decide (family ∈ seenFamilies acc) then acc
        else {| activeRoles := activeRoles acc ++ [role];
                unsupportedRoles := unsupportedRoles acc;
                seenFamilies := seenFamilies acc ∪ {[ family ]} |}
      else if negb (startsWith role "_") then
        {| activeRoles := activeRoles acc;
           unsupportedRoles := unsupportedRoles acc ++ [role];
           seenFamilies := seenFamilies acc |}
      else acc
  | _ => acc
  end.

Definition resolveActiveRoles (supportedRoles : list value) : resolution :=
  fold_left resolve_role supportedRoles
    {| activeRoles := []; unsupportedRoles := []; seenFamilies := ∅ |}.

Definition sendStreamFormat (s : SendspinSession) : SendspinSession :=
  if negb (ready s) then s
  else
    let s := set_activeStream true s in
    sendJson (StreamStartPlayer (streamFormat s)) s.

Definition ensureStreamStarted (s : SendspinSession) : SendspinSession :=
  if activeStream s then s
  else if negb (is_open s) then s
  else sendStreamFormat s.

Definition sendServerHello (s : SendspinSession) : SendspinSession :=
  match roles s with
  | [] => s
  | _ => sendJson (ServerHello (roles s) (connectionReason s)) s
  end.

Definition startInitialStateTimeout (s : SendspinSession) : SendspinSession :=
  if negb (has_role Roles.PLAYER s) then s
  else if initialStateReceived s || initialStateTimer s then s
  else set_initialStateTimer true (set_timers (timers s ++ [InitialStateTimeout]) s).

(** [`zone-${zoneId}`] *)
Definition zone_label (z : Z) : string :=
  ("zone-" ++ NilZero.string_of_int (Z.to_int z))%string.

Definition getDefaultGroupInfo (s : SendspinSession) : string :=
  match playerId (connectionMeta s) with
  | Some p => if negb (String.eqb p "") then p
              else match zoneId (connectionMeta s) with
                   | Some z => zone_label z
                   | None => match clientId s with Some c => c | None => "sendspin" end
                   end
  | None => match zoneId (connectionMeta s) with
            | Some z => zone_label z
            | None => match clientId s with Some c => c | None => "sendspin" end
            end
  end.

Definition sendGroupUpdate (st : PlaybackStateType) (groupId groupName : option string)
    (s : SendspinSession) : SendspinSession :=
  if negb (ready s) then s
  else
    let s := set_playbackState st s in
    sendJson (GroupUpdate st groupId groupName) s.

(** [typeof v === 'number' ? v : d] *)
Definition num_or (v : value) (d : num) : num :=
  match v with
  | VNum n => n
  | _ => d
  end.

(** The channel built by the [map] in [handleHello]. *)
Definition hello_channel (c : value) : ArtworkChannel :=
  {| source := if is_str (get c "source") "artist" then VStr "artist"
               else if is_str (get c "source") "none" then VStr "none"
               else VStr "album";
     format := if is_str (get c "format") "png" then VStr "png"
               else if is_str (get c "format") "bmp" then VStr "bmp"
               else VStr "jpeg";
     width := num_or (get c "media_width") (Num.of_Z 800);
     height := num_or (get c "media_height") (Num.of_Z 800) |}.

Definition isSupported (fmt : value) : bool :=
  is_str (get fmt "codec") "opus" || is_str (get fmt "codec") "flac"
  || is_str (get fmt "codec") "pcm".

(** [typeof v === 'number' && v > 0] *)
Definition positive_number (v : value) : bool :=
  match v with
  | VNum n => Num.gtb n (Num.of_Z 0)
  | _ => false
  end.

Definition hasValidNumbers (fmt : value) : bool :=
  positive_number (get fmt "sample_rate") && positive_number (get fmt "channels")
  && positive_number (get fmt "bit_depth").

Definition applyPreferredStreamFormat (s : SendspinSession) : SendspinSession :=
  let supportedFormats :=
    match get (playerSupport s) "supported_formats" with
    | VArr l => l
    | _ => []
    end in
  match List.find (fun fmt => isSupported fmt && hasValidNumbers fmt) supportedFormats with
  | None => s
  | Some preferred =>
      let codec :=
        if is_str (get preferred "codec") "opus" then OPUS
        else if is_str (get preferred "codec") "flac" then FLAC
        else PCM in
      set_streamFormat
        {| codec := codec;
           (* the three fields are numbers: [hasValidNumbers preferred] *)
           sampleRate := num_or (get preferred "sample_rate") Num.NaN;
           channels := num_or (get preferred "channels") Num.NaN;
           bitDepth := num_or (get preferred "bit_depth") Num.NaN;
           codecHeader := None |} s
  end.

Definition close1008 (reason : string) (s : SendspinSession) : SendspinSession :=
  ws_close (Some 1008) (Some reason) s.

(** [a ?? b ?? null] *)
Definition support_block (payload : value) (key legacy : string) : value :=
  coalesce (coalesce (get payload key) (get payload legacy)) VNull.

(** The part of [handleHello] after the four capability checks. *)
Definition completeHello (playerSupport sourceSupport artworkSupport : value)
    (unsupported : list string) (s : SendspinSession) : SendspinSession :=
  let s := set_playerSupport (if truthy playerSupport then playerSupport else VObj []) s in
  let s := set_sourceSupport (coalesce sourceSupport VNull) s in
  let commands := coalesce (get (Session.playerSupport s) "supported_commands") (VArr []) in
  match includes commands "volume" with
  | Err e => throw e s
  | Ok v =>
      let s := set_expectVolume v s in
      match includes commands "mute" with
      | Err e => throw e s
      | Ok m =>
          let s := set_expectMute m s in
          let artworkChannels :=
            match get artworkSupport "channels" with
            | VArr l => l
            | _ => []
            end in
          let s := match artworkChannels with
                   | [] => s
                   | _ => set_artworkChannels (List.map hello_channel artworkChannels) s
                   end in
          let s := set_initialStateRequired (has_role Roles.PLAYER s) s in
          let s := applyPreferredStreamFormat s in
          let s := set_ready true s in
          let s := sendServerHello s in
          let s := startInitialStateTimeout s in
          let defaultGroup := getDefaultGroupInfo s in
          let s := sendGroupUpdate STOPPED (Some defaultGroup) (Some defaultGroup) s in
          let s := match unsupported with
                   | [] => s
                   | _ => if onUnsupportedRoles (hooks s)
                          then emit (CallOnUnsupportedRoles unsupported) s else s
                   end in
          maybeNotifyIdentified s
      end
  end.

Definition handleHello (payload : value) (s : SendspinSession) : SendspinSession :=
  let version :=
    match get payload "version" with
    | VNum n => Num.eqb n (Num.of_Z 1)
    | _ => false
    end in
  if negb version then close1008 "invalid protocol version" s
  else
    let rawClientId :=
      match get payload "client_id" with
      | VStr c => trim c
      | _ => EmptyString
      end in
    if String.eqb rawClientId "" then close1008 "missing client_id" s
    else
      let s := set_clientId (Some rawClientId) s in
      let s := set_clientName
                 (match get payload "name" with
                  | VStr n => Some (trim n)
                  | _ => None
                  end) s in
      let supportedRoles :=
        match get payload "supported_roles" with
        | VArr l => l
        | _ => []
        end in
      match supportedRoles with
      | [] => close1008 "missing supported_roles" s
      | _ =>
          let r := resolveActiveRoles supportedRoles in
          let s := set_roles (activeRoles r) s in
          let playerSupport := support_block payload "player@v1_support" "player_support" in
          let artworkSupport := support_block payload "artwork@v1_support" "artwork_support" in
          let visualizerSupport :=
            support_block payload "visualizer@v1_support" "visualizer_support" in
          let sourceSupport := support_block payload "source@v1_support" "source_support" in
          if has_role Roles.PLAYER s && negb (truthy playerSupport)
          then close1008 "missing player support" s
          else if has_role Roles.ARTWORK s && negb (truthy artworkSupport)
          then close1008 "missing artwork support" s
          else if has_role Roles.VISUALIZER s && negb (truthy visualizerSupport)
          then close1008 "missing visualizer support" s
          else if has_role Roles.SOURCE s && negb (truthy sourceSupport)
          then close1008 "missing source support" s
          else completeHello playerSupport sourceSupport artworkSupport
                 (unsupportedRoles r) s
      end.

(** *** Runtime message handlers *)

Definition handleClientTime (payload : value) (clk : Clock)
    (s : SendspinSession) : SendspinSession :=
  match get_strict payload "client_transmitted" with
  | Err e => throw e s
  | Ok ct => sendJson (ServerTime ct (serverNowUs clk) (serverNowUs2 clk)) s
  end.

(** [typeof v === 'string'] *)
Definition is_string (v : value) : bool :=
  match v with
  | VStr _ => true
  | _ => false
  end.

(** [v === undefined] *)
Definition is_undefined (v : value) : bool :=
  match v with
  | VUndefined => true
  | _ => false
  end.

(** The block [if (!this.initialStateReceived) { ... }] that opens
    [handleClientState]. *)
Definition recordInitialState (s : SendspinSession) : SendspinSession :=
  if negb (initialStateReceived s) then
    let s := set_initialStateReceived true s in
    let s := if initialStateTimer s then clearInitialStateTimer s else s in
    maybeNotifyIdentified s
  else s.

Definition handleClientState (payload : value) (s : SendspinSession) : SendspinSession :=
  let s := recordInitialState s in
  match get_strict payload "state" with
  | Err e => throw e s
  | Ok top =>
      let player := get payload "player" in
      let state :=
        if is_string top then top
        else if is_string (get player "state") then get player "state"
        else VUndefined in
      let volume := get player "volume" in
      let muted := get player "muted" in
      let s := if expectVolume s && is_undefined volume && negb (warnedMissingVolume s)
               then set_warnedMissingVolume true s else s in
      let s := if expectMute s && is_undefined muted && negb (warnedMissingMute s)
               then set_warnedMissingMute true s else s in
      let s := if onPlayerState (hooks s)
               then emit (CallOnPlayerState state volume muted) s else s in
      let src := get payload "source" in
      if truthy src then
        let s := set_sourceState (coalesce (get src "state") VNull) s in
        let s := set_sourceSignal (coalesce (get src "signal") VNull) s in
        if onSourceState (hooks s)
        then emit (CallOnSourceState (get src "state") (get src "level") (get src "signal")) s
        else s
      else s
  end.

Definition handleClientCommand (payload : value) (s : SendspinSession) : SendspinSession :=
  match get_strict payload "controller" with
  | Err e => throw e s
  | Ok controller =>
      let s := if truthy controller && onGroupCommand (hooks s)
               then emit (CallOnGroupCommand (get controller "command")
                            (get controller "volume") (get controller "mute")) s
               else s in
      let src := get payload "source" in
      if truthy src && onSourceCommand (hooks s)
      then emit (CallOnSourceCommand (get src "command")) s
      else s
  end.

Definition handleClientGoodbye (payload : value) (s : SendspinSession) : SendspinSession :=
  let reason := get payload "reason" in
  let s := if truthy reason then
             let s := set_lastGoodbyeReason reason s in
             if onGoodbye (hooks s) then emit (CallOnGoodbye reason) s else s
           else s in
  ws_close None None s.

Definition normalizeCodec (c : value) : option AudioCodec :=
  if negb (truthy c) then None
  else if is_str c "opus" then Some OPUS
  else if is_str c "flac" then Some FLAC
  else if is_str c "pcm" then Some PCM
  else None.

Definition applyPlayerFormatRequest (request : value) (s : SendspinSession)
  : SendspinSession :=
  if negb (truthy request) then s
  else
    let cur := streamFormat s in
    set_streamFormat
      {| codec := match normalizeCodec (get request "codec") with
                  | Some c => c
                  | None => codec cur
                  end;
         sampleRate := num_or (get request "sample_rate") (sampleRate cur);
         channels := num_or (get request "channels") (channels cur);
         bitDepth := num_or (get request "bit_depth") (bitDepth cur);
         codecHeader := codecHeader cur |} s.

Definition sendArtworkStreamStart (chans : list ArtworkChannel) (s : SendspinSession)
  : SendspinSession :=
  if negb (ready s) then s
  else if negb (has_role Roles.ARTWORK s) then s
  else
    let s := set_artworkChannels chans s in
    sendJson (StreamStartArtwork chans) s.

(** [Math.max(0, Math.min(3, Math.floor(channel)))]: an index among 0..3,
    or [None] for NaN. *)
Definition clamp_channel (channel : num) : option nat :=
  match Num.floor channel with
  | Num.Fin q => Some (Z.to_nat (Z.max 0 (Z.min 3 (Qfloor q))))
  | Num.PInf => Some 3%nat
  | Num.NInf => Some 0%nat
  | Num.NaN => None
  end.

Definition applyArtworkFormatRequest (request : value) (s : SendspinSession)
  : SendspinSession :=
  if negb (truthy request) then s
  else
    match get request "channel" with
    | VNum channel =>
        (* the default of [this.artworkChannels[idx] ?? {...}] is used only
           where the element is missing: never for an index in range, and
           for NaN only to build the value of a property that is no element *)
        let next (current : ArtworkChannel) :=
          {| source := coalesce (get request "source") (source current);
             format := coalesce (get request "format") (format current);
             width := num_or (get request "media_width") (width current);
             height := num_or (get request "media_height") (height current) |} in
        match clamp_channel channel with
        | Some idx =>
            match artworkChannels s !! idx with
            | None => s                (* idx >= this.artworkChannels.length *)
            | Some current =>
                let s := set_artworkChannels (<[ idx := next current ]> (artworkChannels s)) s in
                sendArtworkStreamStart (artworkChannels s) s
            end
        | None =>
            (* idx is NaN: both comparisons are false, and the assignment
               to [this.artworkChannels[NaN]] adds no element *)
            sendArtworkStreamStart (artworkChannels s) s
        end
    | _ => s
    end.

Definition handleStreamRequestFormat (payload : value) (s : SendspinSession)
  : SendspinSession :=
  match get_strict payload "player" with
  | Err e => throw e s
  | Ok player =>
      if truthy player && negb (has_role Roles.PLAYER s) then s
      else
        let s := if truthy player then applyPlayerFormatRequest player s else s in
        let artwork := get payload "artwork" in
        if truthy artwork && negb (has_role Roles.ARTWORK s) then s
        else
          let s := if truthy artwork then applyArtworkFormatRequest artwork s else s in
          let s := if onFormatChanged (hooks s)
                   then emit (CallOnFormatChanged (streamFormat s)) s else s in
          sendStreamFormat s
  end.

(** *** Public methods.  [handleText] takes the outcome of
    [JSON.parse(text)]: [None] when it throws. *)

Definition setHooks (h : SendspinSessionHooks) (context : option SendspinConnectionMeta)
    (s : SendspinSession) : SendspinSession :=
  let s := set_hooks h s in
  let s := set_hooksAttached true s in
  let s :=
    match context with
    | Some c =>
        let m := connectionMeta s in
        set_connectionMeta
          {| zoneId := match zoneId c with Some z => Some z | None => zoneId m end;
             playerId := match playerId c with Some p => Some p | None => playerId m end;
             remote := match remote c with Some r => Some r | None => remote m end |} s
    | None => s
    end in
  maybeNotifyIdentified s.

Definition destroy (s : SendspinSession) : SendspinSession :=
  let s := if initialStateTimer s then clearInitialStateTimer s else s in
  if onDisconnected (hooks s) then emit CallOnDisconnected s else s.

Definition handleText (parsed : option value) (clk : Clock) (s : SendspinSession)
  : SendspinSession :=
  match parsed with
  | None => s
  | Some msg =>
      match get_strict msg "type" with
      | Err e => throw e s
      | Ok type =>
          let payload := get msg "payload" in
          if negb (ready s) then
            if negb (is_str type "client/hello")
            then close1008 "expected client/hello first" s
            else handleHello payload s
          else if is_str type "client/hello" then s
          else if is_str type "client/time" then handleClientTime payload clk s
          else if is_str type "client/state" then handleClientState payload s
          else if is_str type "client/command" then handleClientCommand payload s
          else if is_str type "client/goodbye" then handleClientGoodbye payload s
          else if is_str type "stream/request-format" then handleStreamRequestFormat payload s
          else s
      end
  end.

Definition handleBinary (buf : list byte) (s : SendspinSession) : SendspinSession :=
  match Binary.unpackBinaryHeader buf with
  | Err _ => s
  | Ok header =>
      if Num.eqb (Binary.messageType header) (Num.of_Z Binary.SOURCE_AUDIO_CHUNK) then
        if negb (has_role Roles.SOURCE s) then s
        else
          let chunk := skipn Binary.BINARY_HEADER_SIZE buf in
          if onSourceAudio (hooks s)
          then emit (CallOnSourceAudio (Binary.timestampUs header) chunk) s
          else s
      else s
  end.

Definition sendStreamStart (fmt : option PartialPlayerFormat) (s : SendspinSession)
  : SendspinSession :=
  if negb (ready s) then s
  else
    let cur := streamFormat s in
    let merged :=
      match fmt with
      | None => cur
      | Some f =>
          {| codec := match p_codec f with Some c => c | None => codec cur end;
             sampleRate := match p_sampleRate f with Some x => x | None => sampleRate cur end;
             channels := match p_channels f with Some x => x | None => channels cur end;
             bitDepth := match p_bitDepth f with Some x => x | None => bitDepth cur end;
             codecHeader := match p_codecHeader f with
                            | Some x => Some x
                            | None => codecHeader cur
                            end |}
      end in
    let s := set_streamFormat merged s in
    let s := set_activeStream true s in
    sendJson (StreamStartPlayer merged) s.

Definition sendStreamClear (rs : option (list string)) (s : SendspinSession)
  : SendspinSession :=
  if negb (ready s) then s else sendJson (StreamClear rs) s.

Definition sendStreamEnd (rs : option (list string)) (s : SendspinSession)
  : SendspinSession :=
  if negb (ready s) then s
  else
    let s := set_activeStream false s in
    sendJson (StreamEnd rs) s.

(** [this.sendBinary(Buffer.concat([packBinaryHeaderRaw(AUDIO_CHUNK, ts), frame.data]))]
    with [ts = frame.timestampUs ?? serverNowUs()] *)
Definition writePcm (frame : SendspinPcmFrame) (clk : Clock) (s : SendspinSession)
  : SendspinSession :=
  let ts := match timestampUs frame with
            | Some t => t
            | None => serverNowUs clk
            end in
  match Binary.packBinaryHeaderRaw (Num.of_Z Binary.AUDIO_CHUNK) ts with
  | Err e => throw e s
  | Ok header => sendBinary (header ++ data frame) false clk s
  end.

Definition sendPcmAudioFrame (frame : SendspinPcmFrame) (clk : Clock)
    (s : SendspinSession) : SendspinSession :=
  if negb (is_open s) then s
  else
    let s := ensureStreamStarted s in
    let buffered := bufferedAmount (ws s) in
    if buffered >? maxBufferedSend
    then set_timers (timers s ++ [PcmRetry frame]) s
    else writePcm frame clk s.

(** The callback that [sendPcmAudioFrame] hands to [setTimeout]. *)
Definition pcmRetry (frame : SendspinPcmFrame) (clk : Clock) (s : SendspinSession)
  : SendspinSession :=
  if is_open s then writePcm frame clk s else s.

(** The callback that [startInitialStateTimeout] hands to [setTimeout]. *)
Definition initialStateTimeout (s : SendspinSession) : SendspinSession :=
  if initialStateReceived s then s else close1008 "initial state timeout" s.

Definition sendServerCommand (payloadOrCommand volume mute : value)
    (s : SendspinSession) : SendspinSession :=
  if negb (ready s) then s
  else
    let commandPayload :=
      if is_string payloadOrCommand
      then VObj [("player", VObj [("command", payloadOrCommand);
                                  ("volume", volume); ("mute", mute)])]
      else payloadOrCommand in
    match get_strict commandPayload "player" with
    | Err e => throw e s
    | Ok player =>
        let wantsPlayer := truthy player in
        let wantsSource := truthy (get commandPayload "source") in
        let canSendPlayer := wantsPlayer && has_role Roles.PLAYER s in
        let canSendSource := wantsSource && has_role Roles.SOURCE s in
        if negb canSendPlayer && negb canSendSource then s
        else sendJson (ServerCommand commandPayload) s
    end.

Definition sendMetadata (metadata : value) (clk : Clock) (s : SendspinSession)
  : SendspinSession :=
  if negb (ready s) then s
  else if negb (has_role Roles.METADATA s) then s
  else sendJson (ServerStateMetadata (serverNowUs clk) metadata) s.

Definition sendControllerState (controller : value) (s : SendspinSession)
  : SendspinSession :=
  if negb (ready s) then s
  else if negb (has_role Roles.CONTROLLER s) then s
  else sendJson (ServerStateController controller) s.

Definition sendArtwork (channel : Z) (imageData : option (list byte)) (clk : Clock)
    (s : SendspinSession) : SendspinSession :=
  if negb (ready s) then s
  else
    match Binary.packBinaryHeaderRaw (Num.of_Z (Binary.ARTWORK_CHANNEL_0 + channel))
            (serverNowUs clk) with
    | Err e => throw e s
    | Ok header =>
        let payload := match imageData with
                       | Some img => header ++ img
                       | None => header
                       end in
        sendBinary payload false clk s
    end.

Definition sendVisualizerStreamStart (config : value) (s : SendspinSession)
  : SendspinSession :=
  if negb (ready s) then s
  else if negb (has_role Roles.VISUALIZER s) then s
  else sendJson (StreamStartVisualizer config) s.

Definition sendVisualizerFrame (buf : list byte) (ts : option num) (clk : Clock)
    (s : SendspinSession) : SendspinSession :=
  if negb (ready s) then s
  else if negb (has_role Roles.VISUALIZER s) then s
  else
    let t := match ts with
             | Some t => t
             | None => serverNowUs clk
             end in
    match Binary.packBinaryHeaderRaw (Num.of_Z Binary.VISUALIZATION_DATA) t with
    | Err e => throw e s
    | Ok header => sendBinary (header ++ buf) false clk s
    end.

(** [getBackpressureStats()] prunes the events older than five minutes. *)
Definition getBackpressureStats (clk : Clock) (s : SendspinSession) : SendspinSession :=
  let cutoff := DateNow clk - 5 * 60 * 1000 in
  set_backpressureEvents (List.filter (fun ts => ts >=? cutoff) (backpressureEvents s)) s.

Definition getClientId (s : SendspinSession) : option string := clientId s.
Definition getRoles (s : SendspinSession) : list string := roles s.
Definition getConnectionReason (s : SendspinSession) : ConnectionReason :=
  connectionReason s.

(** *** Sequences of operations *)

Inductive op : Type :=
  | HandleText (parsed : option value)
  | HandleBinary (buf : list byte)
  | SetHooks (h : SendspinSessionHooks) (context : option SendspinConnectionMeta)
  | Destroy
  | SendStreamStart (fmt : option PartialPlayerFormat)
  | SendStreamClear (rs : option (list string))
  | SendStreamEnd (rs : option (list string))
  | SendPcmAudioFrame (frame : SendspinPcmFrame)
  | SendServerCommand (payloadOrCommand volume mute : value)
  | SendGroupUpdate (st : PlaybackStateType) (groupId groupName : option string)
  | SendMetadata (metadata : value)
  | SendControllerState (controller : value)
  | SendArtworkStreamStart (chans : list ArtworkChannel)
  | SendArtwork (channel : Z) (imageData : option (list byte))
  | SendVisualizerStreamStart (config : value)
  | SendVisualizerFrame (buf : list byte) (ts : option num)
  | GetBackpressureStats
  | TimerFires (i : nat)          (* the i-th waiting callback runs *)
  | Transport (w : WebSocket).    (* the socket changes state or drains *)

(** The [i]-th waiting callback is taken off the queue and run. *)
Definition timerFires (i : nat) (clk : Clock) (s : SendspinSession) : SendspinSession :=
  match timers s !! i with
  | None => s
  | Some t =>
      let s := set_timers (delete i (timers s)) s in
      match t with
      | InitialStateTimeout => initialStateTimeout s
      | PcmRetry frame => pcmRetry frame clk s
      end
  end.

Definition step (s : SendspinSession) (o : Clock * op) : SendspinSession :=
  let clk := fst o in
  match snd o with
  | HandleText parsed => handleText parsed clk s
  | HandleBinary buf => handleBinary buf s
  | SetHooks h context => setHooks h context s
  | Destroy => destroy s
  | SendStreamStart fmt => sendStreamStart fmt s
  | SendStreamClear rs => sendStreamClear rs s
  | SendStreamEnd rs => sendStreamEnd rs s
  | SendPcmAudioFrame frame => sendPcmAudioFrame frame clk s
  | SendServerCommand p v m => sendServerCommand p v m s
  | SendGroupUpdate st gid gname => sendGroupUpdate st gid gname s
  | SendMetadata metadata => sendMetadata metadata clk s
  | SendControllerState controller => sendControllerState controller s
  | SendArtworkStreamStart chans => sendArtworkStreamStart chans s
  | SendArtwork channel imageData => sendArtwork channel imageData clk s
  | SendVisualizerStreamStart config => sendVisualizerStreamStart config s
  | SendVisualizerFrame buf ts => sendVisualizerFrame buf ts clk s
  | GetBackpressureStats => getBackpressureStats clk s
  | TimerFires i => timerFires i clk s
  | Transport w => set_ws w s
  end.

Definition run (ops : list (Clock * op)) (s : SendspinSession) : SendspinSession :=
  fold_left step ops s.

End Session.

(** ** server/core.ts *)

Module Core.

Import Session.

(** [sessionsBySocket]: a [Map] iterates in insertion order; sockets are
    told apart by a number. *)
Record SendspinCore : Type := mkCore {
  sessionsBySocket : list (nat * SendspinSession)
}.

(** The loop variables of [getSession]. *)
Record candidates : Type := mkCandidates {
  preferred : option SendspinSession;
  fallback : option SendspinSession
}.

(** [session.getClientId() === clientId] *)
Definition id_matches (clientId : string) (session : SendspinSession) : bool :=
  match getClientId session with
  | Some c => String.eqb c clientId
  | None => false
  end.

Definition is_playback (session : SendspinSession) : bool :=
  match getConnectionReason session with
  | PLAYBACK => true
  | DISCOVERY => false
  end.

Definition is_none {A : Type} (o : option A) : bool :=
  match o with
  | None => true
  | Some _ => false
  end.

Definition getSession_step (clientId : string) (acc : candidates)
    (entry : nat * SendspinSession) : candidates :=
  let session := snd entry in
  if id_matches clientId session then
    if is_playback session && is_none (preferred acc)
    then {| preferred := Some session; fallback := fallback acc |}
    else if is_none (fallback acc)
    then {| preferred := preferred acc; fallback := Some session |}
    else acc
  else acc.

Definition getSession (clientId : string) (core : SendspinCore)
  : option SendspinSession :=
  let r := fold_left (getSession_step clientId) (sessionsBySocket core)
             {| preferred := None; fallback := None |} in
  match preferred r with
  | Some session => Some session
  | None => fallback r
  end.

End Core.

(** ** client.ts *)

Module Client.

Import Js.

Record PCMFormat : Set := mkPCM {
  sampleRate : num;
  channels : num;
  bitDepth : num
}.

(** [new PCMFormat(sampleRate, channels, bitDepth)] *)
Definition new_PCMFormat (sampleRate channels bitDepth : num) : result PCMFormat :=
  if Num.leb sampleRate (Num.of_Z 0) then Err InvalidSampleRate
  else if Num.ltb channels (Num.of_Z 1) || Num.gtb channels (Num.of_Z 2)
  then Err InvalidChannels
  else if negb (existsb (Num.eqb bitDepth) [Num.of_Z 16; Num.of_Z 24; Num.of_Z 32])
  then Err InvalidBitDepth
  else Ok {| sampleRate := sampleRate; channels := channels; bitDepth := bitDepth |}.

Record AudioFormat : Set := mkAudioFormat {
  codec : string;
  pcm : PCMFormat;
  codecHeader : option string   (* the header, before base64 decoding *)
}.

(** [StreamStartPlayer] (types.ts) *)
Record StreamStartPlayer : Set := mkPlayer {
  p_codec : string;
  sample_rate : num;
  channels_ : num;
  bit_depth : num;
  codec_header : option string
}.

(** A [stream/start] message: its player part, and the rest of it. *)
Record StreamStartMessage : Type := mkStreamStart {
  player : option StreamStartPlayer;
  others : value
}.

Inductive ReadyState : Set := CONNECTING | OPEN | CLOSING | CLOSED.

Definition is_OPEN (r : ReadyState) : bool :=
  match r with
  | OPEN => true
  | _ => false
  end.

(** What the client does to the outside, in order. *)
Inductive event : Type :=
  | WsSendBinary (buf : list byte)
  | WsSendClientTime (client_transmitted : num)
  | CallStreamStart (listener : nat) (m : StreamStartMessage)
  | CallAudioChunk (listener : nat) (ts : num) (chunk : list byte) (f : AudioFormat).

Record SendspinClient : Type := mkClient {
  ws : option ReadyState;            (* [this.ws], and its readyState *)
  connected : bool;
  timeFilter : TimeFilter.SendspinTimeFilter;
  streamActive : bool;
  currentAudioFormat : option AudioFormat;
  currentPlayer : option StreamStartPlayer;
  staticDelayUs : num;
  streamStartCallbacks : list nat;
  audioChunkCallbacks : list nat;
  log : list event
}.

Definition set_streamActive (x : bool) (c : SendspinClient) : SendspinClient :=
  mkClient (ws c) (connected c) (timeFilter c) x (currentAudioFormat c)
    (currentPlayer c) (staticDelayUs c) (streamStartCallbacks c)
    (audioChunkCallbacks c) (log c).

Definition set_currentAudioFormat (x : option AudioFormat) (c : SendspinClient)
  : SendspinClient :=
  mkClient (ws c) (connected c) (timeFilter c) (streamActive c) x
    (currentPlayer c) (staticDelayUs c) (streamStartCallbacks c)
    (audioChunkCallbacks c) (log c).

Definition set_currentPlayer (x : option StreamStartPlayer) (c : SendspinClient)
  : SendspinClient :=
  mkClient (ws c) (connected c) (timeFilter c) (streamActive c) (currentAudioFormat c)
    x (staticDelayUs c) (streamStartCallbacks c) (audioChunkCallbacks c) (log c).

Definition set_timeFilter (x : TimeFilter.SendspinTimeFilter) (c : SendspinClient)
  : SendspinClient :=
  mkClient (ws c) (connected c) x (streamActive c) (currentAudioFormat c)
    (currentPlayer c) (staticDelayUs c) (streamStartCallbacks c)
    (audioChunkCallbacks c) (log c).

Definition set_log (x : list event) (c : SendspinClient) : SendspinClient :=
  mkClient (ws c) (connected c) (timeFilter c) (streamActive c) (currentAudioFormat c)
    (currentPlayer c) (staticDelayUs c) (streamStartCallbacks c)
    (audioChunkCallbacks c) x.

Definition emit (es : list event) (c : SendspinClient) : SendspinClient :=
  set_log (log c ++ es) c.

(** [get isConnected] *)
Definition isConnected (c : SendspinClient) : bool :=
  connected c &&
  match ws c with
  | Some r => is_OPEN r
  | None => false
  end.

Definition isTimeSynchronized (c : SendspinClient) : bool :=
  TimeFilter.isSynchronized (timeFilter c).

Definition computePlayTime (serverTimestampUs nowUs : num) (c : SendspinClient) : num :=
  if TimeFilter.isSynchronized (timeFilter c) then
    Num.add (TimeFilter.computeClientTime (timeFilter c) serverTimestampUs)
            (staticDelayUs c)
  else Num.add (Num.add nowUs (Num.of_Z 500000)) (staticDelayUs c).

Definition computeServerTime (clientTimestampUs : num) (c : SendspinClient) : num :=
  let adjusted := Num.sub clientTimestampUs (staticDelayUs c) in
  TimeFilter.computeServerTime (timeFilter c) adjusted.

Definition computeSourceTimestamp (captureTimestampUs : num) (c : SendspinClient) : num :=
  TimeFilter.computeServerTime (timeFilter c) captureTimestampUs.

(** [private sendBinary(payload)] *)
Definition sendBinary (payload : list byte) (c : SendspinClient) : result SendspinClient :=
  match ws c with
  | Some OPEN => Ok (emit [WsSendBinary payload] c)
  | _ => Err SocketNotConnected
  end.

(** [sendSourceAudioChunk(audioData, { captureTimestampUs, serverTimestampUs })];
    an option that is absent, undefined or null is [None]. *)
Definition sendSourceAudioChunk (audioData : list byte)
    (captureTimestampUs serverTimestampUs : option num) (c : SendspinClient)
  : result SendspinClient :=
  if negb (isConnected c) then Err NotConnected
  else
    do timestampUs <-
      match serverTimestampUs with
      | Some t => Ok t
      | None =>
          match captureTimestampUs with
          | None => Err MissingTimestamp
          | Some capture =>
              if negb (TimeFilter.isSynchronized (timeFilter c)) then Err NotSynchronized
              else Ok (computeSourceTimestamp capture c)
          end
      end;
    do header <- Binary.packBinaryHeaderRaw (Num.of_Z Binary.SOURCE_AUDIO_CHUNK) timestampUs;
    sendBinary (header ++ audioData) c.

(** [sendTimeMessage()]; [nowUs] is what [this.nowUs()] returns. *)
Definition sendTimeMessage (nowUs : num) (c : SendspinClient) : SendspinClient :=
  if negb (isConnected c) then c else emit [WsSendClientTime nowUs] c.

Definition handleServerTime (client_transmitted server_received server_transmitted : num)
    (nowUs : num) (c : SendspinClient) : SendspinClient :=
  let offset :=
    Num.div (Num.add (Num.sub server_received client_transmitted)
                     (Num.sub server_transmitted nowUs)) (Num.of_Z 2) in
  let delay :=
    Num.div (Num.sub (Num.sub nowUs client_transmitted)
                     (Num.sub server_transmitted server_received)) (Num.of_Z 2) in
  set_timeFilter
    (TimeFilter.update (timeFilter c) (Num.round offset) (Num.round delay) nowUs) c.

Definition notifyStreamStart (m : StreamStartMessage) (c : SendspinClient)
  : SendspinClient :=
  emit (List.map (fun cb => CallStreamStart cb m) (streamStartCallbacks c)) c.

(** [handleStreamStart(message)]: the client afterwards, and the exception
    that ended the handler, if any. *)
Definition handleStreamStart (m : StreamStartMessage) (nowUs : num) (c : SendspinClient)
  : SendspinClient * option error :=
  match player m with
  | None => (c, None)
  | Some p =>
      let isFormatUpdate :=
        streamActive c && match currentPlayer c with Some _ => true | None => false end in
      let c := set_streamActive true c in
      match new_PCMFormat (sample_rate p) (channels_ p) (bit_depth p) with
      | Err e => (c, Some e)
      | Ok pcmFormat =>
          let codecHeader :=
            match codec_header p with
            | Some h => if String.eqb h "" then None else Some h
            | None => None
            end in
          let c := set_currentAudioFormat
                     (Some {| codec := p_codec p; pcm := pcmFormat;
                              codecHeader := codecHeader |}) c in
          let c := set_currentPlayer (Some p) c in
          if isFormatUpdate then (c, None)
          else (sendTimeMessage nowUs (notifyStreamStart m c), None)
      end
  end.

Definition handleAudioChunk (timestampUs : num) (payload : list byte)
    (c : SendspinClient) : SendspinClient :=
  match currentAudioFormat c with
  | None => c
  | Some f =>
      emit (List.map (fun cb => CallAudioChunk cb timestampUs payload f)
              (audioChunkCallbacks c)) c
  end.

Definition handleBinaryMessage (payload : list byte) (c : SendspinClient)
  : SendspinClient :=
  match Binary.unpackBinaryHeader payload with
  | Err _ => c
  | Ok header =>
      if negb (streamActive c) then c
      else if Num.eqb (Binary.messageType header) (Num.of_Z Binary.AUDIO_CHUNK)
      then handleAudioChunk (Binary.timestampUs header)
             (skipn Binary.BINARY_HEADER_SIZE payload) c
      else c
  end.

End Client.

(** * Statements of the specification, for comparison with the code *)

Module Spec.

(** A number is finite and within [tol] of [target]. *)
Definition approx (x : num) (target tol : Q) : Prop :=
  match x with
  | Num.Fin q => (Qabs (q - target) <= tol)%Q
  | _ => False
  end.

(** The Kalman bootstrap scenario: four updates of a new filter. *)
Definition feed (f : TimeFilter.SendspinTimeFilter) (measurement maxError t : Z)
  : TimeFilter.SendspinTimeFilter :=
  TimeFilter.update f (Num.of_Z measurement) (Num.of_Z maxError) (Num.of_Z t).

Definition after1 := feed TimeFilter.new 100 10 0.
Definition after2 := feed after1 120 10 1000000.
Definition after3 := feed after2 140 10 2000000.
Definition after4 := feed after3 160 10 3000000.

(** What the scenario is said to give: synchronized after the second
    call with drift about 20e-6 and offset about 120, and a finite error
    after the fourth. *)
Definition bootstrap_as_stated : Prop :=
  TimeFilter.isSynchronized after2 = true
  /\ approx (TimeFilter.drift after2) (20 # 1000000) (1 # 1000000)
  /\ approx (TimeFilter.offset after2) 120 1
  /\ Num.isFinite (TimeFilter.error after4) = true.

(** *** Role resolution *)

Import Js Session.

(** The family of a role: the part before the first [@]. *)
Definition family (role : string) : string := split_head "@" role.

(** Role resolution in the order the specification gives: an entry whose
    family was already admitted is skipped; otherwise it is admitted if
    its literal is server-supported; otherwise it is reported as
    unsupported unless it starts with an underscore.  Entries that are not
    strings produce nothing. *)
Definition resolve_role_as_stated (acc : resolution) (entry : value) : resolution :=
  match entry with
  | VStr role =>
      if decide (family role ∈ seenFamilies acc) then acc
      else if decide (role ∈ serverSupported) then
        {| activeRoles := activeRoles acc ++ [role];
           unsupportedRoles := unsupportedRoles acc;
           seenFamilies := seenFamilies acc ∪ {[ family role ]} |}
      else if negb (startsWith role "_") then
        {| activeRoles := activeRoles acc;
           unsupportedRoles := unsupportedRoles acc ++ [role];
           seenFamilies := seenFamilies acc |}
      else acc
  | _ => acc
  end.

(** What the loop of [resolveActiveRoles] keeps true. *)
Record resolution_ok (acc : resolution) : Prop := {
  ok_supported : forall role, In role (activeRoles acc) -> role ∈ serverSupported;
  ok_seen : forall f, f ∈ seenFamilies acc <-> In f (List.map family (activeRoles acc));
  ok_nodup : NoDup (List.map family (activeRoles acc))
}.

Definition resolve_as_stated (supportedRoles : list value) : resolution :=
  fold_left resolve_role_as_stated supportedRoles
    {| activeRoles := []; unsupportedRoles := []; seenFamilies := ∅ |}.

(** The string entries of a list of values, in order. *)
Fixpoint strings_of (l : list value) : list string :=
  match l with
  | VStr s :: rest => s :: strings_of rest
  | _ :: rest => strings_of rest
  | [] => []
  end.

Definition is_supported (role : string) : bool :=
  bool_decide (role ∈ serverSupported).

(** The entries the code reports as unsupported: every string entry that
    is not a server-supported literal and does not start with an
    underscore, in order and with repetitions. *)
Definition reported_unsupported (supportedRoles : list value) : list string :=
  List.filter (fun role => negb (is_supported role) && negb (startsWith role "_"))
    (strings_of supportedRoles).

(** *** Validation of the hello payload *)

Definition hello_version (payload : value) : option num :=
  match get payload "version" with
  | VNum n => Some n
  | _ => None
  end.

(** [version == 1] *)
Definition version_is_1 (payload : value) : bool :=
  match hello_version payload with
  | Some n => Num.eqb n (Num.of_Z 1)
  | None => false
  end.

(** The trimmed [client_id]; empty when it is absent or not a string. *)
Definition trimmed_client_id (payload : value) : string :=
  match get payload "client_id" with
  | VStr c => trim c
  | _ => EmptyString
  end.

(** [supported_roles]; empty when it is absent or not an array. *)
Definition supported_roles (payload : value) : list value :=
  match get payload "supported_roles" with
  | VArr l => l
  | _ => []
  end.

Definition active_roles (payload : value) : list string :=
  activeRoles (resolveActiveRoles (supported_roles payload)).

(** A role of the family [fam] is among the admitted roles. *)
Definition family_active (fam : string) (payload : value) : bool :=
  existsb (fun role => String.eqb (family role) fam) (active_roles payload).

(** The capability block of a family: under [<family>@v1_support], or else
    under the legacy [<family>_support]. *)
Definition capability_block (fam : string) (payload : value) : value :=
  coalesce (get payload (fam ++ "@v1_support")) (get payload (fam ++ "_support")).

Definition lacks_block (fam : string) (payload : value) : bool :=
  negb (truthy (capability_block fam payload)).

(** The first family, in the order given, that is admitted and lacks its
    capability block. *)
Definition first_unsupported_family (payload : value) : option string :=
  List.find (fun fam => family_active fam payload && lacks_block fam payload)
    ["player"; "artwork"; "visualizer"; "source"]%string.

(** The hello passes the version and client-id checks and fails at the
    [supported_roles] check. *)
Definition rejected_at_roles (payload : value) : Prop :=
  version_is_1 payload = true /\ trimmed_client_id payload <> ""%string
  /\ supported_roles payload = [].

(** The hello passes the first three checks and fails at a capability
    check. *)
Definition rejected_at_capability (payload : value) : Prop :=
  version_is_1 payload = true /\ trimmed_client_id payload <> ""%string
  /\ supported_roles payload <> []
  /\ first_unsupported_family payload <> None.

(** The session after the identity of a hello has been recorded. *)
Definition with_identity (payload : value) (s : SendspinSession) : SendspinSession :=
  set_clientName
    (match get payload "name" with
     | VStr n => Some (trim n)
     | _ => None
     end)
    (set_clientId (Some (trimmed_client_id payload)) s).

(** The reason with which a hello is rejected, if it is. *)
Definition hello_rejection (payload : value) : option string :=
  if negb (version_is_1 payload) then Some "invalid protocol version"%string
  else if String.eqb (trimmed_client_id payload) "" then Some "missing client_id"%string
  else match supported_roles payload with
       | [] => Some "missing supported_roles"%string
       | _ =>
           match first_unsupported_family payload with
           | Some fam => Some ("missing " ++ fam ++ " support")%string
           | None => None
           end
       end.

End Spec.

(** * What a run of the session shows *)

Module Trace.

Import Session.

Inductive kind : Set :=
  | KText         (* a JSON message written to the socket *)
  | KBinary       (* a binary frame written to the socket *)
  | KClose        (* ws.close *)
  | KIdentified   (* the onIdentified hook *)
  | KHook         (* any other hook *)
  | KThrown.      (* an exception leaving the handler *)

Definition kind_of (e : event) : kind :=
  match e with
  | WsSendText _ => KText
  | WsSendBinary _ _ => KBinary
  | WsClose _ _ => KClose
  | CallOnIdentified => KIdentified
  | Thrown _ => KThrown
  | _ => KHook
  end.

(** [s'] has the log of [s] followed by events whose kinds [A] allows. *)
Definition emits (A : kind -> bool) (s s' : SendspinSession) : Prop :=
  exists evs, log s' = log s ++ evs /\ forallb (fun e => A (kind_of e)) evs = true.

(** The flags of the identification gate. *)
Definition gate (s : SendspinSession) : bool * bool * bool * bool :=
  (ready s, identified s, initialStateRequired s, initialStateReceived s).

(** [s'] has the gate of [s], and its log grew by events that [A] allows. *)
Definition frames (A : kind -> bool) (s s' : SendspinSession) : Prop :=
  gate s' = gate s /\ emits A s s'.

Definition is_identified_call (e : event) : bool :=
  match e with
  | CallOnIdentified => true
  | _ => false
  end.

(** How many times the [onIdentified] hook has been invoked. *)
Definition identifications (s : SendspinSession) : nat :=
  length (List.filter is_identified_call (log s)).

(** Every kind but one. *)
Definition all_but (k : kind) (k' : kind) : bool :=
  match k, k' with
  | KText, KText | KBinary, KBinary | KClose, KClose
  | KIdentified, KIdentified | KHook, KHook | KThrown, KThrown => false
  | _, _ => true
  end.

(** The identification invariants of the specification. *)
Definition identification_invariant (s : SendspinSession) : Prop :=
  (identified s = true -> ready s = true)
  /\ (identified s = true ->
      initialStateRequired s = false \/ initialStateReceived s = true)
  /\ (identifications s <= 1)%nat.

(** The form of the invariant that each operation keeps. *)
Definition identified_once (s : SendspinSession) : Prop :=
  (identified s = true ->
   ready s = true /\ (initialStateRequired s = false \/ initialStateReceived s = true))
  /\ identifications s = (if identified s then 1 else 0)%nat.

(** [s'] is as identified as [s], and no [onIdentified] call lies between. *)
Definition quiet (s s' : SendspinSession) : Prop :=
  identified s' = identified s /\ emits (all_but KIdentified) s s'.

(** [r] is [t] or [maybeNotifyIdentified t] for a [t] that [s] reaches
    quietly. *)
Definition reaches (s r : SendspinSession) : Prop :=
  exists t, quiet s t /\ (r = maybeNotifyIdentified t \/ r = t).

(** The binary frames written so far, each with the buffered amount at
    the time it was written. *)
Definition binary_writes (s : SendspinSession) : list (list byte * Z) :=
  flat_map (fun e => match e with
                     | WsSendBinary buf buffered => [(buf, buffered)]
                     | _ => []
                     end) (log s).

(** The invariant as the specification states it: no binary frame was
    written while the buffered amount exceeded [maxBufferedSend]. *)
Definition never_written_over_threshold (s : SendspinSession) : Prop :=
  forall buf buffered,
    In (buf, buffered) (binary_writes s) -> buffered <= maxBufferedSend.

(** The operation hands a text message to the session. *)
Definition is_text (o : op) : bool :=
  match o with
  | HandleText _ => true
  | _ => false
  end.

(** The timestamp of a PCM frame: its own, or else the server clock. *)
Definition pcm_timestamp (frame : SendspinPcmFrame) (clk : Clock) : num :=
  match timestampUs frame with
  | Some t => t
  | None => serverNowUs clk
  end.

End Trace.

(** ** Integers and frames on the wire *)

Module Wire.

Import Binary.

(** The value of a number that is an integer. *)
Definition is_integer (x : num) (z : Z) : Prop :=
  exists q, x = Num.Fin q /\ (q == inject_Z z)%Q.

(** What [writeUInt8] stores for a value in range: the truncated value,
    and 0 for NaN. *)
Definition stored_type (ty : num) : Z :=
  match ty with
  | Num.Fin q => Qfloor q
  | _ => 0
  end.

(** A frame as it travels: the header of type [ty] and time [ts], then
    the body. *)
Definition framed (ty ts : Z) (body : list byte) : list byte :=
  (Binary.byte_of_Z ty :: Binary.be_bytes 8 (ts mod 2 ^ 64)) ++ body.

(** The binary frame of a PCM frame whose timestamp is the integer [ts]. *)
Definition pcm_bytes (ts : Z) (frame : Session.SendspinPcmFrame) : list byte :=
  framed AUDIO_CHUNK ts (Session.data frame).

End Wire.

(** ** Runs of the time filter *)

Module FilterRuns.

Import TimeFilter.

(** A sample handed to [update]: measurement, maximal error, time. *)
Definition sample : Set := (num * num * num)%type.

Definition updates (l : list sample) (f : SendspinTimeFilter) : SendspinTimeFilter :=
  fold_left (fun f x => update f (fst (fst x)) (snd (fst x)) (snd x)) l f.

End FilterRuns.

(** ** client.ts: the static delay and the time-sync interval *)

Module ClientTiming.
Import Js Client.

Definition set_staticDelayUs (x : num) (c : SendspinClient) : SendspinClient :=
  mkClient (ws c) (connected c) (timeFilter c) (streamActive c) (currentAudioFormat c)
    (currentPlayer c) x (streamStartCallbacks c) (audioChunkCallbacks c) (log c).

(** [get staticDelayMs] *)
Definition staticDelayMs (c : SendspinClient) : num :=
  Num.div (staticDelayUs c) (Num.of_Z 1000).

Definition setStaticDelayMs (delayMs : num) (c : SendspinClient) : SendspinClient :=
  let delayUs := Num.round (Num.mul delayMs (Num.of_Z 1000)) in
  set_staticDelayUs delayUs c.

(** [computeTimeSyncInterval()], in milliseconds *)
Definition computeTimeSyncInterval (c : SendspinClient) : Z :=
  if negb (TimeFilter.isSynchronized (timeFilter c)) then 200
  else
    let error := TimeFilter.error (timeFilter c) in
    if Num.ltb error (Num.of_Z 1000) then 3000
    else if Num.ltb error (Num.of_Z 2000) then 1000
    else if Num.ltb error (Num.of_Z 5000) then 500
    else 200.

End ClientTiming.

(** ** client.ts: the end of a stream, and what reaches a client *)

Module ClientStream.
Import Js Client.

Definition set_ws (x : option ReadyState) (c : SendspinClient) : SendspinClient :=
  mkClient x (connected c) (timeFilter c) (streamActive c) (currentAudioFormat c)
    (currentPlayer c) (staticDelayUs c) (streamStartCallbacks c) (audioChunkCallbacks c)
    (log c).

(** Calls of the listeners for the end of a stream, for its clearing and
    for the disconnection. *)
Inductive notification : Type :=
  | StreamEndCall (listener : nat) (roles : value)
  | StreamClearCall (listener : nat) (roles : value)
  | DisconnectCall (listener : nat).

(** [STREAM_CLEAR_ROLES.has(role)] *)
Definition is_clear_role (role : value) : bool :=
  is_str role "player@v1" || is_str role "visualizer@v1".

(** [handleStreamClear(message)]; [roles] is [message.payload.roles]. *)
Definition handleStreamClear (roles : value) (streamClearCallbacks : list nat)
  : result (list notification) :=
  if truthy roles then
    match roles with
    | VArr items =>
        let invalid := List.filter (fun role => negb (is_clear_role role)) items in
        match invalid with
        | [] => Ok (List.map (fun cb => StreamClearCall cb roles) streamClearCallbacks)
        | _ => Ok []
        end
    | _ => Err TypeError     (* roles.filter is not a function *)
    end
  else Ok (List.map (fun cb => StreamClearCall cb roles) streamClearCallbacks).

(** [handleStreamEnd(message)]; [roles] is [message.payload.roles]. *)
Definition handleStreamEnd (roles : value) (streamEndCallbacks : list nat)
    (c : SendspinClient) : result (SendspinClient * list notification) :=
  do stop <- (if negb (truthy roles) then Ok true else includes roles "player@v1");
  let c := if stop : bool
           then set_currentAudioFormat None (set_currentPlayer None (set_streamActive false c))
           else c in
  Ok (c, List.map (fun cb => StreamEndCall cb roles) streamEndCallbacks).

(** [cleanup()]; the time-sync timer and the server info are not part of
    the model. *)
Definition cleanup (disconnectCallbacks : list nat) (c : SendspinClient)
  : SendspinClient * list notification :=
  let c := set_ws None c in
  let c := set_timeFilter (TimeFilter.reset (timeFilter c)) c in
  let c := set_streamActive false c in
  let c := set_currentAudioFormat None c in
  let c := set_currentPlayer None c in
  (c, List.map DisconnectCall disconnectCallbacks).

(** What reaches a client. *)
Inductive op : Type :=
  | StreamStart (m : StreamStartMessage) (nowUs : num)
  | StreamEnd (roles : value)
  | StreamClear (roles : value)
  | BinaryMessage (payload : list byte)
  | ServerTime (client_transmitted server_received server_transmitted nowUs : num)
  | Cleanup.

(** The client after an operation; a handler that throws leaves what it
    had assigned. *)
Definition step (c : SendspinClient) (o : op) : SendspinClient :=
  match o with
  | StreamStart m nowUs => fst (handleStreamStart m nowUs c)
  | StreamEnd roles =>
      match handleStreamEnd roles [] c with
      | Ok r => fst r
      | Err _ => c
      end
  | StreamClear _ => c
  | BinaryMessage payload => handleBinaryMessage payload c
  | ServerTime ct sr st nowUs => handleServerTime ct sr st nowUs c
  | Cleanup => fst (cleanup [] c)
  end.

Definition run (ops : list op) (c : SendspinClient) : SendspinClient :=
  fold_left step ops c.

(** A format that [new PCMFormat] returns. *)
Definition accepted (f : PCMFormat) : Prop :=
  new_PCMFormat (sampleRate f) (channels f) (bitDepth f) = Ok f.

(** The stream is active with a player and an accepted format, or there
    is no format; and every audio chunk handed to a listener came with an
    accepted format. *)
Definition consistent (c : SendspinClient) : Prop :=
  (forall f, currentAudioFormat c = Some f ->
     accepted (pcm f) /\ streamActive c = true /\ currentPlayer c <> None)
  /\ (forall cb ts chunk f, In (CallAudioChunk cb ts chunk f) (log c) -> accepted (pcm f)).

End ClientStream.

(** ** What a session operation leaves alone *)

Module Effects.

Import Js Session.

(** What a hello establishes. *)
Definition identity (s : SendspinSession)
  : option string * option string * list string * ConnectionReason :=
  (clientId s, clientName s, roles s, connectionReason s).

(** The backpressure statistics. *)
Definition counters (s : SendspinSession) : Z * Z * Z * list Z :=
  (backpressureDrops s, lastBackpressureBytes s, lastBackpressureTs s,
   backpressureEvents s).

(** The role that a message is for is among [rs]. *)
Definition role_ok (rs : list string) (m : message) : bool :=
  match m with
  | ServerStateMetadata _ _ => existsb (String.eqb Roles.METADATA) rs
  | ServerStateController _ => existsb (String.eqb Roles.CONTROLLER) rs
  | StreamStartArtwork _ => existsb (String.eqb Roles.ARTWORK) rs
  | StreamStartVisualizer _ => existsb (String.eqb Roles.VISUALIZER) rs
  | ServerCommand payload =>
      truthy (get payload "player") && existsb (String.eqb Roles.PLAYER) rs
      || truthy (get payload "source") && existsb (String.eqb Roles.SOURCE) rs
  | _ => true
  end.

(** A text message is written only by a ready session ([rdy]) and only
    for a role among [rs]; other events are not constrained. *)
Definition event_ok (rdy : bool) (rs : list string) (e : event) : bool :=
  match e with
  | WsSendText m => rdy && role_ok rs m
  | _ => true
  end.

(** [s'] has the identity and the statistics of [s], and its log grew by
    events that [event_ok] allows. *)
Definition keeps (rdy : bool) (s s' : SendspinSession) : Prop :=
  identity s' = identity s /\ counters s' = counters s
  /\ exists evs, log s' = log s ++ evs /\ forallb (event_ok rdy (roles s)) evs = true.

(** The hooks of a session and whether any were attached. *)
Definition hooking (s : SendspinSession) : SendspinSessionHooks * bool :=
  (hooks s, hooksAttached s).

End Effects.

(** ** The texts written and the backpressure statistics *)

Module Discipline.
Import Js Session Effects.

(** The JSON messages written so far. *)
Definition texts (s : SendspinSession) : list message :=
  flat_map (fun e => match e with
                     | WsSendText m => [m]
                     | _ => []
                     end) (log s).

(** What [getBackpressureStats()] returns. *)
Record BackpressureStats : Set := mkStats {
  drops : Z;
  lastBytes : Z;
  lastDropTs : option Z;
  recentDrops : nat
}.

Definition backpressureStats (clk : Clock) (s : SendspinSession) : BackpressureStats :=
  let s := getBackpressureStats clk s in
  {| drops := backpressureDrops s;
     lastBytes := lastBackpressureBytes s;
     lastDropTs := if lastBackpressureTs s =? 0 then None else Some (lastBackpressureTs s);
     recentDrops := length (backpressureEvents s) |}.

(** No text was written before the session was ready, every text written
    is for a role that is active, and the backpressure statistics have not
    moved. *)
Definition disciplined (s : SendspinSession) : Prop :=
  counters s = (0, 0, 0, [])
  /\ (ready s = false -> texts s = [])
  /\ forallb (role_ok (roles s)) (texts s) = true.

End Discipline.

(** ** The timers of a session *)

Module Timers.
Import Js Session.

(** The callbacks waiting and the two fields of the initial-state timeout. *)
Definition clockwork (s : SendspinSession) : list timer * bool * bool :=
  (timers s, initialStateTimer s, initialStateReceived s).

(** [s'] has the clockwork of [s]. *)
Definition still (s s' : SendspinSession) : Prop := clockwork s' = clockwork s.

(** The number of initial-state timeouts waiting. *)
Definition pending_timeouts (s : SendspinSession) : nat :=
  length (List.filter is_initial_timeout (timers s)).

(** At most one initial-state timeout waits, and while one does the field
    holds its handle and the initial state has not arrived. *)
Definition timeout_armed (s : SendspinSession) : Prop :=
  (pending_timeouts s <= 1)%nat
  /\ ((0 < pending_timeouts s)%nat ->
      initialStateTimer s = true /\ initialStateReceived s = false).

(** An operation keeps [timeout_armed]. *)
Definition ticks (s s' : SendspinSession) : Prop := timeout_armed s -> timeout_armed s'.

End Timers.

(** ** server/core.ts: the registry and its routing *)

Module Registry.

Import Js Session Core.

(** [Map.prototype.set]: the value of an existing key is replaced where
    it stands; a new key goes to the end. *)
Fixpoint map_set {A : Type} (k : nat) (v : A) (l : list (nat * A)) : list (nat * A) :=
  match l with
  | [] => [(k, v)]
  | (k', v') :: rest =>
      if Nat.eqb k k' then (k, v) :: rest else (k', v') :: map_set k v rest
  end.

(** [Map.prototype.get] *)
Fixpoint map_get {A : Type} (k : nat) (l : list (nat * A)) : option A :=
  match l with
  | [] => None
  | (k', v') :: rest => if Nat.eqb k k' then Some v' else map_get k rest
  end.

(** An entry of [hooksByClientId]. *)
Record HooksEntry : Set := mkEntry {
  entry_hooks : SendspinSessionHooks;
  entry_context : option SendspinConnectionMeta
}.

(** An entry of [leadStatsByClientId]. *)
Record LeadStats : Set := mkLead {
  leadUs : num;
  targetLeadUs : num;
  bufferedBytes : option num;
  updatedAt : Z
}.

(** The three maps of [SendspinCore]. *)
Record State : Type := mkState {
  sessions : SendspinCore;
  hooksByClientId : gmap string HooksEntry;
  leadStatsByClientId : gmap string LeadStats
}.

Definition new : State :=
  {| sessions := mkCore []; hooksByClientId := ∅; leadStatsByClientId := ∅ |}.

Definition set_sessions (l : list (nat * SendspinSession)) (st : State) : State :=
  {| sessions := mkCore l;
     hooksByClientId := hooksByClientId st;
     leadStatsByClientId := leadStatsByClientId st |}.

(** [getSessionBySocket(ws)] *)
Definition getSessionBySocket (ws : nat) (st : State) : option SendspinSession :=
  map_get ws (sessionsBySocket (sessions st)).

(** [getSessionByClientId(clientId)] *)
Definition getSessionByClientId (clientId : string) (st : State)
  : option SendspinSession :=
  getSession clientId (sessions st).

(** The loop of [getSession] once more, keeping the socket of each
    candidate: the session found is an object of the map, and a call on it
    changes the map's entry. *)
Definition getEntry_step (clientId : string)
    (acc : option (nat * SendspinSession) * option (nat * SendspinSession))
    (entry : nat * SendspinSession)
  : option (nat * SendspinSession) * option (nat * SendspinSession) :=
  if id_matches clientId (snd entry) then
    if is_playback (snd entry) && is_none (fst acc) then (Some entry, snd acc)
    else if is_none (snd acc) then (fst acc, Some entry)
    else acc
  else acc.

Definition getEntry (clientId : string) (st : State) : option (nat * SendspinSession) :=
  let r := fold_left (getEntry_step clientId) (sessionsBySocket (sessions st))
             (None, None) in
  match fst r with
  | Some entry => Some entry
  | None => snd r
  end.

(** [this.getSession(clientId)?.method(...)] *)
Definition with_session (clientId : string) (method : SendspinSession -> SendspinSession)
    (st : State) : State :=
  match getEntry clientId st with
  | Some (ws, session) =>
      set_sessions (map_set ws (method session) (sessionsBySocket (sessions st))) st
  | None => st
  end.

(** [handleConnection(ws, req, connectionReason)]; [meta] is what
    [extractConnectionMetadata(req)] and the remote address give. *)
Definition handleConnection (ws : nat) (w : WebSocket) (meta : SendspinConnectionMeta)
    (connectionReason : ConnectionReason) (st : State) : State :=
  let session := Session.new w connectionReason meta no_hooks in
  set_sessions (map_set ws session (sessionsBySocket (sessions st))) st.

(** The hooks registered for the client id of a session that has none
    attached. *)
Definition attachHooks (st : State) (session : SendspinSession) : SendspinSession :=
  match getClientId session with
  | Some info =>
      if negb (String.eqb info "") && negb (hooksAttached session) then
        match hooksByClientId st !! info with
        | Some entry => setHooks (entry_hooks entry) (entry_context entry) session
        | None => session
        end
      else session
  | None => session
  end.

(** What a socket delivers: binary data, or a text and what [JSON.parse]
    makes of it. *)
Inductive incoming : Type :=
  | Binary (data : list byte)
  | Text (parsed : option value).

(** The ['message'] listener of the socket [ws].  The listener holds the
    session made by [handleConnection]; for a socket that was connected
    once this is the entry of [ws] in the map. *)
Definition onMessage (ws : nat) (data : incoming) (clk : Clock) (st : State) : State :=
  match getSessionBySocket ws st with
  | None => st
  | Some session =>
      let session :=
        match data with
        | Binary buf => handleBinary buf session
        | Text parsed => attachHooks st (handleText parsed clk session)
        end in
      set_sessions (map_set ws session (sessionsBySocket (sessions st))) st
  end.

Definition registerHooks (clientId : string) (h : SendspinSessionHooks)
    (context : option SendspinConnectionMeta) (st : State) : State :=
  let st := {| sessions := sessions st;
               hooksByClientId := <[ clientId := mkEntry h context ]> (hooksByClientId st);
               leadStatsByClientId := leadStatsByClientId st |} in
  with_session clientId (setHooks h context) st.

Definition unregisterHooks (clientId : string) (st : State) : State :=
  let st := {| sessions := sessions st;
               hooksByClientId := delete clientId (hooksByClientId st);
               leadStatsByClientId := leadStatsByClientId st |} in
  with_session clientId (setHooks no_hooks None) st.

(** The sends that the core routes to the session of a client. *)
Inductive send : Type :=
  | PcmFrame (frame : SendspinPcmFrame)
  | StreamStart (fmt : option PartialPlayerFormat)
  | StreamClear (rs : option (list string))
  | StreamEnd (rs : option (list string))
  | GroupUpdate (st : PlaybackStateType) (groupId groupName : option string)
  | Metadata (payload : value)
  | ServerCommand (payload : value)
  | ArtworkStreamStart (chans : list ArtworkChannel)
  | Artwork (channel : Z) (imageData : option (list byte))
  | VisualizerStreamStart (config : option value)
  | VisualizerFrame (buf : list byte) (ts : option num)
  | ControllerState (payload : value).

Definition deliver (m : send) (clk : Clock) (session : SendspinSession)
  : SendspinSession :=
  match m with
  | PcmFrame frame => sendPcmAudioFrame frame clk session
  | StreamStart fmt => sendStreamStart fmt session
  | StreamClear rs => sendStreamClear rs session
  | StreamEnd rs => sendStreamEnd rs session
  | GroupUpdate st gid gname => sendGroupUpdate st gid gname session
  | Metadata payload => sendMetadata payload clk session
  | ServerCommand payload => sendServerCommand payload VUndefined VUndefined session
  | ArtworkStreamStart chans => sendArtworkStreamStart chans session
  | Artwork channel imageData => sendArtwork channel imageData clk session
  | VisualizerStreamStart config =>
      sendVisualizerStreamStart (match config with
                                 | Some c => c
                                 | None => VObj []    (* the default [{}] *)
                                 end) session
  | VisualizerFrame buf ts => sendVisualizerFrame buf ts clk session
  | ControllerState payload => sendControllerState payload session
  end.

(** [sendPcmFrameToClient], [sendStreamStart], ..., [sendControllerState] *)
Definition route (clientId : string) (m : send) (clk : Clock) (st : State) : State :=
  with_session clientId (deliver m clk) st.

End Registry.

(** ** Sample values: a client that takes five roles *)

Module Examples.

Import Js Session.

Definition clk0 : Clock := mkClock (Num.of_Z 0) (Num.of_Z 0) 0.

Definition hello_payload : value :=
  VObj [("client_id", VStr "c1"); ("version", VNum (Num.of_Z 1));
        ("supported_roles",
         VArr [VStr "player@v1"; VStr "metadata@v1"; VStr "controller@v1";
               VStr "artwork@v1"; VStr "visualizer@v1"]);
        ("player@v1_support", VObj [("supported_commands", VArr [])]);
        ("artwork@v1_support",
         VObj [("channels",
                VArr [VObj [("source", VStr "album"); ("format", VStr "jpeg");
                            ("media_width", VNum (Num.of_Z 300));
                            ("media_height", VNum (Num.of_Z 300))]])]);
        ("visualizer@v1_support", VObj [])]%string.

Definition hello : value :=
  VObj [("type", VStr "client/hello"); ("payload", hello_payload)]%string.

Definition state : value :=
  VObj [("type", VStr "client/state");
        ("payload", VObj [("state", VStr "synchronized")])]%string.

(** A new session on an open socket. *)
Definition fresh : SendspinSession :=
  new (mkWs OPEN 0) DISCOVERY (mkMeta None None None) no_hooks.

Definition handshake : list (Clock * op) :=
  [(clk0, HandleText (Some hello)); (clk0, HandleText (Some state))].

(** The session after the hello and the first [client/state]. *)
Definition session : SendspinSession := run handshake fresh.

End Examples.

(** ** Sample values: a player and a source *)

Module ClientExamples.
Import Js Client.

(** A connected client with one listener of each kind. *)
Definition client : SendspinClient :=
  mkClient (Some OPEN) true TimeFilter.new false None None (Num.of_Z 0) [1%nat] [2%nat] [].

Definition stream_start : StreamStartMessage :=
  mkStreamStart
    (Some (mkPlayer "pcm" (Num.of_Z 48000) (Num.of_Z 2) (Num.of_Z 16) None)) (VObj []).

(** The client once the stream has started. *)
Definition playing : SendspinClient :=
  fst (handleStreamStart stream_start (Num.of_Z 0) client).

(** A source that announces itself to the server. *)
Definition source_hello : value :=
  VObj [("type", VStr "client/hello");
        ("payload",
         VObj [("client_id", VStr "mic"); ("version", VNum (Num.of_Z 1));
               ("supported_roles", VArr [VStr "source@v1"]);
               ("source@v1_support", VObj [("format", VStr "pcm")])])]%string.

Definition source_session : Session.SendspinSession :=
  Session.handleText (Some source_hello) Examples.clk0
    (Session.new (Session.mkWs Session.OPEN 0) Session.DISCOVERY
       (Session.mkMeta None None None)
       (Session.mkHooks false false false false true false false false false false)).

End ClientExamples.

(** * Properties *)

(** ** Numbers *)

Lemma Qeq_bool_refl (q : Q) : Qeq_bool q q = true.
Proof. apply Qeq_bool_iff. reflexivity. Qed.

Lemma Qle_bool_inject_Z (a b : Z) : Qle_bool (inject_Z a) (inject_Z b) = (a <=? b).
Proof. unfold Qle_bool, inject_Z. simpl. now rewrite !Z.mul_1_r. Qed.

Lemma toBigInt_of_Z (z : Z) : Num.toBigInt (Num.of_Z z) = Ok z.
Proof.
  unfold Num.toBigInt, Num.of_Z. rewrite Qfloor_Z, Qeq_bool_refl. reflexivity.
Qed.

Lemma ltb_of_Z (a b : Z) : Num.ltb (Num.of_Z a) (Num.of_Z b) = (a <? b).
Proof.
  unfold Num.ltb, Num.of_Z. rewrite Qle_bool_inject_Z.
  now rewrite Z.ltb_antisym.
Qed.

Lemma leb_of_Z (a b : Z) : Num.leb (Num.of_Z a) (Num.of_Z b) = (a <=? b).
Proof. unfold Num.leb, Num.of_Z. apply Qle_bool_inject_Z. Qed.

Lemma eqb_of_Z (a b : Z) : Num.eqb (Num.of_Z a) (Num.of_Z b) = (a =? b).
Proof.
  unfold Num.eqb, Num.of_Z, Qeq_bool, inject_Z. simpl.
  now rewrite !Z.mul_1_r.
Qed.

(** ** Bytes and big-endian integers *)

Section Bytes.

Import Binary.

Lemma Z_of_byte_range (b : byte) : 0 <= Z_of_byte b < 256.
Proof.
  unfold Z_of_byte. pose proof (Byte.to_N_bounded b). lia.
Qed.

Lemma Z_of_byte_of_Z (z : Z) : Z_of_byte (byte_of_Z z) = z mod 256.
Proof.
  unfold Z_of_byte, byte_of_Z.
  assert (Hr : 0 <= z mod 256 < 256) by (apply Z.mod_pos_bound; lia).
  destruct (Byte.of_N (Z.to_N (z mod 256))) as [b|] eqn:E.
  - apply Byte.to_of_N in E. rewrite E. lia.
  - apply Byte.of_N_None_iff in E. lia.
Qed.

Lemma byte_of_Z_of_byte (b : byte) : byte_of_Z (Z_of_byte b) = b.
Proof.
  unfold byte_of_Z, Z_of_byte.
  pose proof (Byte.to_N_bounded b) as Hb.
  rewrite Z.mod_small by lia.
  rewrite N2Z.id, Byte.of_to_N. reflexivity.
Qed.

Lemma length_be_bytes (n : nat) (u : Z) : length (be_bytes n u) = n.
Proof. induction n as [|k IH]; simpl; [reflexivity | now rewrite IH]. Qed.

(** Reading back the [n] bytes written for [u], after a prefix worth [acc]. *)
Lemma fold_be_bytes (n : nat) (u acc : Z) :
  fold_left (fun a b => a * 256 + Z_of_byte b) (be_bytes n u) acc
  = acc * 256 ^ Z.of_nat n + u mod 256 ^ Z.of_nat n.
Proof.
  revert acc. induction n as [|k IH]; intros acc.
  - simpl. rewrite Z.mod_1_r. lia.
  - cbn [be_bytes fold_left]. rewrite IH, Z_of_byte_of_Z.
    replace (Z.of_nat (S k)) with (Z.of_nat k + 1) by lia.
    rewrite Z.pow_add_r by lia. change (256 ^ 1) with 256.
    assert (Hp : 0 < 256 ^ Z.of_nat k) by (apply Z.pow_pos_nonneg; lia).
    rewrite (Z.rem_mul_r u (256 ^ Z.of_nat k) 256) by lia.
    ring.
Qed.

Lemma be_value_be_bytes (n : nat) (u : Z) :
  be_value (be_bytes n u) = u mod 256 ^ Z.of_nat n.
Proof. unfold be_value. rewrite fold_be_bytes. lia. Qed.

(** Two's complement on 64 bits. *)
Lemma readBigInt64BE_be_bytes (v : Z) :
  - 2 ^ 63 <= v < 2 ^ 63 ->
  readBigInt64BE (be_bytes 8 (v mod 2 ^ 64)) = v.
Proof.
  intros Hv. unfold readBigInt64BE.
  rewrite be_value_be_bytes. change (256 ^ Z.of_nat 8) with (2 ^ 64).
  rewrite Z.mod_mod by lia.
  destruct (Z.ltb_spec (v mod 2 ^ 64) (2 ^ 63)) as [H|H].
  - destruct (Z.lt_ge_cases v 0) as [Hneg|Hpos].
    + replace v with (v + 2 ^ 64 - 1 * 2 ^ 64) in H by lia.
      rewrite Zminus_mod, Z_mod_mult, Z.sub_0_r, Z.mod_mod in H by lia.
      rewrite Z.mod_small in H by lia. lia.
    + apply Z.mod_small. lia.
  - destruct (Z.lt_ge_cases v 0) as [Hneg|Hpos].
    + replace (v mod 2 ^ 64) with ((v + 2 ^ 64) mod 2 ^ 64).
      * rewrite Z.mod_small by lia. lia.
      * replace (v + 2 ^ 64) with (v + 1 * 2 ^ 64) by lia.
        now rewrite Z_mod_plus_full.
    + rewrite Z.mod_small in H by lia. lia.
Qed.

Lemma writeUInt8_of_Z (ty : Z) :
  0 <= ty <= 255 -> writeUInt8 (Num.of_Z ty) = Ok (byte_of_Z ty).
Proof.
  intros Hty. unfold writeUInt8, Num.gtb.
  rewrite !ltb_of_Z.
  destruct (Z.ltb_spec 255 ty); [lia|].
  destruct (Z.ltb_spec ty 0); [lia|].
  cbn [orb]. unfold Num.of_Z. now rewrite Qfloor_Z.
Qed.

Lemma writeBigInt64BE_in_range (v : Z) :
  - 2 ^ 63 <= v < 2 ^ 63 ->
  writeBigInt64BE v = Ok (be_bytes 8 (v mod 2 ^ 64)).
Proof.
  intros Hv. unfold writeBigInt64BE.
  destruct (Z.gtb_spec v (2 ^ 63 - 1)); [lia|].
  destruct (Z.ltb_spec v (- 2 ^ 63)); [lia|].
  reflexivity.
Qed.

(** Packing an integer type and an integer timestamp in range. *)
Lemma packBinaryHeaderRaw_of_Z (ty ts : Z) :
  0 <= ty <= 255 -> - 2 ^ 63 <= ts < 2 ^ 63 ->
  packBinaryHeaderRaw (Num.of_Z ty) (Num.of_Z ts)
  = Ok (byte_of_Z ty :: be_bytes 8 (ts mod 2 ^ 64)).
Proof.
  intros Hty Hts. unfold packBinaryHeaderRaw, packBinaryHeader. cbn [messageType timestampUs].
  rewrite writeUInt8_of_Z by assumption. cbn [rbind].
  rewrite toBigInt_of_Z. cbn [rbind].
  rewrite writeBigInt64BE_in_range by assumption. reflexivity.
Qed.

(** Unpacking what was packed, whatever follows the header. *)
Lemma unpackBinaryHeader_packed (ty ts : Z) (body : list byte) :
  0 <= ty <= 255 -> - 2 ^ 63 <= ts < 2 ^ 63 ->
  unpackBinaryHeader ((byte_of_Z ty :: be_bytes 8 (ts mod 2 ^ 64)) ++ body)
  = Ok {| messageType := Num.of_Z ty; timestampUs := Num.of_Z ts |}.
Proof.
  intros Hty Hts. unfold unpackBinaryHeader.
  rewrite length_app. cbn [length]. rewrite length_be_bytes.
  change (S 8 + length body <? BINARY_HEADER_SIZE)%nat
    with (9 + length body <? 9)%nat.
  destruct (Nat.ltb_spec (9 + length body) 9); [lia|].
  cbn [app]. rewrite firstn_app, length_be_bytes.
  rewrite Nat.sub_diag, firstn_O, app_nil_r.
  rewrite firstn_all2 by (rewrite length_be_bytes; lia).
  rewrite readBigInt64BE_be_bytes by assumption.
  rewrite Z_of_byte_of_Z, Z.mod_small by lia. reflexivity.
Qed.

End Bytes.

(** C4. For every message type in 0..255 and every timestamp in
    [-2^63, 2^63), packing gives a buffer of nine bytes whose byte 0 is the
    type and whose bytes 1..8 are the timestamp as a big-endian
    two's-complement 64-bit integer, and unpacking that buffer returns
    exactly the type and the timestamp. *)
Theorem C4_binary_header_round_trip (ty ts : Z) :
  0 <= ty <= 255 ->
  - 2 ^ 63 <= ts < 2 ^ 63 ->
  exists b0 b1 b2 b3 b4 b5 b6 b7 b8 : byte,
    Binary.packBinaryHeader
      {| Binary.messageType := Num.of_Z ty; Binary.timestampUs := Num.of_Z ts |}
    = Ok [b0; b1; b2; b3; b4; b5; b6; b7; b8]
    /\ Binary.Z_of_byte b0 = ty
    /\ Binary.Z_of_byte b1 * 2 ^ 56 + Binary.Z_of_byte b2 * 2 ^ 48
       + Binary.Z_of_byte b3 * 2 ^ 40 + Binary.Z_of_byte b4 * 2 ^ 32
       + Binary.Z_of_byte b5 * 2 ^ 24 + Binary.Z_of_byte b6 * 2 ^ 16
       + Binary.Z_of_byte b7 * 2 ^ 8 + Binary.Z_of_byte b8
       = (if ts <? 0 then ts + 2 ^ 64 else ts)
    /\ Binary.unpackBinaryHeader [b0; b1; b2; b3; b4; b5; b6; b7; b8]
       = Ok {| Binary.messageType := Num.of_Z ty; Binary.timestampUs := Num.of_Z ts |}.
Proof.
  intros Hty Hts.
  pose proof (packBinaryHeaderRaw_of_Z ty ts Hty Hts) as Hpack.
  pose proof (unpackBinaryHeader_packed ty ts [] Hty Hts) as Hunpack.
  pose proof (be_value_be_bytes 8 (ts mod 2 ^ 64)) as Hval.
  unfold Binary.packBinaryHeaderRaw in Hpack. rewrite app_nil_r in Hunpack.
  remember (ts mod 2 ^ 64) as u eqn:Hu.
  cbn [Binary.be_bytes] in *.
  do 9 eexists. split; [exact Hpack|].
  split; [rewrite Z_of_byte_of_Z; apply Z.mod_small; lia|].
  split; [|exact Hunpack].
  unfold Binary.be_value in Hval. cbn [fold_left] in Hval.
  change (256 ^ Z.of_nat 8) with (2 ^ 64) in Hval.
  assert (Hmod : u mod 2 ^ 64 = if ts <? 0 then ts + 2 ^ 64 else ts).
  { subst u. rewrite Z.mod_mod by lia.
    destruct (Z.ltb_spec ts 0).
    - replace ts with (ts + 2 ^ 64 - 1 * 2 ^ 64) at 1 by lia.
      rewrite Zminus_mod, Z_mod_mult, Z.sub_0_r, Z.mod_mod by lia.
      apply Z.mod_small. lia.
    - apply Z.mod_small. lia. }
  rewrite <- Hmod, <- Hval. ring.
Qed.

Lemma C4_binary_header_round_trip_witness :
  (0 <= 12 <= 255) /\ (- 2 ^ 63 <= -2 < 2 ^ 63) /\
  exists b0 b1 b2 b3 b4 b5 b6 b7 b8 : byte,
    Binary.packBinaryHeader
      {| Binary.messageType := Num.of_Z 12; Binary.timestampUs := Num.of_Z (-2) |}
    = Ok [b0; b1; b2; b3; b4; b5; b6; b7; b8]
    /\ Binary.Z_of_byte b0 = 12
    /\ Binary.Z_of_byte b1 * 2 ^ 56 + Binary.Z_of_byte b2 * 2 ^ 48
       + Binary.Z_of_byte b3 * 2 ^ 40 + Binary.Z_of_byte b4 * 2 ^ 32
       + Binary.Z_of_byte b5 * 2 ^ 24 + Binary.Z_of_byte b6 * 2 ^ 16
       + Binary.Z_of_byte b7 * 2 ^ 8 + Binary.Z_of_byte b8
       = (if -2 <? 0 then -2 + 2 ^ 64 else -2)
    /\ Binary.unpackBinaryHeader [b0; b1; b2; b3; b4; b5; b6; b7; b8]
       = Ok {| Binary.messageType := Num.of_Z 12; Binary.timestampUs := Num.of_Z (-2) |}.
Proof.
  split; [lia|]. split; [lia|].
  apply (C4_binary_header_round_trip 12 (-2)); lia.
Defined.

(** ** The time filter *)

Section TimeFilterFacts.

Import TimeFilter.

(** An update whose time equals [lastUpdate] changes nothing. *)
Lemma update_same_time (f : SendspinTimeFilter) (m e : num) (q : Q) :
  lastUpdate f = Num.Fin q -> update f m e (Num.Fin q) = f.
Proof.
  intros H. unfold update. rewrite H. cbn [Num.eqb].
  now rewrite Qeq_bool_refl.
Qed.

Lemma update_new_at_zero (m e : num) : update new m e (Num.of_Z 0) = new.
Proof. apply (update_same_time new m e 0). reflexivity. Qed.

End TimeFilterFacts.

(** The scenario as the specification states it does not hold: after the
    second call the filter is not synchronized and its drift is 0. *)
Lemma C1_kalman_bootstrap_counterexample : ~ Spec.bootstrap_as_stated.
Proof.
  unfold Spec.bootstrap_as_stated. intros [Hsync _].
  vm_compute in Hsync. discriminate Hsync.
Qed.

(** C1, amended.  On a new filter [lastUpdate] is 0, so [update(100, 10, 0)]
    is a no-op.  After [update(120, 10, 1_000_000)] the count is 1, the filter
    is not synchronized, the drift is 0 and the offset is 120.  After
    [update(140, 10, 2_000_000)] the filter is synchronized, the drift is
    20e-6 and the offset is 140.  After [update(160, 10, 3_000_000)] the
    error is finite. *)
Theorem C1_kalman_bootstrap_amended :
  (forall m e : num, TimeFilter.update TimeFilter.new m e (Num.of_Z 0) = TimeFilter.new)
  /\ Spec.after1 = TimeFilter.new
  /\ TimeFilter.count Spec.after2 = 1
  /\ TimeFilter.isSynchronized Spec.after2 = false
  /\ TimeFilter.drift Spec.after2 = Num.of_Z 0
  /\ TimeFilter.offset Spec.after2 = Num.of_Z 120
  /\ TimeFilter.isSynchronized Spec.after3 = true
  /\ Spec.approx (TimeFilter.drift Spec.after3) (20 # 1000000) 0
  /\ TimeFilter.offset Spec.after3 = Num.of_Z 140
  /\ Num.isFinite (TimeFilter.error Spec.after4) = true
  /\ TimeFilter.error Spec.after4 = Num.of_Z 10.
Proof.
  split; [exact update_new_at_zero|].
  repeat split; try (vm_compute; reflexivity).
  vm_compute. discriminate.
Qed.

Section ProjectionFacts.

Import TimeFilter.
Local Open Scope Q_scope.

(** The integer part of [c + t] for an integer [c] and [0 < t <= 1]. *)
Lemma Qfloor_shift (c : Z) (t : Q) :
  0 < t -> t <= 1 -> (c <= Qfloor (inject_Z c + t) <= c + 1)%Z.
Proof.
  intros Hpos Hle. split.
  - rewrite <- (Qfloor_Z c) at 1. apply Qfloor_resp_le. lra.
  - rewrite <- (Qfloor_Z (c + 1)). apply Qfloor_resp_le.
    rewrite inject_Z_plus. change (inject_Z 1) with 1. lra.
Qed.

(** [Math.round] is within a half of its argument. *)
Lemma round_bounds (q : Q) :
  0 < inject_Z (Qfloor (q + (1 # 2))) - q + (1 # 2)
  /\ inject_Z (Qfloor (q + (1 # 2))) - q + (1 # 2) <= 1.
Proof.
  pose proof (Qfloor_le (q + (1 # 2))) as Hlo.
  pose proof (Qlt_floor (q + (1 # 2))) as Hhi.
  rewrite inject_Z_plus in Hhi. change (inject_Z 1) with 1 in Hhi.
  set (r := inject_Z (Qfloor (q + (1 # 2)))) in *.
  split; lra.
Qed.

(** With zero drift the two projections undo each other up to the
    rounding of the offset. *)
Lemma projection_round_trip (f : SendspinTimeFilter) (o l : Q) (c : Z) :
  let g := with_current f (snapshot (Num.Fin l) (Num.Fin o) (Num.of_Z 0)) in
  exists k : Z,
    computeClientTime g (computeServerTime g (Num.of_Z c)) = Num.of_Z k
    /\ (c <= k <= c + 1)%Z.
Proof.
  intros g. unfold computeClientTime, computeServerTime.
  unfold g, with_current, snapshot. cbn [current TimeElement.lastUpdate TimeElement.offset TimeElement.drift].
  unfold Num.sub.
  repeat (unfold Num.of_Z; cbn [Num.add Num.opp Num.mul Num.round Num.div]).
  change (Qeq_bool (Qred (inject_Z 1 + inject_Z 0)) 0) with false. cbn iota.
  eexists. split; [reflexivity|].
  match goal with |- (_ <= Qfloor (?X + _) <= _)%Z => set (E := X) end.
  pose proof (round_bounds o) as [Hlo Hhi].
  assert (HE : E + (1 # 2)
               == inject_Z c + (inject_Z (Qfloor (o + (1 # 2))) - o + (1 # 2))).
  { unfold E. rewrite !Qred_correct. change (inject_Z 1 + inject_Z 0) with 1.
    change (inject_Z 0) with 0.
    assert (Hin : o + 0 * (inject_Z c + - l) + (1 # 2) == o + (1 # 2)) by ring.
    rewrite Hin. field. }
  rewrite HE. now apply Qfloor_shift.
Qed.

End ProjectionFacts.


(** ** Role resolution *)

Section RoleResolution.

Import Js Session Spec.

Lemma supported_cases (role : string) :
  role ∈ serverSupported ->
  role = Roles.PLAYER \/ role = Roles.CONTROLLER \/ role = Roles.METADATA
  \/ role = Roles.ARTWORK \/ role = Roles.VISUALIZER \/ role = Roles.SOURCE.
Proof.
  unfold serverSupported. rewrite !elem_of_union, !elem_of_singleton. tauto.
Qed.

(** A family has one server-supported literal. *)
Lemma family_inj (r1 r2 : string) :
  r1 ∈ serverSupported -> r2 ∈ serverSupported -> family r1 = family r2 -> r1 = r2.
Proof.
  intros H1 H2 Hf.
  apply supported_cases in H1. apply supported_cases in H2.
  repeat (destruct H1 as [H1|H1]); repeat (destruct H2 as [H2|H2]);
    subst r1 r2; first [reflexivity | vm_compute in Hf; discriminate Hf].
Qed.

(** The unsupported roles do not depend on the families seen. *)
Lemma unsupported_fold (l : list value) (acc : resolution) :
  unsupportedRoles (fold_left resolve_role l acc)
  = unsupportedRoles acc ++ reported_unsupported l.
Proof.
  revert acc. induction l as [|entry l IH]; intros acc.
  - cbn. now rewrite app_nil_r.
  - cbn [fold_left]. rewrite IH. unfold reported_unsupported.
    destruct entry as [| |b|n|role|items|fields]; cbn [resolve_role strings_of]; try reflexivity.
    cbn [List.filter]. unfold is_supported.
    destruct (decide (role ∈ serverSupported)) as [Hs|Hs].
    + rewrite (bool_decide_eq_true_2 _ Hs). cbn [negb andb].
      destruct (decide (split_head "@" role ∈ seenFamilies acc)); reflexivity.
    + rewrite (bool_decide_eq_false_2 _ Hs). cbn [negb andb].
      destruct (startsWith role "_"); cbn [negb unsupportedRoles].
      * reflexivity.
      * now rewrite <- app_assoc.
Qed.

(** The admitted roles and the families seen are those of the resolution
    in the order the specification gives. *)
Lemma active_fold_as_stated (l : list value) (acc acc' : resolution) :
  activeRoles acc = activeRoles acc' ->
  seenFamilies acc = seenFamilies acc' ->
  activeRoles (fold_left resolve_role l acc)
  = activeRoles (fold_left resolve_role_as_stated l acc').
Proof.
  revert acc acc'. induction l as [|entry l IH]; intros acc acc' Ha Hs.
  - exact Ha.
  - cbn [fold_left]. apply IH;
      destruct entry as [| |b|n|role|items|fields];
      cbn [resolve_role resolve_role_as_stated]; try assumption;
      fold (family role); rewrite <- Hs;
      destruct (decide (role ∈ serverSupported));
      destruct (decide (family role ∈ seenFamilies acc));
      try destruct (startsWith role "_");
      cbn [negb activeRoles seenFamilies]; congruence.
Qed.

Lemma resolve_role_ok (acc : resolution) (entry : value) :
  resolution_ok acc -> resolution_ok (resolve_role acc entry).
Proof.
  intros [Hsup Hseen Hnd].
  destruct entry as [| |b|n|role|items|fields]; cbn [resolve_role];
    try (constructor; assumption).
  fold (family role).
  destruct (decide (role ∈ serverSupported)) as [Hs|Hs].
  - destruct (decide (family role ∈ seenFamilies acc)) as [Hf|Hf];
      [constructor; assumption|].
    constructor; cbn [activeRoles seenFamilies].
    + intros r Hr. apply in_app_or in Hr as [Hr|[<-|[]]]; auto.
    + intros f. rewrite List.map_app, in_app_iff, elem_of_union, Hseen.
      cbn. rewrite elem_of_singleton. intuition.
    + rewrite List.map_app. cbn [List.map].
      apply NoDup_app. split; [assumption|]. split.
      * intros x Hx Hx'. apply list_elem_of_In in Hx.
        apply list_elem_of_singleton in Hx'. subst x.
        apply Hf, Hseen, Hx.
      * apply NoDup_singleton.
  - destruct (startsWith role "_"); constructor; assumption.
Qed.

Lemma resolve_fold_ok (l : list value) (acc : resolution) :
  resolution_ok acc -> resolution_ok (fold_left resolve_role l acc).
Proof.
  revert acc. induction l as [|entry l IH]; intros acc Hok; [exact Hok|].
  cbn [fold_left]. apply IH, resolve_role_ok, Hok.
Qed.

(** A role is admitted by the loop iff it was admitted before or it is a
    server-supported literal among the entries. *)
Lemma active_fold_mem (l : list value) (acc : resolution) (role : string) :
  resolution_ok acc ->
  In role (activeRoles (fold_left resolve_role l acc))
  <-> In role (activeRoles acc) \/ (In (VStr role) l /\ role ∈ serverSupported).
Proof.
  revert acc. induction l as [|entry l IH]; intros acc Hok.
  - cbn. intuition.
  - cbn [fold_left]. rewrite (IH _ (resolve_role_ok acc entry Hok)).
    destruct Hok as [Hsup Hseen Hnd].
    destruct entry as [| |b|n|r|items|fields]; cbn [resolve_role In];
      try (intuition congruence).
    fold (family r).
    destruct (decide (r ∈ serverSupported)) as [Hs|Hs].
    + destruct (decide (family r ∈ seenFamilies acc)) as [Hf|Hf].
      * split; [intuition|].
        intros [H|[[H|H] H']]; [auto| |auto].
        injection H as ->. left.
        apply Hseen, in_map_iff in Hf as [r' [Hfam Hr']].
        assert (r' = role) as <- by (apply family_inj; auto).
        exact Hr'.
      * cbn [activeRoles]. rewrite in_app_iff. cbn [In].
        split; [|intuition congruence].
        intros [[H|[H|[]]]|H]; [auto| |intuition].
        subst r. right. auto.
    + destruct (startsWith r "_"); cbn [negb activeRoles];
        (split; [intuition|]);
        (intros [H|[[H|H] H']]; [auto| |auto]);
        injection H as ->; contradiction.
Qed.

Lemma initial_resolution_ok :
  resolution_ok {| activeRoles := []; unsupportedRoles := []; seenFamilies := ∅ |}.
Proof.
  constructor; cbn.
  - intros role [].
  - intros f. set_solver.
  - apply NoDup_nil_2.
Qed.

End RoleResolution.

(** The resolution in the order the specification gives it and the code
    differ on an unsupported entry of a family that is already admitted:
    the code reports [player@v2] after [player@v1], the stated order skips
    it. *)
Lemma C6_role_resolution_counterexample :
  let entries := [Js.VStr "player@v1"; Js.VStr "player@v2"] in
  Session.activeRoles (Session.resolveActiveRoles entries) = ["player@v1"%string]
  /\ Spec.family "player@v2" = Spec.family "player@v1"
  /\ Session.unsupportedRoles (Session.resolveActiveRoles entries) = ["player@v2"%string]
  /\ Session.unsupportedRoles (Spec.resolve_as_stated entries) = []
  /\ Session.unsupportedRoles (Session.resolveActiveRoles entries)
     <> Session.unsupportedRoles (Spec.resolve_as_stated entries).
Proof.
  repeat split; try (vm_compute; reflexivity).
  vm_compute. discriminate.
Qed.

(** C6, amended.  The resolver goes through the entries in order and
    ignores the entries that are not strings.  An entry is admitted iff its
    literal is in the server-supported set and its family was not admitted
    before; the admitted roles are those of the resolution in the order the
    specification gives.  Every other string entry that does not start with
    an underscore is reported in [unsupportedRoles], in order, whether or not
    its family was admitted before; a repeated server-supported literal and
    an unknown entry starting with an underscore produce nothing.  Each
    family appears at most once among the admitted roles, and every admitted
    role is server-supported. *)
Theorem C6_role_resolution_amended (supportedRoles : list Js.value) :
  let r := Session.resolveActiveRoles supportedRoles in
  Session.activeRoles r = Session.activeRoles (Spec.resolve_as_stated supportedRoles)
  /\ (forall role : string,
        In role (Session.activeRoles r)
        <-> In (Js.VStr role) supportedRoles /\ role ∈ Session.serverSupported)
  /\ Session.unsupportedRoles r = Spec.reported_unsupported supportedRoles
  /\ NoDup (List.map Spec.family (Session.activeRoles r)).
Proof.
  cbn zeta. unfold Session.resolveActiveRoles, Spec.resolve_as_stated.
  split; [apply active_fold_as_stated; reflexivity|].
  split.
  - intros role. rewrite (active_fold_mem _ _ _ initial_resolution_ok).
    cbn. tauto.
  - split.
    + now rewrite unsupported_fold.
    + apply (Spec.ok_nodup _ (resolve_fold_ok _ _ initial_resolution_ok)).
Qed.

Lemma C6_role_resolution_amended_witness :
  let entries :=
    [Js.VStr "metadata@v1"; Js.VNum (Num.of_Z 3); Js.VStr "player@v1";
     Js.VStr "_beta"; Js.VStr "player@v2"; Js.VStr "player@v1"] in
  let r := Session.resolveActiveRoles entries in
  Session.activeRoles r = ["metadata@v1"%string; "player@v1"%string]
  /\ Session.unsupportedRoles r = ["player@v2"%string]
  /\ NoDup (List.map Spec.family (Session.activeRoles r)).
Proof.
  cbn zeta.
  pose proof (C6_role_resolution_amended
                [Js.VStr "metadata@v1"; Js.VNum (Num.of_Z 3); Js.VStr "player@v1";
                 Js.VStr "_beta"; Js.VStr "player@v2"; Js.VStr "player@v1"])
    as [_ [_ [Hu Hn]]].
  split; [vm_compute; reflexivity|].
  split; [rewrite Hu; vm_compute; reflexivity | exact Hn].
Defined.

(** ** Frames of the session's methods *)

Section Frames.

Import Js Session Trace.

Implicit Types (s t : SendspinSession) (A : kind -> bool).

Lemma emits_refl A s : emits A s s.
Proof. exists []. split; [now rewrite app_nil_r | reflexivity]. Qed.

Lemma emits_trans A s t s' : emits A s t -> emits A t s' -> emits A s s'.
Proof.
  intros [e1 [H1 F1]] [e2 [H2 F2]]. exists (e1 ++ e2). split.
  - now rewrite H2, H1, app_assoc.
  - now rewrite forallb_app, F1, F2.
Qed.

Lemma emits_same_log A s s' : log s' = log s -> emits A s s'.
Proof. intros H. exists []. split; [now rewrite app_nil_r | reflexivity]. Qed.

Lemma emits_emit A e s : A (kind_of e) = true -> emits A s (emit e s).
Proof. intros H. exists [e]. split; [reflexivity | cbn; now rewrite H]. Qed.

Lemma frames_refl A s : frames A s s.
Proof. split; [reflexivity | apply emits_refl]. Qed.

Lemma frames_trans A s t s' : frames A s t -> frames A t s' -> frames A s s'.
Proof.
  intros [G1 E1] [G2 E2]. split; [congruence | eapply emits_trans; eassumption].
Qed.

Lemma frames_same A s s' : gate s' = gate s -> log s' = log s -> frames A s s'.
Proof. intros G L. split; [exact G | now apply emits_same_log]. Qed.

Lemma frames_emit A e s : A (kind_of e) = true -> frames A s (emit e s).
Proof. intros H. split; [reflexivity | now apply emits_emit]. Qed.

Lemma frames_emits A s s' : frames A s s' -> emits A s s'.
Proof. now intros [_ H]. Qed.

End Frames.

Import Js Session Trace.

Create HintDb frames.
Create HintDb emits.

(** Splits the goal [frames A s (f x (g y s))] along the nesting of the
    calls, closing each layer with a lemma of the database [frames] or, for
    a function that leaves the gate and the log alone, by computation. *)
Ltac frames_layers :=
  lazymatch goal with
  | |- frames _ ?s ?s => apply frames_refl
  | |- frames ?A ?s (?f ?t) =>
      apply (frames_trans A s t);
      [ frames_layers
      | first [ apply frames_same; reflexivity
              | solve [ eauto 3 with frames ] ] ]
  end.

Ltac frames_cases := cbn zeta; repeat case_match; frames_layers.

(** The same for [emits]: the gate may change. *)
Ltac emits_layers :=
  lazymatch goal with
  | |- emits _ ?s ?s => apply emits_refl
  | |- emits ?A ?s (?f ?t) =>
      apply (emits_trans A s t);
      [ emits_layers
      | first [ apply emits_same_log; reflexivity
              | solve [ eauto 3 with emits ]
              | apply frames_emits; solve [ eauto 3 with frames ] ] ]
  end.

Ltac emits_cases := cbn zeta; repeat case_match; emits_layers.

#[local] Hint Resolve frames_emit : frames.
#[local] Hint Resolve emits_emit : emits.
#[local] Hint Extern 1 (_ = true) => reflexivity : frames emits.
#[local] Hint Extern 1 (_ = true) => assumption : frames emits.

Lemma frames_ws_close A code reason s :
  A KClose = true -> frames A s (ws_close code reason s).
Proof. intros H. apply frames_emit. exact H. Qed.

Lemma frames_ws_send_binary A buf s :
  A KBinary = true -> frames A s (ws_send_binary buf s).
Proof. intros H. apply frames_emit. exact H. Qed.

Lemma frames_throw A e s : A KThrown = true -> frames A s (throw e s).
Proof. intros H. apply frames_emit. exact H. Qed.

#[local] Hint Resolve frames_ws_close frames_ws_send_binary frames_throw : frames.

Lemma frames_close1008 A reason s :
  A KClose = true -> frames A s (close1008 reason s).
Proof. intros H. unfold close1008. frames_cases. Qed.

Lemma frames_sendJson A m s : A KText = true -> frames A s (sendJson m s).
Proof. intros H. unfold sendJson. frames_cases. Qed.

Lemma frames_sendBinary A buf allowDrop clk s :
  A KBinary = true -> frames A s (sendBinary buf allowDrop clk s).
Proof. intros H. unfold sendBinary. frames_cases. Qed.

#[local] Hint Resolve frames_close1008 frames_sendJson frames_sendBinary : frames.

Lemma frames_sendStreamFormat A s : A KText = true -> frames A s (sendStreamFormat s).
Proof. intros H. unfold sendStreamFormat. frames_cases. Qed.

#[local] Hint Resolve frames_sendStreamFormat : frames.

Lemma frames_ensureStreamStarted A s :
  A KText = true -> frames A s (ensureStreamStarted s).
Proof. intros H. unfold ensureStreamStarted. frames_cases. Qed.

Lemma frames_sendServerHello A s : A KText = true -> frames A s (sendServerHello s).
Proof. intros H. unfold sendServerHello. frames_cases. Qed.

Lemma frames_startInitialStateTimeout A s : frames A s (startInitialStateTimeout s).
Proof. unfold startInitialStateTimeout. frames_cases. Qed.

Lemma frames_sendGroupUpdate A st gid gname s :
  A KText = true -> frames A s (sendGroupUpdate st gid gname s).
Proof. intros H. unfold sendGroupUpdate. frames_cases. Qed.

Lemma frames_applyPreferredStreamFormat A s : frames A s (applyPreferredStreamFormat s).
Proof. unfold applyPreferredStreamFormat. frames_cases. Qed.

#[local] Hint Resolve frames_ensureStreamStarted frames_sendServerHello
  frames_startInitialStateTimeout frames_sendGroupUpdate
  frames_applyPreferredStreamFormat : frames.

Lemma frames_handleClientTime A payload clk s :
  A KText = true -> A KThrown = true -> frames A s (handleClientTime payload clk s).
Proof. intros H1 H2. unfold handleClientTime. frames_cases. Qed.

Lemma frames_handleClientCommand A payload s :
  A KHook = true -> A KThrown = true -> frames A s (handleClientCommand payload s).
Proof. intros H1 H2. unfold handleClientCommand. frames_cases. Qed.

Lemma frames_handleClientGoodbye A payload s :
  A KHook = true -> A KClose = true -> frames A s (handleClientGoodbye payload s).
Proof. intros H1 H2. unfold handleClientGoodbye. frames_cases. Qed.

Lemma frames_applyPlayerFormatRequest A request s :
  frames A s (applyPlayerFormatRequest request s).
Proof. unfold applyPlayerFormatRequest. frames_cases. Qed.

Lemma frames_sendArtworkStreamStart A chans s :
  A KText = true -> frames A s (sendArtworkStreamStart chans s).
Proof. intros H. unfold sendArtworkStreamStart. frames_cases. Qed.

#[local] Hint Resolve frames_handleClientTime frames_handleClientCommand
  frames_handleClientGoodbye frames_applyPlayerFormatRequest
  frames_sendArtworkStreamStart : frames.

Lemma frames_applyArtworkFormatRequest A request s :
  A KText = true -> frames A s (applyArtworkFormatRequest request s).
Proof. intros H. unfold applyArtworkFormatRequest. frames_cases. Qed.

#[local] Hint Resolve frames_applyArtworkFormatRequest : frames.

Lemma frames_handleStreamRequestFormat A payload s :
  A KText = true -> A KHook = true -> A KThrown = true ->
  frames A s (handleStreamRequestFormat payload s).
Proof. intros H1 H2 H3. unfold handleStreamRequestFormat. frames_cases. Qed.

Lemma frames_destroy A s : A KHook = true -> frames A s (destroy s).
Proof. intros H. unfold destroy. frames_cases. Qed.

Lemma frames_handleBinary A buf s : A KHook = true -> frames A s (handleBinary buf s).
Proof. intros H. unfold handleBinary. frames_cases. Qed.

Lemma frames_sendStreamStart A fmt s : A KText = true -> frames A s (sendStreamStart fmt s).
Proof. intros H. unfold sendStreamStart. frames_cases. Qed.

Lemma frames_sendStreamClear A rs s : A KText = true -> frames A s (sendStreamClear rs s).
Proof. intros H. unfold sendStreamClear. frames_cases. Qed.

Lemma frames_sendStreamEnd A rs s : A KText = true -> frames A s (sendStreamEnd rs s).
Proof. intros H. unfold sendStreamEnd. frames_cases. Qed.

Lemma frames_writePcm A frame clk s :
  A KBinary = true -> A KThrown = true -> frames A s (writePcm frame clk s).
Proof. intros H1 H2. unfold writePcm. frames_cases. Qed.

#[local] Hint Resolve frames_handleStreamRequestFormat frames_destroy frames_handleBinary
  frames_sendStreamStart frames_sendStreamClear frames_sendStreamEnd
  frames_writePcm : frames.

Lemma frames_sendPcmAudioFrame A frame clk s :
  A KText = true -> A KBinary = true -> A KThrown = true ->
  frames A s (sendPcmAudioFrame frame clk s).
Proof. intros H1 H2 H3. unfold sendPcmAudioFrame. frames_cases. Qed.

Lemma frames_pcmRetry A frame clk s :
  A KBinary = true -> A KThrown = true -> frames A s (pcmRetry frame clk s).
Proof. intros H1 H2. unfold pcmRetry. frames_cases. Qed.

Lemma frames_initialStateTimeout A s :
  A KClose = true -> frames A s (initialStateTimeout s).
Proof. intros H. unfold initialStateTimeout. frames_cases. Qed.

Lemma frames_sendServerCommand A p v m s :
  A KText = true -> A KThrown = true -> frames A s (sendServerCommand p v m s).
Proof. intros H1 H2. unfold sendServerCommand. frames_cases. Qed.

Lemma frames_sendMetadata A metadata clk s :
  A KText = true -> frames A s (sendMetadata metadata clk s).
Proof. intros H. unfold sendMetadata. frames_cases. Qed.

Lemma frames_sendControllerState A controller s :
  A KText = true -> frames A s (sendControllerState controller s).
Proof. intros H. unfold sendControllerState. frames_cases. Qed.

Lemma frames_sendArtwork A channel imageData clk s :
  A KBinary = true -> A KThrown = true -> frames A s (sendArtwork channel imageData clk s).
Proof. intros H1 H2. unfold sendArtwork. frames_cases. Qed.

Lemma frames_sendVisualizerStreamStart A config s :
  A KText = true -> frames A s (sendVisualizerStreamStart config s).
Proof. intros H. unfold sendVisualizerStreamStart. frames_cases. Qed.

Lemma frames_sendVisualizerFrame A buf ts clk s :
  A KBinary = true -> A KThrown = true -> frames A s (sendVisualizerFrame buf ts clk s).
Proof. intros H1 H2. unfold sendVisualizerFrame. frames_cases. Qed.

Lemma frames_getBackpressureStats A clk s : frames A s (getBackpressureStats clk s).
Proof. unfold getBackpressureStats. frames_cases. Qed.

#[local] Hint Resolve frames_sendPcmAudioFrame frames_pcmRetry frames_initialStateTimeout
  frames_sendServerCommand frames_sendMetadata frames_sendControllerState
  frames_sendArtwork frames_sendVisualizerStreamStart frames_sendVisualizerFrame
  frames_getBackpressureStats : frames.

Lemma frames_timerFires A i clk s :
  A KBinary = true -> A KThrown = true -> A KClose = true ->
  frames A s (timerFires i clk s).
Proof. intros H1 H2 H3. unfold timerFires. frames_cases. Qed.

#[local] Hint Resolve frames_timerFires : frames.

(** ** The identification gate *)

Lemma quiet_refl s : quiet s s.
Proof. split; [reflexivity | apply emits_refl]. Qed.

Lemma quiet_trans s t s' : quiet s t -> quiet t s' -> quiet s s'.
Proof.
  intros [I1 E1] [I2 E2]. split; [congruence | eapply emits_trans; eassumption].
Qed.

Lemma quiet_same s s' : identified s' = identified s -> log s' = log s -> quiet s s'.
Proof. intros I L. split; [exact I | now apply emits_same_log]. Qed.

Lemma quiet_of_frames s s' : frames (all_but KIdentified) s s' -> quiet s s'.
Proof.
  intros [G E]. split; [|exact E].
  unfold gate in G. now injection G.
Qed.

Ltac quiet_layers :=
  lazymatch goal with
  | |- quiet ?s ?s => apply quiet_refl
  | |- quiet ?s (?f ?t) =>
      apply (quiet_trans s t);
      [ quiet_layers
      | first [ apply quiet_same; reflexivity
              | apply quiet_of_frames; solve [ eauto 3 with frames ] ] ]
  end.

(** Events other than the call of [onIdentified] do not count. *)
Lemma identifications_emits s s' :
  emits (all_but KIdentified) s s' -> identifications s' = identifications s.
Proof.
  intros [evs [L F]]. unfold identifications. rewrite L, List.filter_app, length_app.
  assert (H : List.filter is_identified_call evs = []).
  { clear L. induction evs as [|e evs IH]; [reflexivity|].
    cbn in F. apply andb_prop in F as [Fe F]. cbn.
    destruct e; cbn in Fe; try discriminate Fe; cbn; now apply IH. }
  rewrite H. cbn. lia.
Qed.

Lemma identified_once_unidentified s :
  identified s = false -> identifications s = 0%nat -> identified_once s.
Proof.
  intros I N. split; [rewrite I; discriminate | now rewrite I].
Qed.

Lemma identified_once_frames s s' :
  frames (all_but KIdentified) s s' -> identified_once s -> identified_once s'.
Proof.
  intros [G E] [H1 H2]. unfold gate in G. injection G as Gr Gi Gq Gv.
  split.
  - rewrite Gi, Gr, Gq, Gv. exact H1.
  - rewrite (identifications_emits _ _ E), Gi. exact H2.
Qed.

Lemma identified_once_maybeNotifyIdentified s :
  identified_once s -> identified_once (maybeNotifyIdentified s).
Proof.
  intros [H1 H2]. unfold maybeNotifyIdentified.
  destruct (identified s) eqn:I; [split; [now rewrite I | now rewrite I]|].
  destruct (ready s) eqn:R; cbn [negb orb];
    [|split; [now rewrite I | now rewrite I]].
  destruct (onIdentified (hooks s)); cbn [negb];
    [|split; [now rewrite I | now rewrite I]].
  destruct (initialStateRequired s) eqn:Q, (initialStateReceived s) eqn:V;
    cbn [negb andb];
    try (split; [now rewrite I | now rewrite I]);
    (split;
     [ intros _; cbn; rewrite R, Q, V; auto
     | cbn [identified set_identified]; unfold identifications in *; cbn [log set_identified emit set_log];
       rewrite List.filter_app, length_app, H2; reflexivity ]).
Qed.

Lemma identified_once_received s :
  identified_once s -> identified_once (set_initialStateReceived true s).
Proof.
  intros [H1 H2]. split; [|exact H2].
  cbn. intros I. destruct (H1 I) as [R _]. auto.
Qed.

Lemma quiet_unidentified s s' :
  quiet s s' -> identified s = false -> identifications s = 0%nat ->
  identified_once s'.
Proof.
  intros [I E] Hi Hn. apply identified_once_unidentified.
  - congruence.
  - now rewrite (identifications_emits _ _ E).
Qed.

Lemma reaches_quiet s r : quiet s r -> reaches s r.
Proof. intros Q. exists r. auto. Qed.

Lemma reaches_notify s t : quiet s t -> reaches s (maybeNotifyIdentified t).
Proof. intros Q. exists t. auto. Qed.

Lemma reaches_trans s t r : quiet s t -> reaches t r -> reaches s r.
Proof.
  intros Q [u [Q' E]]. exists u. split; [eapply quiet_trans; eassumption | exact E].
Qed.

(** One step through a body written as a chain of [let]s: the bound value
    is named; when it is a session, it is shown to be reached quietly and
    then forgotten. *)
Ltac reach_let Hq :=
  lazymatch goal with
  | |- reaches ?s0 (let x := ?v in @?B x) =>
      let x' := fresh "s" in
      pose (x' := v);
      change (reaches s0 (B x')); cbv beta;
      first [ let Hq' := fresh "Hq" in
              assert (Hq' : quiet s0 x')
                by (eapply quiet_trans; [exact Hq|]; subst x';
                    repeat case_match; quiet_layers);
              clear Hq; rename Hq' into Hq; clearbody x'
            | idtac ]
  | |- reaches ?s0 (if ?c then _ else _) => destruct c eqn:?
  | |- reaches ?s0 (match ?c with _ => _ end) => destruct c eqn:?
  end.

(** The same for [frames]. *)
Ltac frames_let Hq :=
  lazymatch goal with
  | |- frames ?A ?s0 (let x := ?v in @?B x) =>
      let x' := fresh "s" in
      pose (x' := v);
      change (frames A s0 (B x')); cbv beta;
      first [ let Hq' := fresh "Hq" in
              assert (Hq' : frames A s0 x')
                by (eapply frames_trans; [exact Hq|]; subst x';
                    repeat case_match; frames_layers);
              clear Hq; rename Hq' into Hq; clearbody x'
            | idtac ]
  | |- frames _ _ (if ?c then _ else _) => destruct c eqn:?
  | |- frames _ _ (match ?c with _ => _ end) => destruct c eqn:?
  end.

Ltac frames_end Hq := eapply frames_trans; [exact Hq|]; frames_layers.

Ltac reach_end Hq :=
  first [ apply reaches_notify; exact Hq
        | apply reaches_quiet; eapply quiet_trans; [exact Hq|]; quiet_layers ].

(** [completeHello] is a quiet prefix, followed or not by
    [maybeNotifyIdentified]. *)
Lemma completeHello_reaches playerSupport sourceSupport artworkSupport unsupported s :
  reaches s (completeHello playerSupport sourceSupport artworkSupport unsupported s).
Proof.
  pose proof (quiet_refl s) as Hq.
  cbv beta delta [completeHello].
  repeat reach_let Hq; reach_end Hq.
Qed.

Lemma handleHello_reaches payload s : reaches s (handleHello payload s).
Proof.
  pose proof (quiet_refl s) as Hq.
  cbv beta delta [handleHello].
  repeat reach_let Hq;
    first [ reach_end Hq
          | eapply reaches_trans; [exact Hq | apply completeHello_reaches] ].
Qed.

Lemma identified_once_reaches s r :
  reaches s r -> identified s = false -> identifications s = 0%nat ->
  identified_once r.
Proof.
  intros [t [Q [E|E]]] I N; rewrite E.
  - apply identified_once_maybeNotifyIdentified. eapply quiet_unidentified; eassumption.
  - eapply quiet_unidentified; eassumption.
Qed.

Lemma identified_once_handleHello payload s :
  ready s = false -> identified_once s -> identified_once (handleHello payload s).
Proof.
  intros R [H1 H2].
  assert (I : identified s = false).
  { destruct (identified s); [|reflexivity]. destruct (H1 eq_refl); congruence. }
  rewrite I in H2.
  eapply identified_once_reaches; [apply handleHello_reaches | exact I | exact H2].
Qed.

Lemma identified_once_recordInitialState s :
  identified_once s -> identified_once (recordInitialState s).
Proof.
  intros H. unfold recordInitialState.
  destruct (initialStateReceived s); cbn [negb]; [exact H|].
  cbn zeta. apply identified_once_maybeNotifyIdentified.
  apply identified_once_received in H.
  destruct (initialStateTimer (set_initialStateReceived true s)); [|exact H].
  eapply identified_once_frames; [|exact H]. apply frames_same; reflexivity.
Qed.

Lemma frames_after_recordInitialState A payload s :
  A KHook = true -> A KThrown = true ->
  frames A (recordInitialState s) (handleClientState payload s).
Proof.
  intros H1 H2. cbv beta delta [handleClientState].
  generalize (recordInitialState s). intros t.
  pose proof (frames_refl A t) as Hq.
  repeat frames_let Hq; frames_end Hq.
Qed.

Lemma identified_once_handleClientState payload s :
  identified_once s -> identified_once (handleClientState payload s).
Proof.
  intros H. eapply identified_once_frames.
  - apply (frames_after_recordInitialState _ payload s); reflexivity.
  - now apply identified_once_recordInitialState.
Qed.

Lemma identified_once_setHooks h context s :
  identified_once s -> identified_once (setHooks h context s).
Proof.
  intros H. unfold setHooks. cbn zeta.
  apply identified_once_maybeNotifyIdentified.
  eapply identified_once_frames; [|exact H].
  destruct context; apply frames_same; reflexivity.
Qed.

Lemma identified_once_handleText parsed clk s :
  identified_once s -> identified_once (handleText parsed clk s).
Proof.
  intros H. unfold handleText.
  destruct parsed as [msg|]; [|exact H].
  destruct (get_strict msg "type") as [type|e];
    [|eapply identified_once_frames; [apply frames_throw; reflexivity | exact H]].
  cbn zeta. destruct (ready s) eqn:R; cbn [negb].
  - repeat case_match; try exact H;
      try (eapply identified_once_frames; [|exact H]; solve [eauto 3 with frames]).
    now apply identified_once_handleClientState.
  - destruct (is_str type "client/hello"); cbn [negb].
    + now apply identified_once_handleHello.
    + eapply identified_once_frames; [|exact H]. eauto 3 with frames.
Qed.

Lemma identified_once_step s o : identified_once s -> identified_once (step s o).
Proof.
  intros H. destruct o as [clk o]. unfold step. cbn [fst snd].
  destruct o;
    try (eapply identified_once_frames; [|exact H]; solve [eauto 3 with frames]).
  - now apply identified_once_handleText.
  - now apply identified_once_setHooks.
  - eapply identified_once_frames; [|exact H]. apply frames_same; reflexivity.
Qed.

Lemma identified_once_run ops s : identified_once s -> identified_once (run ops s).
Proof.
  revert s. induction ops as [|o ops IH]; intros s H; [exact H|].
  cbn [run fold_left]. apply IH, identified_once_step, H.
Qed.

Lemma identified_once_new w reason meta h : identified_once (new w reason meta h).
Proof. apply identified_once_unidentified; reflexivity. Qed.



(** ** Validation of the hello *)

Lemma truthy_coalesce_null (v : value) : truthy (coalesce v VNull) = truthy v.
Proof. destruct v; reflexivity. Qed.

Lemma lacks_block_support_block (payload : value) (fam : string) :
  negb (truthy (support_block payload (fam ++ "@v1_support") (fam ++ "_support")))
  = Spec.lacks_block fam payload.
Proof.
  unfold support_block, Spec.lacks_block, Spec.capability_block.
  now rewrite truthy_coalesce_null.
Qed.

(** Among server-supported roles, having the family of a supported literal
    is being that literal. *)
Lemma existsb_family (lit : string) (l : list string) :
  lit ∈ serverSupported ->
  (forall role, In role l -> role ∈ serverSupported) ->
  existsb (fun role => String.eqb (Spec.family role) (Spec.family lit)) l
  = existsb (String.eqb lit) l.
Proof.
  intros Hlit Hl. induction l as [|role l IH]; [reflexivity|].
  cbn [existsb]. rewrite IH by (intros r Hr; apply Hl; now right).
  f_equal.
  assert (Hrole : role ∈ serverSupported) by (apply Hl; now left).
  destruct (String.eqb_spec lit role) as [->|Hne].
  - apply String.eqb_refl.
  - apply String.eqb_neq. intros Hf. apply Hne. symmetry. now apply family_inj.
Qed.

Lemma active_roles_supported (payload : value) (role : string) :
  In role (Spec.active_roles payload) -> role ∈ serverSupported.
Proof.
  unfold Spec.active_roles, resolveActiveRoles.
  apply (Spec.ok_supported _ (resolve_fold_ok _ _ initial_resolution_ok)).
Qed.

Lemma family_active_has_role (lit fam : string) (payload : value) (s : SendspinSession) :
  lit ∈ serverSupported -> Spec.family lit = fam ->
  has_role lit (set_roles (Spec.active_roles payload) s) = Spec.family_active fam payload.
Proof.
  intros Hlit <-. unfold has_role, Spec.family_active. cbn [roles set_roles].
  symmetry. apply existsb_family; [exact Hlit | apply active_roles_supported].
Qed.

Lemma supported_literals :
  Roles.PLAYER ∈ serverSupported /\ Roles.ARTWORK ∈ serverSupported
  /\ Roles.VISUALIZER ∈ serverSupported /\ Roles.SOURCE ∈ serverSupported.
Proof.
  unfold serverSupported. rewrite !elem_of_union, !elem_of_singleton. tauto.
Qed.

(** [handleHello], case by case, in the terms of the specification. *)
Lemma handleHello_cases (payload : value) (s : SendspinSession) :
  handleHello payload s =
    if negb (Spec.version_is_1 payload) then close1008 "invalid protocol version" s
    else if String.eqb (Spec.trimmed_client_id payload) "" then close1008 "missing client_id" s
    else match Spec.supported_roles payload with
         | [] => close1008 "missing supported_roles" (Spec.with_identity payload s)
         | _ =>
             let s2 := set_roles (Spec.active_roles payload) (Spec.with_identity payload s) in
             match Spec.first_unsupported_family payload with
             | Some fam => close1008 ("missing " ++ fam ++ " support") s2
             | None =>
                 completeHello
                   (support_block payload "player@v1_support" "player_support")
                   (support_block payload "source@v1_support" "source_support")
                   (support_block payload "artwork@v1_support" "artwork_support")
                   (unsupportedRoles (resolveActiveRoles (Spec.supported_roles payload)))
                   s2
             end
         end.
Proof.
  destruct supported_literals as [Lp [La [Lv Ls]]].
  unfold handleHello, Spec.version_is_1, Spec.hello_version.
  destruct (match get payload "version" with
            | VNum n => Num.eqb n (Num.of_Z 1)
            | _ => false
            end) eqn:V.
  2: { destruct (get payload "version"); cbn [negb]; try reflexivity.
       now rewrite V. }
  replace (match match get payload "version" with
                 | VNum n => Some n
                 | _ => None
                 end with
           | Some n => Num.eqb n (Num.of_Z 1)
           | None => false
           end) with true
    by (destruct (get payload "version"); try discriminate V; now rewrite V).
  cbn [negb]. fold (Spec.trimmed_client_id payload).
  destruct (String.eqb (Spec.trimmed_client_id payload) ""); [reflexivity|].
  fold (Spec.supported_roles payload). fold (Spec.with_identity payload s).
  destruct (Spec.supported_roles payload) as [|entry rest] eqn:SR; [reflexivity|].
  rewrite <- SR. fold (Spec.active_roles payload).
  cbn zeta.
  rewrite (family_active_has_role Roles.PLAYER "player" payload _ Lp eq_refl).
  rewrite (family_active_has_role Roles.ARTWORK "artwork" payload _ La eq_refl).
  rewrite (family_active_has_role Roles.VISUALIZER "visualizer" payload _ Lv eq_refl).
  rewrite (family_active_has_role Roles.SOURCE "source" payload _ Ls eq_refl).
  pose proof (lacks_block_support_block payload "player") as Bp.
  pose proof (lacks_block_support_block payload "artwork") as Ba.
  pose proof (lacks_block_support_block payload "visualizer") as Bv.
  pose proof (lacks_block_support_block payload "source") as Bs.
  repeat match goal with
         | H : context [String.append ?a ?b] |- _ =>
             let r := eval vm_compute in (String.append a b) in
             change (String.append a b) with r in H
         end.
  rewrite Bp, Ba, Bv, Bs.
  unfold Spec.first_unsupported_family. cbn [List.find].
  destruct (Spec.family_active "player" payload && Spec.lacks_block "player" payload);
    [reflexivity|].
  destruct (Spec.family_active "artwork" payload && Spec.lacks_block "artwork" payload);
    [reflexivity|].
  destruct (Spec.family_active "visualizer" payload && Spec.lacks_block "visualizer" payload);
    [reflexivity|].
  destruct (Spec.family_active "source" payload && Spec.lacks_block "source" payload);
    reflexivity.
Qed.

Lemma emits_maybeNotifyIdentified A s :
  A KIdentified = true -> emits A s (maybeNotifyIdentified s).
Proof. intros H. unfold maybeNotifyIdentified. emits_cases. Qed.

#[local] Hint Resolve emits_maybeNotifyIdentified : emits.

Ltac emits_let Hq :=
  lazymatch goal with
  | |- emits ?A ?s0 (let x := ?v in @?B x) =>
      let x' := fresh "s" in
      pose (x' := v);
      change (emits A s0 (B x')); cbv beta;
      first [ let Hq' := fresh "Hq" in
              assert (Hq' : emits A s0 x')
                by (eapply emits_trans; [exact Hq|]; subst x';
                    repeat case_match; emits_layers);
              clear Hq; rename Hq' into Hq; clearbody x'
            | idtac ]
  | |- emits _ _ (if ?c then _ else _) => destruct c eqn:?
  | |- emits _ _ (match ?c with _ => _ end) => destruct c eqn:?
  end.

Ltac emits_end Hq := eapply emits_trans; [exact Hq|]; emits_layers.

(** An accepted hello writes texts and calls hooks; it may end in an
    exception; it does not close the socket. *)
Lemma emits_completeHello A playerSupport sourceSupport artworkSupport unsupported s :
  A KText = true -> A KHook = true -> A KIdentified = true -> A KThrown = true ->
  emits A s (completeHello playerSupport sourceSupport artworkSupport unsupported s).
Proof.
  intros H1 H2 H3 H4. pose proof (emits_refl A s) as Hq.
  cbv beta delta [completeHello].
  repeat emits_let Hq; emits_end Hq.
Qed.

(** What [handleHello] adds to the log: the close of a rejection, or
    events that are not closes. *)
Lemma handleHello_log (payload : value) (s : SendspinSession) :
  exists evs,
    log (handleHello payload s) = log s ++ evs
    /\ match Spec.hello_rejection payload with
       | Some r => evs = [WsClose (Some 1008) (Some r)]
                   /\ ready (handleHello payload s) = ready s
       | None => forallb (fun e => all_but KClose (kind_of e)) evs = true
       end.
Proof.
  rewrite handleHello_cases. unfold Spec.hello_rejection.
  destruct (negb (Spec.version_is_1 payload));
    [eexists; split; [reflexivity | split; reflexivity]|].
  destruct (String.eqb (Spec.trimmed_client_id payload) "");
    [eexists; split; [reflexivity | split; reflexivity]|].
  destruct (Spec.supported_roles payload) as [|entry rest];
    [eexists; split; [reflexivity | split; reflexivity]|].
  cbn zeta.
  destruct (Spec.first_unsupported_family payload) as [fam|];
    [eexists; split; [reflexivity | split; reflexivity]|].
  match goal with
  | |- context [completeHello ?a ?b ?c ?d ?t] =>
      destruct (emits_completeHello (all_but KClose) a b c d t
                  eq_refl eq_refl eq_refl eq_refl) as [evs [L F]]
  end.
  exists evs. split; [exact L | exact F].
Qed.

(** A hello arriving before the session is ready goes to [handleHello]. *)
Lemma handleText_hello (msg : value) (clk : Clock) (s : SendspinSession) :
  ready s = false ->
  get msg "type" = VStr "client/hello" ->
  handleText (Some msg) clk s = handleHello (get msg "payload") s.
Proof.
  intros R T. unfold handleText, get_strict.
  destruct msg; try discriminate T.
  cbn [nullish]. rewrite T, R. reflexivity.
Qed.

Lemma no_close_among (evs : list event) :
  forallb (fun e => all_but KClose (kind_of e)) evs = true ->
  forall code reason, ~ In (WsClose code reason) evs.
Proof.
  intros F code reason Hin.
  rewrite forallb_forall in F. specialize (F _ Hin). discriminate F.
Qed.

Lemma first_unsupported_family_in (payload : value) (fam : string) :
  Spec.first_unsupported_family payload = Some fam ->
  In fam ["player"; "artwork"; "visualizer"; "source"]%string.
Proof. intros H. apply find_some in H. exact (proj1 H). Qed.

(** Only a text message makes a session ready. *)
Lemma ready_maybeNotifyIdentified (s : SendspinSession) :
  ready (maybeNotifyIdentified s) = ready s.
Proof. unfold maybeNotifyIdentified. repeat case_match; reflexivity. Qed.

Lemma ready_step_other (s : SendspinSession) (o : Clock * op) :
  is_text (snd o) = false -> ready (step s o) = ready s.
Proof.
  destruct o as [clk o]. cbn [snd]. intros H. unfold step. cbn [fst snd].
  destruct o; try discriminate H;
    try (match goal with
         | |- ready ?t = ready ?s =>
             assert (F : frames (fun _ => true) s t) by eauto 3 with frames;
             destruct F as [G _]; unfold gate in G; now injection G
         end).
  - unfold setHooks. cbn zeta. rewrite ready_maybeNotifyIdentified.
    destruct context; reflexivity.
  - reflexivity.
  - reflexivity.
Qed.

Lemma ready_run_other (ops : list (Clock * op)) (s : SendspinSession) :
  Forall (fun o => is_text (snd o) = false) ops -> ready (run ops s) = ready s.
Proof.
  revert s. induction ops as [|o ops IH]; intros s H; [reflexivity|].
  cbn [run fold_left]. inversion H as [|? ? Ho Hops]; subst.
  fold (run ops (step s o)). rewrite (IH _ Hops). now apply ready_step_other.
Qed.

(** The closes of a hello handled while the session awaits it. *)
Lemma hello_validation_events (s : SendspinSession) (msg : value) (clk : Clock) :
  ready s = false ->
  get msg "type" = VStr "client/hello" ->
  let payload := get msg "payload" in
  let s' := handleText (Some msg) clk s in
  exists evs : list event,
    log s' = log s ++ evs
    /\ let closes (r : string) := In (WsClose (Some 1008) (Some r)) evs in
       let version_ok := Spec.version_is_1 payload = true in
       let has_id := Spec.trimmed_client_id payload <> ""%string in
       (closes "invalid protocol version"%string <-> Spec.version_is_1 payload = false)
       /\ (closes "missing client_id"%string
           <-> version_ok /\ Spec.trimmed_client_id payload = ""%string)
       /\ (closes "missing supported_roles"%string
           <-> version_ok /\ has_id /\ Spec.supported_roles payload = [])
       /\ (forall fam : string,
             In fam ["player"; "artwork"; "visualizer"; "source"]%string ->
             closes ("missing " ++ fam ++ " support")%string
             <-> version_ok /\ has_id /\ Spec.supported_roles payload <> []
                 /\ Spec.first_unsupported_family payload = Some fam)
       /\ (forall code reason,
             In (WsClose code reason) evs ->
             ready s' = false /\ code = Some 1008
             /\ exists r, reason = Some r /\ Spec.hello_rejection payload = Some r).
Proof.
  intros R T payload s'. subst s'. rewrite (handleText_hello msg clk s R T).
  fold payload. destruct (handleHello_log payload s) as [evs [L M]].
  exists evs. split; [exact L|]. cbn zeta.
  unfold Spec.hello_rejection in *.
  assert (Hfams : forall fam : string,
             In fam ["player"; "artwork"; "visualizer"; "source"]%string ->
             fam = "player"%string \/ fam = "artwork"%string
             \/ fam = "visualizer"%string \/ fam = "source"%string)
    by (cbn [In]; intuition).
  destruct (Spec.version_is_1 payload) eqn:V; cbn [negb] in M;
    [destruct (String.eqb_spec (Spec.trimmed_client_id payload) "") as [E|E];
     [|destruct (Spec.supported_roles payload) as [|entry rest] eqn:SR;
       [|destruct (Spec.first_unsupported_family payload) as [fam0|] eqn:F]]|].
  4: { (* the hello is accepted *)
       pose proof (no_close_among evs M) as NC.
       split; [|split; [|split; [|split]]].
       - split; [intros H; exfalso; exact (NC _ _ H) | congruence].
       - split; [intros H; exfalso; exact (NC _ _ H) | intros [_ H]; contradiction].
       - split; [intros H; exfalso; exact (NC _ _ H) | intros [_ [_ H]]; discriminate H].
       - intros fam Hfam.
         split; [intros H; exfalso; exact (NC _ _ H) | intros [_ [_ [_ H]]]; discriminate H].
       - intros code reason H. exfalso. exact (NC _ _ H). }
  (* the hello is rejected *)
  all: destruct M as [-> Rd]; rewrite Rd, R.
  3: { apply first_unsupported_family_in in F as Hin. apply Hfams in Hin.
       destruct Hin as [->|[->|[->| ->]]].
       all: split; [|split; [|split; [|split]]].
       all: try (intros code reason [H|[]]; injection H as <- <-;
                 repeat split; eexists; split; reflexivity).
       all: try (intros fam Hfam; apply Hfams in Hfam;
                 destruct Hfam as [->|[->|[->| ->]]]).
       all: cbv [String.append].
       all: (split;
             [ intros [H|[]]; first [ exfalso; congruence | repeat split; auto; congruence ]
             | intros P; first [ left; reflexivity | exfalso; intuition congruence ] ]). }
  all: split; [|split; [|split; [|split]]].
  all: try (intros code reason [H|[]]; injection H as <- <-;
            repeat split; eexists; split; reflexivity).
  all: try (intros fam Hfam; apply Hfams in Hfam;
            destruct Hfam as [->|[->|[->| ->]]]).
  all: cbv [String.append].
  all: (split;
        [ intros [H|[]]; first [ exfalso; congruence | repeat split; auto; congruence ]
        | intros P; first [ left; reflexivity | exfalso; intuition congruence ] ]).
Qed.



(** ** The registry *)

Lemma getSession_skip (clientId : string) (entries : list (nat * SendspinSession))
    (acc : Core.candidates) :
  (forall e, In e entries -> Core.id_matches clientId (snd e) = false) ->
  fold_left (Core.getSession_step clientId) entries acc = acc.
Proof.
  revert acc. induction entries as [|e entries IH]; intros acc H; [reflexivity|].
  cbn [fold_left]. unfold Core.getSession_step at 2.
  rewrite (H e) by now left. apply IH. intros e' He'. apply H. now right.
Qed.

(** A session that alone carries a client id is the one the lookup finds. *)
Lemma getSession_only (clientId : string) (before after : list (nat * SendspinSession))
    (n : nat) (session : SendspinSession) :
  Core.id_matches clientId session = true ->
  (forall e, In e (before ++ after) -> Core.id_matches clientId (snd e) = false) ->
  Core.getSession clientId (Core.mkCore (before ++ (n, session) :: after)) = Some session.
Proof.
  intros Hm Hothers. unfold Core.getSession. cbn [Core.sessionsBySocket].
  rewrite fold_left_app. cbn [fold_left].
  rewrite !(getSession_skip clientId before)
    by (intros e He; apply Hothers, in_or_app; now left).
  rewrite !(getSession_skip clientId after)
    by (intros e He; apply Hothers, in_or_app; now right).
  unfold Core.getSession_step. cbn [snd]. rewrite Hm.
  cbn [Core.preferred Core.fallback Core.is_none andb].
  rewrite andb_true_r.
  destruct (Core.is_playback session); reflexivity.
Qed.

(** C9. A hello that reaches the [supported_roles] check or a capability
    check and fails there closes the socket and leaves the session not
    ready, yet the session keeps the client id of the rejected hello, and,
    after a capability failure, the roles resolved from it; a registry in
    which no other session has that client id returns the rejected session
    for it. *)
Theorem C9_rejected_hello_not_atomic (s : SendspinSession) (payload : value) :
  ready s = false ->
  let s' := handleHello payload s in
  let id := Spec.trimmed_client_id payload in
  (Spec.rejected_at_roles payload \/ Spec.rejected_at_capability payload ->
   (exists reason, log s' = log s ++ [WsClose (Some 1008) (Some reason)])
   /\ ready s' = false
   /\ getClientId s' = Some id
   /\ forall (before after : list (nat * SendspinSession)) (n : nat),
        (forall e, In e (before ++ after) -> Core.id_matches id (snd e) = false) ->
        Core.getSession id (Core.mkCore (before ++ (n, s') :: after)) = Some s')
  /\ (Spec.rejected_at_capability payload ->
      getRoles s' = Spec.active_roles payload).
Proof.
  intros R s' id.
  assert (Hroles : Spec.rejected_at_roles payload ->
                   s' = close1008 "missing supported_roles" (Spec.with_identity payload s)).
  { intros [V [E SR]]. subst s'. rewrite handleHello_cases, V, SR. cbn [negb].
    apply String.eqb_neq in E. now rewrite E. }
  assert (Hcap : Spec.rejected_at_capability payload ->
                 exists fam,
                   s' = close1008 ("missing " ++ fam ++ " support")
                          (set_roles (Spec.active_roles payload) (Spec.with_identity payload s))).
  { intros [V [E [SR F]]]. subst s'. rewrite handleHello_cases, V. cbn [negb].
    apply String.eqb_neq in E. rewrite E.
    destruct (Spec.supported_roles payload); [contradiction|]. cbn zeta.
    destruct (Spec.first_unsupported_family payload) as [fam|]; [|contradiction].
    now exists fam. }
  split.
  - intros H.
    assert (Hfacts : (exists reason, log s' = log s ++ [WsClose (Some 1008) (Some reason)])
                     /\ ready s' = false /\ getClientId s' = Some id).
    { destruct H as [H|H].
      - rewrite (Hroles H). split; [eexists; reflexivity|]. split; [exact R | reflexivity].
      - destruct (Hcap H) as [fam ->].
        split; [eexists; reflexivity|]. split; [exact R | reflexivity]. }
    destruct Hfacts as [Hlog [Hready Hid]].
    split; [exact Hlog|]. split; [exact Hready|]. split; [exact Hid|].
    intros before after n Hothers. apply getSession_only; [|exact Hothers].
    unfold Core.id_matches. rewrite Hid. apply String.eqb_refl.
  - intros H. destruct (Hcap H) as [fam ->]. reflexivity.
Qed.

Lemma C9_rejected_hello_not_atomic_witness :
  let s := new (mkWs OPEN 0) PLAYBACK (mkMeta None None None) no_hooks in
  let payload := VObj [("version", VNum (Num.of_Z 1)); ("client_id", VStr " kitchen ");
                       ("supported_roles", VArr [VStr "player@v1"])]%string in
  ready s = false
  /\ Spec.rejected_at_capability payload
  /\ ready (handleHello payload s) = false
  /\ getClientId (handleHello payload s) = Some "kitchen"%string
  /\ getRoles (handleHello payload s) = ["player@v1"%string]
  /\ Core.getSession "kitchen" (Core.mkCore [(0%nat, handleHello payload s)])
     = Some (handleHello payload s).
Proof.
  cbn zeta.
  assert (Hcap : Spec.rejected_at_capability
                   (VObj [("version", VNum (Num.of_Z 1)); ("client_id", VStr " kitchen ");
                          ("supported_roles", VArr [VStr "player@v1"])]%string)).
  { split; [reflexivity|]. split; [vm_compute; discriminate|].
    split; [vm_compute; discriminate | vm_compute; discriminate]. }
  destruct (C9_rejected_hello_not_atomic
              (new (mkWs OPEN 0) PLAYBACK (mkMeta None None None) no_hooks)
              (VObj [("version", VNum (Num.of_Z 1)); ("client_id", VStr " kitchen ");
                     ("supported_roles", VArr [VStr "player@v1"])]%string)
              eq_refl) as [H1 H2].
  destruct (H1 (or_intror Hcap)) as [_ [Hready [Hid Hlookup]]].
  split; [reflexivity|]. split; [exact Hcap|]. split; [exact Hready|].
  split; [exact Hid|]. split; [rewrite (H2 Hcap); vm_compute; reflexivity|].
  apply (Hlookup [] [] 0%nat). intros e [].
Defined.

(** ** Backpressure *)

Lemma binary_writes_emit (e : event) (s : SendspinSession) :
  binary_writes (emit e s)
  = binary_writes s ++ match e with
                       | WsSendBinary buf buffered => [(buf, buffered)]
                       | _ => []
                       end.
Proof.
  unfold binary_writes. cbn [log emit set_log].
  rewrite flat_map_app. cbn [flat_map]. now rewrite app_nil_r.
Qed.

Lemma binary_writes_emits (s s' : SendspinSession) :
  emits (all_but KBinary) s s' -> binary_writes s' = binary_writes s.
Proof.
  intros [evs [L F]]. unfold binary_writes. rewrite L, flat_map_app.
  assert (H : flat_map (fun e => match e with
                                 | WsSendBinary buf buffered => [(buf, buffered)]
                                 | _ => []
                                 end) evs = []).
  { clear L. induction evs as [|e evs IH]; [reflexivity|].
    cbn in F. apply andb_prop in F as [Fe F]. cbn [flat_map].
    rewrite (IH F). destruct e; try reflexivity. discriminate Fe. }
  rewrite H. apply app_nil_r.
Qed.

Lemma ensureStreamStarted_fields (s : SendspinSession) :
  ws (ensureStreamStarted s) = ws s
  /\ timers (ensureStreamStarted s) = timers s
  /\ backpressureDrops (ensureStreamStarted s) = backpressureDrops s.
Proof.
  unfold ensureStreamStarted, sendStreamFormat, sendJson.
  repeat case_match; repeat split; reflexivity.
Qed.

(** The 5 ms retry writes the frame although the buffered amount is still
    over the threshold. *)
Lemma C2_backpressure_counterexample :
  let frame := mkFrame [x01] (Some (Num.of_Z 5)) in
  let clk := mkClock (Num.of_Z 0) (Num.of_Z 0) 0 in
  let s := run [(clk, SendPcmAudioFrame frame); (clk, TimerFires 0%nat)]
             (new (mkWs OPEN 614400) DISCOVERY (mkMeta None None None) no_hooks) in
  binary_writes s = [([x04; x00; x00; x00; x00; x00; x00; x00; x05; x01], 614400)]
  /\ 614400 > maxBufferedSend
  /\ ~ never_written_over_threshold s.
Proof.
  cbn zeta. split; [vm_compute; reflexivity|]. split; [reflexivity|].
  intros H.
  specialize (H [x04; x00; x00; x00; x00; x00; x00; x00; x05; x01] 614400).
  assert (Hin : In ([x04; x00; x00; x00; x00; x00; x00; x00; x05; x01], 614400)
                  (binary_writes
                     (run [(mkClock (Num.of_Z 0) (Num.of_Z 0) 0,
                            SendPcmAudioFrame (mkFrame [x01] (Some (Num.of_Z 5))));
                           (mkClock (Num.of_Z 0) (Num.of_Z 0) 0, TimerFires 0%nat)]
                        (new (mkWs OPEN 614400) DISCOVERY (mkMeta None None None) no_hooks))))
    by (vm_compute; left; reflexivity).
  specialize (H Hin). vm_compute in H. apply H. reflexivity.
Qed.

(** C2, amended.  [sendBinary] writes a frame only when the transport is
    OPEN; when the caller passes allow-drop and the buffered amount exceeds
    [maxBufferedSend] (512 KiB) the frame is not written, the drop counter
    grows by one and nothing is queued; otherwise the frame is written.
    [sendPcmAudioFrame] on an OPEN transport whose buffered amount exceeds
    the threshold writes no binary frame in that call and schedules one
    retry.  The retry re-checks the OPEN state only: on an OPEN transport it
    writes the frame whatever the buffered amount is, without allow-drop. *)
Theorem C2_backpressure_amended (s : SendspinSession) (clk : Clock) :
  (forall (buf : list byte) (allowDrop : bool),
     let s' := sendBinary buf allowDrop clk s in
     if is_open s then
       if allowDrop && (bufferedAmount (ws s) >? maxBufferedSend) then
         binary_writes s' = binary_writes s
         /\ backpressureDrops s' = backpressureDrops s + 1
         /\ lastBackpressureBytes s' = bufferedAmount (ws s)
         /\ timers s' = timers s
       else
         binary_writes s' = binary_writes s ++ [(buf, bufferedAmount (ws s))]
         /\ backpressureDrops s' = backpressureDrops s
     else s' = s)
  /\ (forall frame : SendspinPcmFrame,
        is_open s = true ->
        bufferedAmount (ws s) > maxBufferedSend ->
        let s' := sendPcmAudioFrame frame clk s in
        binary_writes s' = binary_writes s
        /\ timers s' = timers s ++ [PcmRetry frame]
        /\ backpressureDrops s' = backpressureDrops s)
  /\ (forall (frame : SendspinPcmFrame) (header : list byte),
        Binary.packBinaryHeaderRaw (Num.of_Z Binary.AUDIO_CHUNK) (pcm_timestamp frame clk)
        = Ok header ->
        let s' := pcmRetry frame clk s in
        if is_open s then
          binary_writes s'
          = binary_writes s ++ [(header ++ data frame, bufferedAmount (ws s))]
          /\ backpressureDrops s' = backpressureDrops s
        else s' = s).
Proof.
  split; [|split].
  - intros buf allowDrop. cbn zeta. unfold sendBinary.
    destruct (is_open s); cbn [negb]; [|reflexivity].
    destruct (allowDrop && (bufferedAmount (ws s) >? maxBufferedSend)).
    + repeat split; reflexivity.
    + unfold ws_send_binary. rewrite binary_writes_emit. split; reflexivity.
  - intros frame Hopen Hover. cbn zeta. unfold sendPcmAudioFrame.
    rewrite Hopen. cbn [negb]. cbn zeta.
    destruct (ensureStreamStarted_fields s) as [Hws [Htimers Hdrops]].
    rewrite Hws.
    destruct (Z.gtb_spec (bufferedAmount (ws s)) maxBufferedSend) as [_|Hle]; [|lia].
    cbn [timers set_timers backpressureDrops]. rewrite Htimers, Hdrops.
    split; [|split; reflexivity].
    transitivity (binary_writes (ensureStreamStarted s)).
    + reflexivity.
    + apply binary_writes_emits, frames_emits, frames_ensureStreamStarted. reflexivity.
  - intros frame header Hpack. cbn zeta. unfold pcmRetry.
    destruct (is_open s) eqn:Hopen; [|reflexivity].
    unfold writePcm. fold (pcm_timestamp frame clk). rewrite Hpack.
    unfold sendBinary. rewrite Hopen. cbn [negb andb].
    unfold ws_send_binary. rewrite binary_writes_emit. split; reflexivity.
Qed.

Lemma C2_backpressure_amended_witness :
  let s := new (mkWs OPEN 614400) DISCOVERY (mkMeta None None None) no_hooks in
  let clk := mkClock (Num.of_Z 0) (Num.of_Z 0) 0 in
  let frame := mkFrame [x01] (Some (Num.of_Z 5)) in
  is_open s = true
  /\ bufferedAmount (ws s) > maxBufferedSend
  /\ binary_writes (sendPcmAudioFrame frame clk s) = binary_writes s
  /\ timers (sendPcmAudioFrame frame clk s) = timers s ++ [PcmRetry frame]
  /\ binary_writes (pcmRetry frame clk s)
     = binary_writes s ++ [([x04; x00; x00; x00; x00; x00; x00; x00; x05] ++ [x01], 614400)].
Proof.
  cbn zeta.
  destruct (C2_backpressure_amended
              (new (mkWs OPEN 614400) DISCOVERY (mkMeta None None None) no_hooks)
              (mkClock (Num.of_Z 0) (Num.of_Z 0) 0)) as [_ [Hpcm Hretry]].
  split; [reflexivity|]. split; [reflexivity|].
  destruct (Hpcm (mkFrame [x01] (Some (Num.of_Z 5))) eq_refl eq_refl) as [Hw [Ht _]].
  split; [exact Hw|]. split; [exact Ht|].
  exact (proj1 (Hretry (mkFrame [x01] (Some (Num.of_Z 5)))
                  [x04; x00; x00; x00; x00; x00; x00; x00; x05] eq_refl)).
Defined.

(** ** The client *)

(** C8. On a connected client, [sendSourceAudioChunk] with a server
    timestamp (an integer in the signed 64-bit range) writes exactly the
    header of type 12 with that timestamp followed by the data, and the
    header unpacks to (12, timestamp); without a server timestamp it fails
    with the missing-timestamp error when there is no capture timestamp
    either, with the not-synchronized error when the time filter is not
    synchronized, and otherwise does what it does with the server timestamp
    [computeServerTime(captureTimestampUs)] of the time filter, the static
    delay playing no part; with server timestamp 1_000_000 the bytes written
    are 12, then 1_000_000 as a big-endian 64-bit integer, then the data. *)
Theorem C8_source_audio_preconditions (c : Client.SendspinClient) (audioData : list byte) :
  Client.isConnected c = true ->
  (forall (ts : Z) (capture : option num),
     - 2 ^ 63 <= ts < 2 ^ 63 ->
     let header := Binary.byte_of_Z 12 :: Binary.be_bytes 8 (ts mod 2 ^ 64) in
     Client.sendSourceAudioChunk audioData capture (Some (Num.of_Z ts)) c
     = Ok (Client.emit [Client.WsSendBinary (header ++ audioData)] c)
     /\ Binary.unpackBinaryHeader (header ++ audioData)
        = Ok {| Binary.messageType := Num.of_Z 12; Binary.timestampUs := Num.of_Z ts |})
  /\ Client.sendSourceAudioChunk audioData None None c = Err MissingTimestamp
  /\ (forall capture : num,
        TimeFilter.isSynchronized (Client.timeFilter c) = false ->
        Client.sendSourceAudioChunk audioData (Some capture) None c = Err NotSynchronized)
  /\ (forall capture : num,
        TimeFilter.isSynchronized (Client.timeFilter c) = true ->
        Client.sendSourceAudioChunk audioData (Some capture) None c
        = Client.sendSourceAudioChunk audioData (Some capture)
            (Some (TimeFilter.computeServerTime (Client.timeFilter c) capture)) c)
  /\ Client.sendSourceAudioChunk audioData None (Some (Num.of_Z 1000000)) c
     = Ok (Client.emit
             [Client.WsSendBinary
                ([x0c; x00; x00; x00; x00; x00; x0f; x42; x40] ++ audioData)] c).
Proof.
  intros Hconn.
  assert (Hws : Client.ws c = Some Client.OPEN).
  { unfold Client.isConnected in Hconn. apply andb_prop in Hconn as [_ H].
    destruct (Client.ws c) as [[]|]; try discriminate H. reflexivity. }
  assert (Hsend : forall (ts : Z) (capture : option num),
             - 2 ^ 63 <= ts < 2 ^ 63 ->
             Client.sendSourceAudioChunk audioData capture (Some (Num.of_Z ts)) c
             = Ok (Client.emit
                     [Client.WsSendBinary
                        ((Binary.byte_of_Z 12 :: Binary.be_bytes 8 (ts mod 2 ^ 64))
                         ++ audioData)] c)).
  { intros ts capture Hts. unfold Client.sendSourceAudioChunk.
    rewrite Hconn. cbn [negb rbind].
    change Binary.SOURCE_AUDIO_CHUNK with 12.
    rewrite (packBinaryHeaderRaw_of_Z 12 ts) by lia. cbn [rbind].
    unfold Client.sendBinary. now rewrite Hws. }
  split; [|split; [|split; [|split]]].
  - intros ts capture Hts. cbn zeta. split.
    + now apply Hsend.
    + apply unpackBinaryHeader_packed; lia.
  - unfold Client.sendSourceAudioChunk. rewrite Hconn. reflexivity.
  - intros capture Hsync. unfold Client.sendSourceAudioChunk.
    rewrite Hconn, Hsync. reflexivity.
  - intros capture Hsync. unfold Client.sendSourceAudioChunk.
    rewrite Hconn, Hsync. reflexivity.
  - rewrite (Hsend 1000000 None) by lia. reflexivity.
Qed.

Lemma C8_source_audio_preconditions_witness :
  let c := Client.mkClient (Some Client.OPEN) true TimeFilter.new false None None
             (Num.of_Z 0) [] [] [] in
  Client.isConnected c = true
  /\ Client.sendSourceAudioChunk [x07] (Some (Num.of_Z 1000000)) None c
     = Err NotSynchronized
  /\ Client.sendSourceAudioChunk [x07] None (Some (Num.of_Z 1000000)) c
     = Ok (Client.emit
             [Client.WsSendBinary
                ([x0c; x00; x00; x00; x00; x00; x0f; x42; x40] ++ [x07])] c).
Proof.
  cbn zeta.
  destruct (C8_source_audio_preconditions
              (Client.mkClient (Some Client.OPEN) true TimeFilter.new false None None
                 (Num.of_Z 0) [] [] [])
              [x07] eq_refl) as [_ [_ [Hsync [_ Hbytes]]]].
  split; [reflexivity|]. split; [apply Hsync; reflexivity | exact Hbytes].
Defined.

(** C10. When a [stream/start] carries a player whose channels are outside
    1..2 or whose bit depth is not 16, 24 or 32, the handler ends with an
    exception after setting [streamActive]: the stream is active, the
    current audio format is what it was (unset if it was unset), no
    stream-start listener is called and nothing is sent; and while the
    format is unset, a binary frame received afterwards changes nothing
    and reaches no audio-chunk listener. *)
Theorem C10_stream_start_not_atomic
    (c : Client.SendspinClient) (m : Client.StreamStartMessage)
    (p : Client.StreamStartPlayer) (nowUs : num) :
  Client.player m = Some p ->
  Num.ltb (Client.channels_ p) (Num.of_Z 1) || Num.gtb (Client.channels_ p) (Num.of_Z 2) = true
  \/ existsb (Num.eqb (Client.bit_depth p)) [Num.of_Z 16; Num.of_Z 24; Num.of_Z 32] = false ->
  let c' := fst (Client.handleStreamStart m nowUs c) in
  snd (Client.handleStreamStart m nowUs c) <> None
  /\ Client.streamActive c' = true
  /\ Client.currentAudioFormat c' = Client.currentAudioFormat c
  /\ Client.log c' = Client.log c
  /\ (Client.currentAudioFormat c = None ->
      forall payload : list byte, Client.handleBinaryMessage payload c' = c').
Proof.
  intros Hp Hbad. cbn zeta.
  assert (Hfail : exists e, Client.new_PCMFormat (Client.sample_rate p) (Client.channels_ p)
                              (Client.bit_depth p) = Err e).
  { unfold Client.new_PCMFormat.
    destruct (Num.leb (Client.sample_rate p) (Num.of_Z 0)); [eauto|].
    destruct (Num.ltb (Client.channels_ p) (Num.of_Z 1)
              || Num.gtb (Client.channels_ p) (Num.of_Z 2)); [eauto|].
    destruct Hbad as [Hbad|Hbad]; [discriminate Hbad|].
    rewrite Hbad. cbn [negb]. eauto. }
  destruct Hfail as [e He].
  unfold Client.handleStreamStart. rewrite Hp. cbn zeta. rewrite He. cbn [fst snd].
  split; [discriminate|]. split; [reflexivity|]. split; [reflexivity|].
  split; [reflexivity|].
  intros Hnone payload. unfold Client.handleBinaryMessage.
  destruct (Binary.unpackBinaryHeader payload) as [header|]; [|reflexivity].
  cbn [Client.streamActive Client.set_streamActive negb].
  destruct (Num.eqb (Binary.messageType header) (Num.of_Z Binary.AUDIO_CHUNK));
    [|reflexivity].
  unfold Client.handleAudioChunk.
  cbn [Client.currentAudioFormat Client.set_streamActive]. now rewrite Hnone.
Qed.

Lemma C10_stream_start_not_atomic_witness :
  let c := Client.mkClient (Some Client.OPEN) true TimeFilter.new false None None
             (Num.of_Z 0) [1%nat] [2%nat] [] in
  let p := Client.mkPlayer "pcm" (Num.of_Z 48000) (Num.of_Z 6) (Num.of_Z 16) None in
  let m := Client.mkStreamStart (Some p) Js.VNull in
  let c' := fst (Client.handleStreamStart m (Num.of_Z 0) c) in
  Client.player m = Some p
  /\ Client.streamActive c' = true
  /\ Client.currentAudioFormat c' = None
  /\ Client.log c' = []
  /\ Client.handleBinaryMessage
       [x04; x00; x00; x00; x00; x00; x00; x00; x05; x01] c' = c'.
Proof.
  cbn zeta.
  destruct (C10_stream_start_not_atomic
              (Client.mkClient (Some Client.OPEN) true TimeFilter.new false None None
                 (Num.of_Z 0) [1%nat] [2%nat] [])
              (Client.mkStreamStart
                 (Some (Client.mkPlayer "pcm" (Num.of_Z 48000) (Num.of_Z 6) (Num.of_Z 16) None))
                 Js.VNull)
              (Client.mkPlayer "pcm" (Num.of_Z 48000) (Num.of_Z 6) (Num.of_Z 16) None)
              (Num.of_Z 0) eq_refl (or_introl eq_refl))
    as [_ [Hactive [Hformat [Hlog Hdrop]]]].
  split; [reflexivity|]. split; [exact Hactive|]. split; [exact Hformat|].
  split; [exact Hlog|]. apply Hdrop. reflexivity.
Defined.

(** * Further properties *)

(** ** binary.ts: decoding and encoding of the header *)

Import Binary Wire.

Lemma byte_of_Z_mod (z : Z) : byte_of_Z (z mod 256) = byte_of_Z z.
Proof. unfold byte_of_Z. now rewrite Z.mod_mod by lia. Qed.

Lemma be_bytes_mod (n : nat) (u : Z) :
  be_bytes n (u mod 256 ^ Z.of_nat n) = be_bytes n u.
Proof.
  revert u. induction n as [|k IH]; intros u; [reflexivity|].
  cbn [be_bytes].
  assert (Hp : 0 < 256 ^ Z.of_nat k) by (apply Z.pow_pos_nonneg; lia).
  replace (Z.of_nat (S k)) with (Z.of_nat k + 1) by lia.
  rewrite Z.pow_add_r by lia. change (256 ^ 1) with 256.
  rewrite (Z.rem_mul_r u (256 ^ Z.of_nat k) 256) by lia.
  f_equal.
  - rewrite Z.mul_comm, Z.div_add by lia.
    rewrite (Z.div_small (u mod _)) by (apply Z.mod_pos_bound; lia).
    cbn [Z.add]. apply byte_of_Z_mod.
  - rewrite <- (IH (_ + _)), <- (IH u). f_equal.
    rewrite (Z.mul_comm (256 ^ Z.of_nat k)), Z_mod_plus_full. apply Z.mod_mod. lia.
Qed.

Lemma be_value_cons (b : byte) (bs : list byte) :
  be_value (b :: bs) = Z_of_byte b * 256 ^ Z.of_nat (length bs) + be_value bs.
Proof.
  unfold be_value. cbn [fold_left].
  generalize (Z_of_byte b). intros a. change (0 * 256 + a) with a.
  assert (H : forall acc, fold_left (fun acc b => acc * 256 + Z_of_byte b) bs acc
                 = acc * 256 ^ Z.of_nat (length bs)
                   + fold_left (fun acc b => acc * 256 + Z_of_byte b) bs 0).
  { induction bs as [|c bs IH]; intros acc.
    - cbn. lia.
    - cbn [fold_left length]. rewrite IH, (IH (0 * 256 + _)).
      replace (Z.of_nat (S (length bs))) with (Z.of_nat (length bs) + 1) by lia.
      rewrite Z.pow_add_r by lia. ring. }
  apply H.
Qed.

Lemma be_value_range (bs : list byte) : 0 <= be_value bs < 256 ^ Z.of_nat (length bs).
Proof.
  induction bs as [|b bs IH].
  - cbn. lia.
  - rewrite be_value_cons. cbn [length].
    replace (Z.of_nat (S (length bs))) with (Z.of_nat (length bs) + 1) by lia.
    rewrite Z.pow_add_r by lia. pose proof (Z_of_byte_range b). nia.
Qed.

(** Writing the value of a byte string gives the string back. *)
Lemma be_bytes_be_value (bs : list byte) : be_bytes (length bs) (be_value bs) = bs.
Proof.
  induction bs as [|b bs IH]; [reflexivity|].
  cbn [length be_bytes]. rewrite be_value_cons.
  pose proof (be_value_range bs) as Hr. pose proof (Z_of_byte_range b) as Hb.
  assert (Hp : 0 < 256 ^ Z.of_nat (length bs)) by (apply Z.pow_pos_nonneg; lia).
  f_equal.
  - rewrite Z.div_add_l by lia. rewrite Z.div_small by lia.
    rewrite Z.add_0_r. apply byte_of_Z_of_byte.
  - rewrite <- be_bytes_mod, Z.add_comm, Z_mod_plus_full, be_bytes_mod. exact IH.
Qed.

Lemma readBigInt64BE_range (bs : list byte) :
  length bs = 8%nat -> - 2 ^ 63 <= readBigInt64BE bs < 2 ^ 63.
Proof.
  intros L. unfold readBigInt64BE. pose proof (be_value_range bs) as H.
  rewrite L in H. change (256 ^ Z.of_nat 8) with (2 ^ 64) in H.
  destruct (Z.ltb_spec (be_value bs) (2 ^ 63)); lia.
Qed.

Lemma writeBigInt64BE_readBigInt64BE (bs : list byte) :
  length bs = 8%nat -> writeBigInt64BE (readBigInt64BE bs) = Ok bs.
Proof.
  intros L. rewrite writeBigInt64BE_in_range by now apply readBigInt64BE_range.
  f_equal. rewrite <- (be_bytes_be_value bs) at 2. rewrite L.
  rewrite <- (be_bytes_mod 8 (be_value bs)). change (256 ^ Z.of_nat 8) with (2 ^ 64).
  f_equal. unfold readBigInt64BE.
  pose proof (be_value_range bs) as H. rewrite L in H.
  change (256 ^ Z.of_nat 8) with (2 ^ 64) in H.
  destruct (Z.ltb_spec (be_value bs) (2 ^ 63)).
  - reflexivity.
  - replace (be_value bs - 2 ^ 64) with (be_value bs + (-1) * 2 ^ 64) by lia.
    now rewrite Z_mod_plus_full.
Qed.

(** The header of a buffer of at least nine bytes. *)
Lemma unpackBinaryHeader_long (b0 : byte) (rest : list byte) :
  (8 <= length rest)%nat ->
  unpackBinaryHeader (b0 :: rest)
  = Ok {| messageType := Num.of_Z (Z_of_byte b0);
          timestampUs := Num.of_Z (readBigInt64BE (firstn 8 rest)) |}.
Proof.
  intros L. unfold unpackBinaryHeader. cbn [length].
  destruct (Nat.ltb_spec (S (length rest)) BINARY_HEADER_SIZE) as [H|H].
  - unfold BINARY_HEADER_SIZE in H. lia.
  - reflexivity.
Qed.



Lemma toBigInt_integer (x : num) (z : Z) : is_integer x z -> Num.toBigInt x = Ok z.
Proof.
  intros [q [-> Hq]]. unfold Num.toBigInt.
  assert (Hf : Qfloor q = z) by (rewrite Hq; apply Qfloor_Z).
  rewrite Hf. apply Qeq_bool_iff in Hq. now rewrite Hq.
Qed.

Lemma toBigInt_not_integer (x : num) :
  (forall z, ~ is_integer x z) -> Num.toBigInt x = Err BigIntRangeError.
Proof.
  intros H. unfold Num.toBigInt. destruct x as [q| | |]; try reflexivity.
  destruct (Qeq_bool q (inject_Z (Qfloor q))) eqn:E; [|reflexivity].
  exfalso. apply (H (Qfloor q)). exists q. split; [reflexivity|].
  now apply Qeq_bool_iff.
Qed.

Lemma writeUInt8_in_range (ty : num) :
  Num.gtb ty (Num.of_Z 255) || Num.ltb ty (Num.of_Z 0) = false ->
  writeUInt8 ty = Ok (byte_of_Z (stored_type ty)) /\ 0 <= stored_type ty <= 255.
Proof.
  intros H. unfold writeUInt8. rewrite H.
  destruct ty as [q| | |]; try discriminate H.
  - split; [reflexivity|]. cbn [stored_type].
    apply orb_false_elim in H as [H1 H2].
    unfold Num.gtb, Num.ltb, Num.of_Z in H1, H2.
    apply negb_false_iff, Qle_bool_iff in H1, H2.
    split.
    + rewrite <- (Qfloor_Z 0). now apply Qfloor_resp_le.
    + rewrite <- (Qfloor_Z 255). now apply Qfloor_resp_le.
  - split; [reflexivity | cbn; lia].
Qed.

(** X2. [packBinaryHeaderRaw] throws ERR_OUT_OF_RANGE for a message type
    above 255 or below 0.  For a type in range it throws the RangeError of
    [BigInt] when the timestamp is not an integer, throws ERR_OUT_OF_RANGE
    when the integer is outside the signed 64-bit range, and otherwise
    returns nine bytes which, followed by any body, unpack to the truncated
    type and the timestamp. *)
Theorem X2_pack_header (ty ts : num) :
  (Num.gtb ty (Num.of_Z 255) || Num.ltb ty (Num.of_Z 0) = true ->
   packBinaryHeaderRaw ty ts = Err ERR_OUT_OF_RANGE)
  /\ (Num.gtb ty (Num.of_Z 255) || Num.ltb ty (Num.of_Z 0) = false ->
      ((forall z, ~ is_integer ts z) ->
       packBinaryHeaderRaw ty ts = Err BigIntRangeError)
      /\ (forall z, is_integer ts z ->
            (z < - 2 ^ 63 \/ 2 ^ 63 <= z ->
             packBinaryHeaderRaw ty ts = Err ERR_OUT_OF_RANGE)
            /\ (- 2 ^ 63 <= z < 2 ^ 63 ->
                exists bytes,
                  packBinaryHeaderRaw ty ts = Ok bytes
                  /\ length bytes = 9%nat
                  /\ forall body,
                       unpackBinaryHeader (bytes ++ body)
                       = Ok {| messageType := Num.of_Z (stored_type ty);
                               timestampUs := Num.of_Z z |}))).
Proof.
  split.
  - intros H. unfold packBinaryHeaderRaw, packBinaryHeader, writeUInt8.
    cbn [messageType]. now rewrite H.
  - intros H. destruct (writeUInt8_in_range ty H) as [Hw Hr].
    unfold packBinaryHeaderRaw, packBinaryHeader. cbn [messageType timestampUs].
    rewrite Hw. cbn [rbind]. split.
    + intros Hn. now rewrite (toBigInt_not_integer ts Hn).
    + intros z Hz. rewrite (toBigInt_integer ts z Hz). cbn [rbind]. split.
      * intros Hout. unfold writeBigInt64BE.
        destruct (Z.gtb_spec z (2 ^ 63 - 1)); [reflexivity|].
        destruct (Z.ltb_spec z (- 2 ^ 63)); [reflexivity | lia].
      * intros Hin. rewrite writeBigInt64BE_in_range by exact Hin. cbn [rbind].
        eexists. split; [reflexivity|]. split.
        -- cbn [length]. now rewrite length_be_bytes.
        -- intros body. apply unpackBinaryHeader_packed; assumption.
Qed.

Lemma X2_pack_header_witness :
  Num.gtb (Num.Fin (9 # 2)) (Num.of_Z 255) || Num.ltb (Num.Fin (9 # 2)) (Num.of_Z 0) = false
  /\ is_integer (Num.of_Z (-1)) (-1)
  /\ exists bytes,
       packBinaryHeaderRaw (Num.Fin (9 # 2)) (Num.of_Z (-1)) = Ok bytes
       /\ length bytes = 9%nat
       /\ unpackBinaryHeader (bytes ++ [x2a])
          = Ok {| messageType := Num.of_Z 4; timestampUs := Num.of_Z (-1) |}.
Proof.
  assert (Hi : is_integer (Num.of_Z (-1)) (-1)) by (eexists; split; reflexivity).
  split; [reflexivity|]. split; [exact Hi|].
  destruct (X2_pack_header (Num.Fin (9 # 2)) (Num.of_Z (-1))) as [_ H].
  destruct (H eq_refl) as [_ H2].
  destruct (H2 (-1) Hi) as [_ H3].
  destruct H3 as [bytes [Hp [Hl Hu]]]; [lia|].
  exists bytes. split; [exact Hp|]. split; [exact Hl|]. apply Hu.
Defined.

(** ** The time filter over runs of samples *)

Import TimeFilter FilterRuns.

Lemma count_update (f : SendspinTimeFilter) (m e t : num) :
  0 <= count f <= 100 ->
  count f <= count (update f m e t) <= count f + 1 /\ count (update f m e t) <= 100.
Proof.
  intros H. unfold update.
  destruct (Num.eqb t (lastUpdate f)); [lia|].
  destruct (Z.leb_spec (count f) 0); [cbn [count]; lia|].
  destruct (Z.eqb_spec (count f) 1); [cbn [count]; lia|].
  cbn zeta. cbn [count].
  destruct (Z.ltb_spec (count f) 100); lia.
Qed.

Lemma count_updates (l : list sample) (f : SendspinTimeFilter) :
  0 <= count f <= 100 ->
  count f <= count (updates l f) <= count f + Z.of_nat (length l)
  /\ count (updates l f) <= 100.
Proof.
  revert f. induction l as [|x l IH]; intros f H.
  - cbn. lia.
  - cbn [updates fold_left length].
    destruct (count_update f (fst (fst x)) (snd (fst x)) (snd x) H) as [H1 H2].
    specialize (IH (update f (fst (fst x)) (snd (fst x)) (snd x))).
    unfold updates in IH. destruct IH as [H3 H4]; [lia|]. lia.
Qed.

Lemma synchronized_count (f : SendspinTimeFilter) :
  isSynchronized f = true -> 2 <= count f.
Proof.
  unfold isSynchronized. intros H. apply andb_prop in H as [H _].
  apply Z.geb_le in H. lia.
Qed.

(** X3. For a time filter whose sample count is between 0 and 100, a run of
    [update] calls never lowers the count, raises it by at most the number
    of calls and never above 100; and a filter without samples is not
    synchronized by fewer than two calls. *)
Theorem X3_filter_count (l : list sample) (f : SendspinTimeFilter) :
  0 <= count f <= 100 ->
  count f <= count (updates l f) <= Z.min 100 (count f + Z.of_nat (length l))
  /\ (count f = 0 -> isSynchronized (updates l f) = true -> (2 <= length l)%nat).
Proof.
  intros H0. destruct (count_updates l f H0) as [H1 H2].
  split; [lia|].
  intros Hc H. apply synchronized_count in H. lia.
Qed.

Lemma X3_filter_count_witness :
  let l := [(Num.of_Z 120, Num.of_Z 10, Num.of_Z 1000000);
            (Num.of_Z 140, Num.of_Z 10, Num.of_Z 2000000);
            (Num.of_Z 150, Num.of_Z 10, Num.of_Z 3000000)] in
  count new = 0
  /\ isSynchronized (updates l new) = true
  /\ 0 <= count (updates l new) <= 3
  /\ (2 <= length l)%nat.
Proof.
  cbn zeta.
  match goal with
  | |- _ /\ isSynchronized (updates ?l new) = true /\ _ =>
      destruct (X3_filter_count l new) as [[H1 H2] H3]; [cbn; lia|]
  end.
  split; [reflexivity|]. split; [vm_compute; reflexivity|].
  split; [split; [exact H1 | etransitivity; [exact H2 | cbn; lia]]|].
  apply H3; [reflexivity | vm_compute; reflexivity].
Defined.

(** ** Arithmetic on integers *)

Lemma Qred_inject_Z (z : Z) : Qred (inject_Z z) = inject_Z z.
Proof.
  unfold Qred, inject_Z.
  pose proof (Z.ggcd_gcd z 1) as Hg.
  pose proof (Z.ggcd_correct_divisors z 1) as Hd.
  destruct (Z.ggcd z 1) as [g [a b]]. cbn [fst snd] in *.
  rewrite Z.gcd_1_r in Hg. subst g. destruct Hd as [Ha Hb].
  f_equal; [lia|]. replace b with 1 by lia. reflexivity.
Qed.

Lemma Fin_of_Z (q : Q) (z : Z) : (q == inject_Z z)%Q -> Num.Fin (Qred q) = Num.of_Z z.
Proof.
  intros H. unfold Num.of_Z. f_equal.
  rewrite (Qred_complete _ _ H). apply Qred_inject_Z.
Qed.

Lemma add_of_Z (a b : Z) : Num.add (Num.of_Z a) (Num.of_Z b) = Num.of_Z (a + b).
Proof. cbn [Num.add Num.of_Z]. apply Fin_of_Z. now rewrite inject_Z_plus. Qed.

Lemma opp_of_Z (a : Z) : Num.opp (Num.of_Z a) = Num.of_Z (- a).
Proof. cbn [Num.opp Num.of_Z]. apply Fin_of_Z. now rewrite inject_Z_opp. Qed.

Lemma sub_of_Z (a b : Z) : Num.sub (Num.of_Z a) (Num.of_Z b) = Num.of_Z (a - b).
Proof. unfold Num.sub. now rewrite opp_of_Z, add_of_Z. Qed.

Lemma mul_of_Z (a b : Z) : Num.mul (Num.of_Z a) (Num.of_Z b) = Num.of_Z (a * b).
Proof. cbn [Num.mul Num.of_Z]. apply Fin_of_Z. now rewrite inject_Z_mult. Qed.

Lemma round_of_Z (a : Z) : Num.round (Num.of_Z a) = Num.of_Z a.
Proof.
  cbn [Num.round Num.of_Z]. f_equal.
  apply Z.le_antisymm.
  - assert (H : (Qfloor (inject_Z a + (1 # 2)) < a + 1)%Z); [|lia].
    rewrite <- (Qfloor_Z (a + 1)).
    pose proof (Qfloor_le (inject_Z a + (1 # 2))) as Hle.
    rewrite Qfloor_Z. apply Z.lt_nge. intros Hge.
    assert (Hq : (inject_Z (a + 1) <= inject_Z (Qfloor (inject_Z a + (1 # 2))))%Q)
      by (rewrite <- Zle_Qle; exact Hge).
    rewrite inject_Z_plus in Hq. change (inject_Z 1) with 1%Q in Hq. lra.
  - rewrite <- (Qfloor_Z a) at 1. apply Qfloor_resp_le. lra.
Qed.

(** ** The filter without samples *)

Lemma computeServerTime_unset (f : SendspinTimeFilter) (c : Z) :
  current f = TimeElement.new -> computeServerTime f (Num.of_Z c) = Num.of_Z c.
Proof.
  intros H. unfold computeServerTime. rewrite H.
  cbn [TimeElement.lastUpdate TimeElement.offset TimeElement.drift TimeElement.new].
  rewrite sub_of_Z, mul_of_Z, add_of_Z, round_of_Z, add_of_Z. f_equal. lia.
Qed.

Lemma computeClientTime_unset (f : SendspinTimeFilter) (c : Z) :
  current f = TimeElement.new -> computeClientTime f (Num.of_Z c) = Num.of_Z c.
Proof.
  intros H. unfold computeClientTime. rewrite H.
  cbn [TimeElement.lastUpdate TimeElement.offset TimeElement.drift TimeElement.new].
  rewrite sub_of_Z, mul_of_Z, !add_of_Z.
  replace (c - 0 + 0 * 0) with c by lia. change (1 + 0) with 1.
  cbn [Num.div Num.of_Z]. change (Qeq_bool (inject_Z 1) 0) with false. cbn iota.
  rewrite (Fin_of_Z _ c) by (change (inject_Z 1) with 1%Q; field).
  apply round_of_Z.
Qed.

(** X4. After [reset] the filter is not synchronized and both projections
    return an integer time unchanged; [reset] keeps the time of the last
    update, so that a sample at that very time is dropped; and it takes at
    least two calls of [update] to be synchronized again. *)
Theorem X4_filter_reset (f : SendspinTimeFilter) :
  isSynchronized (reset f) = false
  /\ (forall c : Z,
        computeServerTime (reset f) (Num.of_Z c) = Num.of_Z c
        /\ computeClientTime (reset f) (Num.of_Z c) = Num.of_Z c)
  /\ (forall (m e : num) (q : Q),
        lastUpdate f = Num.Fin q -> update (reset f) m e (Num.Fin q) = reset f)
  /\ (forall l : list sample,
        isSynchronized (updates l (reset f)) = true -> (2 <= length l)%nat).
Proof.
  split; [reflexivity|]. split; [|split].
  - intros c. split;
      [apply computeServerTime_unset | apply computeClientTime_unset]; reflexivity.
  - intros m e q H. apply update_same_time. exact H.
  - intros l H. apply synchronized_count in H.
    destruct (count_updates l (reset f)) as [H1 H2]; cbn [count reset] in *; lia.
Qed.

Lemma X4_filter_reset_witness :
  let f := updates [(Num.of_Z 120, Num.of_Z 10, Num.of_Z 1000000);
                    (Num.of_Z 140, Num.of_Z 10, Num.of_Z 2000000)] new in
  isSynchronized f = true
  /\ isSynchronized (reset f) = false
  /\ lastUpdate f = Num.Fin 2000000
  /\ update (reset f) (Num.of_Z 150) (Num.of_Z 10) (Num.Fin 2000000) = reset f
  /\ isSynchronized
       (updates [(Num.of_Z 150, Num.of_Z 10, Num.of_Z 3000000);
                 (Num.of_Z 160, Num.of_Z 10, Num.of_Z 4000000)] (reset f)) = true
  /\ (2 <= 2)%nat.
Proof.
  cbn zeta.
  match goal with
  | |- isSynchronized ?f = true /\ _ =>
      destruct (X4_filter_reset f) as [H1 [_ [H3 H4]]]
  end.
  split; [vm_compute; reflexivity|]. split; [exact H1|].
  split; [vm_compute; reflexivity|].
  split; [apply H3; vm_compute; reflexivity|].
  split; [vm_compute; reflexivity|].
  exact (H4 [(Num.of_Z 150, Num.of_Z 10, Num.of_Z 3000000);
             (Num.of_Z 160, Num.of_Z 10, Num.of_Z 4000000)]
            ltac:(vm_compute; reflexivity)).
Defined.

(** ** The first two samples *)



(** ** The projections of a filter that drifts *)

Import TimeFilter FilterRuns.

Section Drift.

Local Open Scope Q_scope.

(** [Math.round q] is the integer [r] with [r <= q + 1/2 < r + 1]. *)
Lemma round_Fin (q x : Q) :
  q == x ->
  exists r : Z, Num.round (Num.Fin q) = Num.of_Z r
                /\ inject_Z r <= x + (1 # 2) /\ x + (1 # 2) < inject_Z r + 1.
Proof.
  intros H. exists (Qfloor (q + (1 # 2))). split; [reflexivity|].
  pose proof (Qfloor_le (q + (1 # 2))) as Hlo.
  pose proof (Qlt_floor (q + (1 # 2))) as Hhi.
  rewrite inject_Z_plus in Hhi. change (inject_Z 1) with 1 in Hhi.
  split; lra.
Qed.

Lemma computeServerTime_closed (g : SendspinTimeFilter) (o l d : Q) (c : Z) :
  current g = snapshot (Num.Fin l) (Num.Fin o) (Num.Fin d) ->
  exists r : Z,
    computeServerTime g (Num.of_Z c) = Num.of_Z (c + r)
    /\ inject_Z r <= o + d * (inject_Z c - l) + (1 # 2)
    /\ o + d * (inject_Z c - l) + (1 # 2) < inject_Z r + 1.
Proof.
  intros H. unfold computeServerTime. rewrite H.
  cbn [snapshot TimeElement.lastUpdate TimeElement.offset TimeElement.drift].
  unfold Num.sub, Num.of_Z. cbn [Num.opp Num.add Num.mul].
  match goal with
  | |- context [Num.round (Num.Fin ?q)] =>
      destruct (round_Fin q (o + d * (inject_Z c - l))) as [r [Hr Hb]]
  end.
  { rewrite !Qred_correct. ring. }
  exists r. rewrite Hr. split; [apply add_of_Z | exact Hb].
Qed.

Lemma computeClientTime_closed (g : SendspinTimeFilter) (o l d : Q) (s : Z) :
  current g = snapshot (Num.Fin l) (Num.Fin o) (Num.Fin d) ->
  0 < 1 + d ->
  exists k : Z,
    computeClientTime g (Num.of_Z s) = Num.of_Z k
    /\ inject_Z k <= (inject_Z s - o + d * l) / (1 + d) + (1 # 2)
    /\ (inject_Z s - o + d * l) / (1 + d) + (1 # 2) < inject_Z k + 1.
Proof.
  intros H Hd. unfold computeClientTime. rewrite H.
  cbn [snapshot TimeElement.lastUpdate TimeElement.offset TimeElement.drift].
  unfold Num.sub, Num.of_Z. cbn [Num.opp Num.add Num.mul Num.div].
  assert (Hz : Qeq_bool (Qred (inject_Z 1 + d)) 0 = false).
  { destruct (Qeq_bool (Qred (inject_Z 1 + d)) 0) eqn:E; [|reflexivity].
    apply Qeq_bool_iff in E. rewrite Qred_correct in E.
    change (inject_Z 1) with 1 in E. lra. }
  rewrite Hz.
  match goal with
  | |- context [Num.round (Num.Fin ?q)] =>
      destruct (round_Fin q ((inject_Z s - o + d * l) / (1 + d))) as [k [Hk Hb]]
  end.
  { rewrite !Qred_correct. change (inject_Z 1) with 1. field. lra. }
  exists k. split; [exact Hk | exact Hb].
Qed.

Lemma between_Z (k c : Z) (x : Q) :
  inject_Z k <= x -> x < inject_Z k + 1 ->
  inject_Z c - 1 < x -> x < inject_Z c + 2 -> (c - 1 <= k <= c + 1)%Z.
Proof.
  intros H1 H2 H3 H4.
  assert (A : inject_Z (c + - 2) < inject_Z k).
  { rewrite inject_Z_plus. change (inject_Z (- 2)) with (- (2)). lra. }
  assert (B : inject_Z k < inject_Z (c + 2)).
  { rewrite inject_Z_plus. change (inject_Z 2) with 2. lra. }
  rewrite <- Zlt_Qlt in A, B. lia.
Qed.

Lemma projection_round_trip_drift (g : SendspinTimeFilter) (o l d : Q) (c : Z) :
  current g = snapshot (Num.Fin l) (Num.Fin o) (Num.Fin d) ->
  - (1 # 2) <= d -> d <= 1 # 2 ->
  (exists k : Z,
     computeClientTime g (computeServerTime g (Num.of_Z c)) = Num.of_Z k
     /\ (c - 1 <= k <= c + 1)%Z)
  /\ (exists k : Z,
        computeServerTime g (computeClientTime g (Num.of_Z c)) = Num.of_Z k
        /\ (c - 1 <= k <= c + 1)%Z).
Proof.
  intros H Hlo Hhi. assert (Hd : 0 < 1 + d) by lra. split.
  - destruct (computeServerTime_closed g o l d c H) as [r [Hs [R1 R2]]].
    destruct (computeClientTime_closed g o l d (c + r) H Hd) as [k [Hk [K1 K2]]].
    exists k. rewrite Hs. split; [exact Hk|].
    rewrite inject_Z_plus in K1, K2.
    set (u := inject_Z r - (o + d * (inject_Z c - l))) in *.
    assert (E : (inject_Z c + inject_Z r - o + d * l) / (1 + d)
                == inject_Z c + u / (1 + d)) by (unfold u; field; lra).
    rewrite E in K1, K2.
    assert (U1 : - (1 # 2) < u) by (unfold u; lra).
    assert (U2 : u <= 1 # 2) by (unfold u; lra).
    assert (V1 : - (1) < u / (1 + d)).
    { apply Qlt_shift_div_l; [exact Hd|]. lra. }
    assert (V2 : u / (1 + d) <= 1).
    { apply Qle_shift_div_r; [exact Hd|]. lra. }
    apply (between_Z k c (inject_Z c + u / (1 + d) + (1 # 2))); lra.
  - destruct (computeClientTime_closed g o l d c H Hd) as [k [Hk [K1 K2]]].
    destruct (computeServerTime_closed g o l d k H) as [r [Hs [R1 R2]]].
    exists (k + r)%Z. rewrite Hk. split; [exact Hs|].
    set (y := (inject_Z c - o + d * l) / (1 + d)) in *.
    assert (Ey : y * (1 + d) == inject_Z c - o + d * l) by (unfold y; field; lra).
    set (e := inject_Z k - y) in *.
    assert (E1 : - (1 # 2) < e) by (unfold e; lra).
    assert (E2 : e <= 1 # 2) by (unfold e; lra).
    assert (Ex : inject_Z k + (o + d * (inject_Z k - l))
                 == inject_Z c + e * (1 + d)).
    { unfold e. nra. }
    assert (P1 : - (3 # 4) <= e * (1 + d)) by nra.
    assert (P2 : e * (1 + d) <= 3 # 4) by nra.
    apply (between_Z (k + r) c (inject_Z c + e * (1 + d) + (1 # 2))).
    + rewrite inject_Z_plus. lra.
    + rewrite inject_Z_plus. lra.
    + lra.
    + lra.
Qed.

End Drift.



(** ** client.ts: time synchronisation and the static delay *)

Import Client ClientTiming FilterRuns.

Lemma div_of_Z_exact (a b : Z) :
  b <> 0 -> Num.div (Num.of_Z (a * b)) (Num.of_Z b) = Num.of_Z a.
Proof.
  intros Hb. cbn [Num.div Num.of_Z].
  destruct (Qeq_bool (inject_Z b) 0) eqn:E.
  - apply Qeq_bool_iff in E. unfold Qeq, inject_Z in E. cbn in E. lia.
  - apply Fin_of_Z. rewrite inject_Z_mult. field.
    intros H. unfold Qeq, inject_Z in H. cbn in H. lia.
Qed.

(** [Math.round(n / 2)] for an integer [n] *)
Lemma round_half (n : Z) :
  Num.round (Num.div (Num.of_Z n) (Num.of_Z 2)) = Num.of_Z ((n + 1) / 2).
Proof.
  cbn [Num.div Num.of_Z]. change (Qeq_bool (inject_Z 2) 0) with false. cbn iota.
  cbn [Num.round]. unfold Num.of_Z. do 2 f_equal.
  rewrite Zdiv_Qdiv. apply Qfloor_comp.
  rewrite Qred_correct, inject_Z_plus. change (inject_Z 1) with 1%Q.
  change (inject_Z 2) with 2%Q. field.
Qed.



Lemma ltb_leb_trans (x y z : num) :
  Num.leb x y = true -> Num.ltb y z = true -> Num.ltb x z = true.
Proof.
  destruct x as [a| | |], y as [b| | |], z as [c| | |]; cbn;
    try discriminate; try reflexivity.
  intros H1 H2. apply Qle_bool_iff in H1. apply negb_true_iff in H2.
  apply negb_true_iff. destruct (Qle_bool c a) eqn:E; [|reflexivity].
  apply Qle_bool_iff in E.
  assert (H : Qle_bool c b = true) by (apply Qle_bool_iff; lra).
  congruence.
Qed.

(** X8. [computeTimeSyncInterval] returns 200, 500, 1000 or 3000; it
    returns 200 when the filter is not synchronized; and of two clients
    with synchronized filters the one whose filter error is not larger has
    an interval that is not shorter. *)
Theorem X8_time_sync_interval (c c' : SendspinClient) :
  In (computeTimeSyncInterval c) [200; 500; 1000; 3000]
  /\ (TimeFilter.isSynchronized (timeFilter c) = false -> computeTimeSyncInterval c = 200)
  /\ (TimeFilter.isSynchronized (timeFilter c) = true ->
      TimeFilter.isSynchronized (timeFilter c') = true ->
      Num.leb (TimeFilter.error (timeFilter c)) (TimeFilter.error (timeFilter c')) = true ->
      computeTimeSyncInterval c' <= computeTimeSyncInterval c).
Proof.
  split; [|split].
  - unfold computeTimeSyncInterval. cbn [In]. repeat case_match; auto.
  - intros H. unfold computeTimeSyncInterval. now rewrite H.
  - intros S S' Hle. unfold computeTimeSyncInterval. rewrite S, S'. cbn [negb].
    cbn zeta.
    pose proof (ltb_leb_trans _ _ (Num.of_Z 1000) Hle) as T1.
    pose proof (ltb_leb_trans _ _ (Num.of_Z 2000) Hle) as T2.
    pose proof (ltb_leb_trans _ _ (Num.of_Z 5000) Hle) as T3.
    destruct (Num.ltb (TimeFilter.error (timeFilter c')) (Num.of_Z 1000));
      [rewrite T1 by reflexivity; lia|].
    destruct (Num.ltb (TimeFilter.error (timeFilter c')) (Num.of_Z 2000));
      [rewrite T2 by reflexivity; repeat case_match; lia|].
    destruct (Num.ltb (TimeFilter.error (timeFilter c')) (Num.of_Z 5000));
      [rewrite T3 by reflexivity; repeat case_match; lia|].
    repeat case_match; lia.
Qed.

Lemma X8_time_sync_interval_witness :
  let idle := mkClient None false TimeFilter.new false None None (Num.of_Z 0) [] [] [] in
  let fine :=
    set_timeFilter
      (updates [(Num.of_Z 120, Num.of_Z 10, Num.of_Z 1000000);
                (Num.of_Z 140, Num.of_Z 10, Num.of_Z 2000000)] TimeFilter.new) idle in
  let coarse :=
    set_timeFilter
      (updates [(Num.of_Z 120, Num.of_Z 1500, Num.of_Z 1000000);
                (Num.of_Z 140, Num.of_Z 1500, Num.of_Z 2000000)] TimeFilter.new) idle in
  TimeFilter.isSynchronized (timeFilter idle) = false
  /\ computeTimeSyncInterval idle = 200
  /\ TimeFilter.isSynchronized (timeFilter fine) = true
  /\ TimeFilter.isSynchronized (timeFilter coarse) = true
  /\ Num.leb (TimeFilter.error (timeFilter fine)) (TimeFilter.error (timeFilter coarse))
     = true
  /\ computeTimeSyncInterval coarse <= computeTimeSyncInterval fine.
Proof.
  cbn zeta.
  match goal with
  | |- _ /\ computeTimeSyncInterval ?idle = _ /\ _ =>
      destruct (X8_time_sync_interval idle idle) as [_ [U _]]
  end.
  match goal with
  | |- _ /\ _ /\ _ /\ _ /\ _ /\ computeTimeSyncInterval ?coarse
                                   <= computeTimeSyncInterval ?fine =>
      destruct (X8_time_sync_interval fine coarse) as [_ [_ M]]
  end.
  split; [reflexivity|]. split; [apply U; reflexivity|].
  split; [vm_compute; reflexivity|]. split; [vm_compute; reflexivity|].
  split; [vm_compute; reflexivity|].
  apply M; vm_compute; reflexivity.
Defined.

(** ** The static delay *)

Lemma mul_div_1000 (ms : Z) :
  Num.div (Num.round (Num.mul (Num.of_Z ms) (Num.of_Z 1000))) (Num.of_Z 1000) = Num.of_Z ms.
Proof. rewrite mul_of_Z, round_of_Z. apply div_of_Z_exact. lia. Qed.



(** ** Session operations: identity, counters and events *)

Import Js Session Trace Effects.

Section Keeps.

Implicit Types (s t : SendspinSession) (rdy : bool).

Lemma keeps_refl rdy s : keeps rdy s s.
Proof.
  split; [reflexivity|]. split; [reflexivity|].
  exists []. split; [now rewrite app_nil_r | reflexivity].
Qed.

Lemma keeps_roles rdy s s' : keeps rdy s s' -> roles s' = roles s.
Proof. intros [I _]. unfold identity in I. now injection I. Qed.

Lemma keeps_trans rdy s t s' : keeps rdy s t -> keeps rdy t s' -> keeps rdy s s'.
Proof.
  intros H1 H2. pose proof (keeps_roles _ _ _ H1) as R.
  destruct H1 as [I1 [C1 [e1 [L1 F1]]]], H2 as [I2 [C2 [e2 [L2 F2]]]].
  split; [congruence|]. split; [congruence|].
  exists (e1 ++ e2). split; [now rewrite L2, L1, app_assoc|].
  rewrite R in F2. now rewrite forallb_app, F1, F2.
Qed.

Lemma keeps_same rdy s s' :
  identity s' = identity s -> counters s' = counters s -> log s' = log s ->
  keeps rdy s s'.
Proof.
  intros I C L. split; [exact I|]. split; [exact C|].
  exists []. split; [now rewrite app_nil_r | reflexivity].
Qed.

Lemma keeps_emit rdy e s : event_ok rdy (roles s) e = true -> keeps rdy s (emit e s).
Proof.
  intros H. split; [reflexivity|]. split; [reflexivity|].
  exists [e]. split; [reflexivity | cbn; now rewrite H].
Qed.

Lemma event_ok_weaken rdy rs e : event_ok false rs e = true -> event_ok rdy rs e = true.
Proof. destruct e; cbn; try reflexivity. discriminate. Qed.

Lemma keeps_weaken rdy s s' : keeps false s s' -> keeps rdy s s'.
Proof.
  intros [I [C [evs [L F]]]]. split; [exact I|]. split; [exact C|].
  exists evs. split; [exact L|].
  rewrite forallb_forall in *. intros e He. apply event_ok_weaken, F, He.
Qed.

End Keeps.

Create HintDb keeps.

(** Rewrites with the tests that the surrounding branches have decided. *)
Ltac decided :=
  unfold has_role in *;
  repeat match goal with
         | H : negb _ = false |- _ => apply negb_false_iff in H
         | H : negb _ = true |- _ => apply negb_true_iff in H
         | H : _ && _ = true |- _ => apply andb_prop in H as [? ?]
         | H : _ || _ = false |- _ => apply orb_false_elim in H as [? ?]
         end;
  repeat match goal with
         | H : ?b = true |- _ => rewrite H in *; clear H
         | H : ?b = false |- _ => rewrite H in *; clear H
         end.

Ltac keeps_layers :=
  lazymatch goal with
  | |- keeps _ ?s ?s => apply keeps_refl
  | |- keeps ?r ?s (?f ?t) =>
      apply (keeps_trans r s t);
      [ keeps_layers
      | first [ apply keeps_same; reflexivity
              | solve [ eauto 3 with keeps ] ] ]
  end.

Ltac keeps_cases := cbn zeta; repeat case_match; keeps_layers.

#[local] Hint Resolve keeps_emit : keeps.
#[local] Hint Extern 1 (event_ok _ _ _ = true) => reflexivity : keeps.

Lemma keeps_ws_close rdy code reason s : keeps rdy s (ws_close code reason s).
Proof. apply keeps_emit. reflexivity. Qed.

Lemma keeps_ws_send_binary rdy buf s : keeps rdy s (ws_send_binary buf s).
Proof. apply keeps_emit. reflexivity. Qed.

Lemma keeps_throw rdy e s : keeps rdy s (throw e s).
Proof. apply keeps_emit. reflexivity. Qed.

#[local] Hint Resolve keeps_ws_close keeps_ws_send_binary keeps_throw : keeps.

Lemma keeps_close1008 rdy reason s : keeps rdy s (close1008 reason s).
Proof. unfold close1008. keeps_cases. Qed.

Lemma keeps_sendJson rdy m s :
  rdy && role_ok (roles s) m = true -> keeps rdy s (sendJson m s).
Proof.
  intros H. unfold sendJson. case_match; [apply keeps_refl|].
  apply keeps_emit. exact H.
Qed.

Lemma keeps_sendBinary rdy buf clk s : keeps rdy s (sendBinary buf false clk s).
Proof. unfold sendBinary. cbn [andb]. keeps_cases. Qed.

#[local] Hint Resolve keeps_close1008 keeps_sendBinary : keeps.

Lemma keeps_maybeNotifyIdentified rdy s : keeps rdy s (maybeNotifyIdentified s).
Proof. unfold maybeNotifyIdentified. keeps_cases. Qed.

#[local] Hint Resolve keeps_maybeNotifyIdentified : keeps.

(** The side conditions: the session is ready wherever [rdy] is asked,
    and the role of the message is active. *)
Ltac ready_side :=
  cbn [ready roles set_ready set_clientId set_clientName set_roles set_playerSupport
       set_sourceSupport set_artworkChannels set_expectVolume set_expectMute
       set_warnedMissingVolume set_warnedMissingMute set_initialStateReceived
       set_initialStateTimer set_initialStateRequired set_identified set_playbackState
       set_sourceState set_sourceSignal set_hooks set_hooksAttached set_activeStream
       set_streamFormat set_lastGoodbyeReason set_backpressureDrops
       set_lastBackpressureBytes set_lastBackpressureTs set_backpressureEvents set_ws
       set_connectionMeta set_timers set_log emit];
  first [ reflexivity
        | assumption
        | intros; decided; first [ reflexivity | assumption | congruence ] ].

#[local] Hint Extern 1 (_ = true -> _ = true) => ready_side : keeps.
#[local] Hint Extern 1 (_ && _ = true) => ready_side : keeps.
#[local] Hint Extern 1 (role_ok _ _ = true) => ready_side : keeps.

Lemma keeps_sendJson' rdy m s :
  (ready s = true -> rdy = true) -> ready s = true -> role_ok (roles s) m = true ->
  keeps rdy s (sendJson m s).
Proof. intros H R M. apply keeps_sendJson. rewrite (H R). exact M. Qed.

Lemma keeps_sendStreamFormat rdy s :
  (ready s = true -> rdy = true) -> keeps rdy s (sendStreamFormat s).
Proof.
  intros H. unfold sendStreamFormat. case_match; [apply keeps_refl|].
  cbn zeta. apply (keeps_trans _ _ (set_activeStream true s));
    [apply keeps_same; reflexivity|].
  apply keeps_sendJson'; ready_side.
Qed.

#[local] Hint Resolve keeps_sendStreamFormat : keeps.

Lemma keeps_ensureStreamStarted rdy s :
  (ready s = true -> rdy = true) -> keeps rdy s (ensureStreamStarted s).
Proof. intros H. unfold ensureStreamStarted. keeps_cases. Qed.

Lemma keeps_sendServerHello s : keeps true s (sendServerHello s).
Proof.
  unfold sendServerHello. case_match; [apply keeps_refl|].
  apply keeps_sendJson. reflexivity.
Qed.

Lemma keeps_startInitialStateTimeout rdy s : keeps rdy s (startInitialStateTimeout s).
Proof. unfold startInitialStateTimeout. keeps_cases. Qed.

Lemma keeps_sendGroupUpdate rdy st gid gname s :
  (ready s = true -> rdy = true) -> keeps rdy s (sendGroupUpdate st gid gname s).
Proof.
  intros H. unfold sendGroupUpdate. case_match; [apply keeps_refl|].
  cbn zeta. apply (keeps_trans _ _ (set_playbackState st s));
    [apply keeps_same; reflexivity|].
  apply keeps_sendJson'; ready_side.
Qed.

Lemma keeps_applyPreferredStreamFormat rdy s : keeps rdy s (applyPreferredStreamFormat s).
Proof. unfold applyPreferredStreamFormat. keeps_cases. Qed.

#[local] Hint Resolve keeps_ensureStreamStarted keeps_sendServerHello
  keeps_startInitialStateTimeout keeps_sendGroupUpdate
  keeps_applyPreferredStreamFormat : keeps.

Lemma keeps_handleClientTime payload clk s : keeps true s (handleClientTime payload clk s).
Proof.
  unfold handleClientTime. case_match; [|apply keeps_throw].
  apply keeps_sendJson. reflexivity.
Qed.

Lemma keeps_handleClientCommand rdy payload s : keeps rdy s (handleClientCommand payload s).
Proof. unfold handleClientCommand. keeps_cases. Qed.

Lemma keeps_handleClientGoodbye rdy payload s : keeps rdy s (handleClientGoodbye payload s).
Proof. unfold handleClientGoodbye. keeps_cases. Qed.

Lemma keeps_applyPlayerFormatRequest rdy request s :
  keeps rdy s (applyPlayerFormatRequest request s).
Proof. unfold applyPlayerFormatRequest. keeps_cases. Qed.

Lemma keeps_sendArtworkStreamStart rdy chans s :
  (ready s = true -> rdy = true) -> keeps rdy s (sendArtworkStreamStart chans s).
Proof.
  intros H. unfold sendArtworkStreamStart. repeat case_match; try apply keeps_refl.
  cbn zeta. apply (keeps_trans _ _ (set_artworkChannels chans s));
    [apply keeps_same; reflexivity|].
  apply keeps_sendJson'; ready_side.
Qed.

#[local] Hint Resolve keeps_handleClientTime keeps_handleClientCommand
  keeps_handleClientGoodbye keeps_applyPlayerFormatRequest
  keeps_sendArtworkStreamStart : keeps.

Lemma keeps_applyArtworkFormatRequest rdy request s :
  (ready s = true -> rdy = true) -> keeps rdy s (applyArtworkFormatRequest request s).
Proof. intros H. unfold applyArtworkFormatRequest. keeps_cases. Qed.

#[local] Hint Resolve keeps_applyArtworkFormatRequest : keeps.

Lemma keeps_handleStreamRequestFormat payload s :
  keeps true s (handleStreamRequestFormat payload s).
Proof. unfold handleStreamRequestFormat. keeps_cases. Qed.

Lemma keeps_destroy rdy s : keeps rdy s (destroy s).
Proof. unfold destroy, clearInitialStateTimer. keeps_cases. Qed.

Lemma keeps_handleBinary rdy buf s : keeps rdy s (handleBinary buf s).
Proof. unfold handleBinary. keeps_cases. Qed.

Lemma keeps_sendStreamStart rdy fmt s :
  (ready s = true -> rdy = true) -> keeps rdy s (sendStreamStart fmt s).
Proof.
  intros H. unfold sendStreamStart. case_match; [apply keeps_refl|]. cbn zeta.
  match goal with
  | |- keeps _ _ (sendJson ?m ?t) =>
      apply (keeps_trans _ _ t); [apply keeps_same; reflexivity|];
      apply keeps_sendJson'; ready_side
  end.
Qed.

Lemma keeps_sendStreamClear rdy rs s :
  (ready s = true -> rdy = true) -> keeps rdy s (sendStreamClear rs s).
Proof.
  intros H. unfold sendStreamClear. case_match; [apply keeps_refl|].
  apply keeps_sendJson'; ready_side.
Qed.

Lemma keeps_sendStreamEnd rdy rs s :
  (ready s = true -> rdy = true) -> keeps rdy s (sendStreamEnd rs s).
Proof.
  intros H. unfold sendStreamEnd. case_match; [apply keeps_refl|]. cbn zeta.
  apply (keeps_trans _ _ (set_activeStream false s));
    [apply keeps_same; reflexivity|].
  apply keeps_sendJson'; ready_side.
Qed.

Lemma keeps_writePcm rdy frame clk s : keeps rdy s (writePcm frame clk s).
Proof. unfold writePcm. keeps_cases. Qed.

#[local] Hint Resolve keeps_handleStreamRequestFormat keeps_destroy keeps_handleBinary
  keeps_sendStreamStart keeps_sendStreamClear keeps_sendStreamEnd
  keeps_writePcm : keeps.

Lemma keeps_sendPcmAudioFrame rdy frame clk s :
  (ready s = true -> rdy = true) -> keeps rdy s (sendPcmAudioFrame frame clk s).
Proof.
  intros H. unfold sendPcmAudioFrame. case_match; [apply keeps_refl|]. cbn zeta.
  assert (K : keeps rdy s (ensureStreamStarted s)) by now apply keeps_ensureStreamStarted.
  case_match.
  - eapply keeps_trans; [exact K|]. apply keeps_same; reflexivity.
  - eapply keeps_trans; [exact K|]. apply keeps_writePcm.
Qed.

Lemma keeps_pcmRetry rdy frame clk s : keeps rdy s (pcmRetry frame clk s).
Proof. unfold pcmRetry. keeps_cases. Qed.

Lemma keeps_initialStateTimeout rdy s : keeps rdy s (initialStateTimeout s).
Proof. unfold initialStateTimeout. keeps_cases. Qed.

Lemma keeps_sendServerCommand rdy p v m s :
  (ready s = true -> rdy = true) -> keeps rdy s (sendServerCommand p v m s).
Proof.
  intros H. unfold sendServerCommand. case_match; [apply keeps_refl|]. cbn zeta.
  generalize (if is_string p
              then VObj [("player", VObj [("command", p); ("volume", v); ("mute", m)])]
              else p).
  intros cp. unfold get_strict.
  destruct (nullish cp); [apply keeps_throw|].
  case_match; [apply keeps_refl|].
  apply keeps_sendJson'; [exact H | ready_side |].
  cbn [role_ok]. unfold has_role in *.
  destruct (truthy (get cp "player")), (truthy (get cp "source")),
    (existsb (String.eqb Roles.PLAYER) (roles s)),
    (existsb (String.eqb Roles.SOURCE) (roles s)); try reflexivity; discriminate.
Qed.

Lemma keeps_sendMetadata rdy metadata clk s :
  (ready s = true -> rdy = true) -> keeps rdy s (sendMetadata metadata clk s).
Proof.
  intros H. unfold sendMetadata. repeat case_match; try apply keeps_refl.
  apply keeps_sendJson'; ready_side.
Qed.

Lemma keeps_sendControllerState rdy controller s :
  (ready s = true -> rdy = true) -> keeps rdy s (sendControllerState controller s).
Proof.
  intros H. unfold sendControllerState. repeat case_match; try apply keeps_refl.
  apply keeps_sendJson'; ready_side.
Qed.

Lemma keeps_sendArtwork rdy channel imageData clk s :
  keeps rdy s (sendArtwork channel imageData clk s).
Proof. unfold sendArtwork. keeps_cases. Qed.

Lemma keeps_sendVisualizerStreamStart rdy config s :
  (ready s = true -> rdy = true) -> keeps rdy s (sendVisualizerStreamStart config s).
Proof.
  intros H. unfold sendVisualizerStreamStart. repeat case_match; try apply keeps_refl.
  apply keeps_sendJson'; ready_side.
Qed.

Lemma keeps_sendVisualizerFrame rdy buf ts clk s :
  keeps rdy s (sendVisualizerFrame buf ts clk s).
Proof. unfold sendVisualizerFrame. keeps_cases. Qed.

#[local] Hint Resolve keeps_sendPcmAudioFrame keeps_pcmRetry keeps_initialStateTimeout
  keeps_sendServerCommand keeps_sendMetadata keeps_sendControllerState
  keeps_sendArtwork keeps_sendVisualizerStreamStart keeps_sendVisualizerFrame : keeps.

Lemma keeps_timerFires rdy i clk s : keeps rdy s (timerFires i clk s).
Proof. unfold timerFires. keeps_cases. Qed.

Lemma keeps_setHooks rdy h context s : keeps rdy s (setHooks h context s).
Proof. unfold setHooks. keeps_cases. Qed.

Lemma keeps_recordInitialState rdy s : keeps rdy s (recordInitialState s).
Proof. unfold recordInitialState, clearInitialStateTimer. keeps_cases. Qed.

#[local] Hint Resolve keeps_timerFires keeps_setHooks keeps_recordInitialState : keeps.

(** One step through a body written as a chain of [let]s. *)
Ltac keeps_let Hq :=
  lazymatch goal with
  | |- keeps ?r ?s0 (let x := ?v in @?B x) =>
      let x' := fresh "s" in
      pose (x' := v);
      change (keeps r s0 (B x')); cbv beta;
      first [ let Hq' := fresh "Hq" in
              assert (Hq' : keeps r s0 x')
                by (eapply keeps_trans; [exact Hq|]; subst x';
                    repeat case_match; keeps_layers);
              clear Hq; rename Hq' into Hq; clearbody x'
            | idtac ]
  | |- keeps _ _ (if ?c then _ else _) => destruct c eqn:?
  | |- keeps _ _ (match ?c with _ => _ end) => destruct c eqn:?
  end.

Ltac keeps_end Hq := eapply keeps_trans; [exact Hq|]; keeps_layers.

Lemma keeps_after_recordInitialState rdy payload s :
  keeps rdy (recordInitialState s) (handleClientState payload s).
Proof.
  cbv beta delta [handleClientState].
  generalize (recordInitialState s). intros t.
  pose proof (keeps_refl rdy t) as Hq.
  repeat keeps_let Hq; keeps_end Hq.
Qed.

Lemma keeps_handleClientState rdy payload s : keeps rdy s (handleClientState payload s).
Proof.
  eapply keeps_trans; [apply keeps_recordInitialState|].
  apply keeps_after_recordInitialState.
Qed.

#[local] Hint Resolve keeps_handleClientState : keeps.

(** An accepted hello keeps the identity recorded before it completes. *)
Lemma keeps_completeHello playerSupport sourceSupport artworkSupport unsupported s :
  keeps true s (completeHello playerSupport sourceSupport artworkSupport unsupported s).
Proof.
  pose proof (keeps_refl true s) as Hq.
  cbv beta delta [completeHello].
  repeat keeps_let Hq; keeps_end Hq.
Qed.

(** What a text message does to a session that is ready. *)
Lemma keeps_handleText_ready parsed clk s :
  ready s = true -> keeps true s (handleText parsed clk s).
Proof.
  intros R. unfold handleText.
  destruct parsed as [msg|]; [|apply keeps_refl].
  destruct (get_strict msg "type") as [type|e]; [|apply keeps_throw].
  cbn zeta. rewrite R. cbn [negb].
  repeat case_match; try apply keeps_refl; eauto 3 with keeps.
Qed.

(** ** Discipline of the texts *)

Import Js Session Trace Effects Discipline.

(** ** Readiness *)

Lemma ready_frames A s s' : frames A s s' -> ready s' = ready s.
Proof. intros [G _]. unfold gate in G. now injection G. Qed.

Lemma ready_recordInitialState s : ready (recordInitialState s) = ready s.
Proof.
  unfold recordInitialState. case_match; [|reflexivity]. cbn zeta.
  rewrite ready_maybeNotifyIdentified. case_match; reflexivity.
Qed.

Lemma ready_handleText_ready parsed clk s :
  ready s = true -> ready (handleText parsed clk s) = true.
Proof.
  intros R. unfold handleText.
  destruct parsed as [msg|]; [|exact R].
  destruct (get_strict msg "type") as [type|e]; [|exact R].
  cbn zeta. rewrite R. cbn [negb].
  repeat case_match; try exact R;
    try (rewrite <- R; apply (ready_frames (fun _ => true)); solve [eauto 3 with frames]).
  rewrite (ready_frames _ _ _ (frames_after_recordInitialState (fun _ => true) _ s
                                 eq_refl eq_refl)).
  now rewrite ready_recordInitialState.
Qed.

Lemma ready_step s o : ready s = true -> ready (step s o) = true.
Proof.
  intros R. destruct (is_text (snd o)) eqn:T.
  - destruct o as [clk []]; try discriminate T. now apply ready_handleText_ready.
  - now rewrite ready_step_other.
Qed.

(** ** One operation *)

Lemma texts_app s s' evs :
  log s' = log s ++ evs ->
  texts s' = texts s ++ flat_map (fun e => match e with
                                           | WsSendText m => [m]
                                           | _ => []
                                           end) evs.
Proof. intros L. unfold texts. now rewrite L, flat_map_app. Qed.

Lemma texts_ok rdy rs evs :
  forallb (event_ok rdy rs) evs = true ->
  forallb (role_ok rs) (flat_map (fun e => match e with
                                           | WsSendText m => [m]
                                           | _ => []
                                           end) evs) = true
  /\ (rdy = false -> flat_map (fun e => match e with
                                        | WsSendText m => [m]
                                        | _ => []
                                        end) evs = []).
Proof.
  induction evs as [|e evs IH]; [split; reflexivity|].
  cbn [forallb]. intros H. apply andb_prop in H as [He H].
  destruct (IH H) as [IH1 IH2]. cbn [flat_map]. rewrite forallb_app, IH1.
  destruct e; cbn in He |- *; try (split; [reflexivity | exact IH2]).
  apply andb_prop in He as [Hr Hm]. rewrite Hm. split; [reflexivity|].
  intros ->. discriminate Hr.
Qed.

Lemma disciplined_keeps s s' :
  keeps (ready s) s s' -> ready s' = ready s -> disciplined s -> disciplined s'.
Proof.
  intros K R [C [T F]]. pose proof (keeps_roles _ _ _ K) as Hr.
  destruct K as [_ [C' [evs [L E]]]].
  destruct (texts_ok _ _ _ E) as [E1 E2].
  unfold disciplined. rewrite (texts_app _ _ _ L). split; [congruence|]. split.
  - rewrite R. intros Hf. now rewrite (T Hf), (E2 Hf).
  - now rewrite Hr, forallb_app, F, E1.
Qed.

(** An accepted hello makes the session ready, unless it ends in an
    exception before anything was written. *)
Lemma completeHello_ready playerSupport sourceSupport artworkSupport unsupported s :
  ready (completeHello playerSupport sourceSupport artworkSupport unsupported s) = true
  \/ exists e t,
       completeHello playerSupport sourceSupport artworkSupport unsupported s = throw e t
       /\ log t = log s.
Proof.
  unfold completeHello. cbn zeta.
  destruct (includes _ "volume") as [v|e]; [|right; eexists; eexists; split; reflexivity].
  destruct (includes _ "mute") as [m|e]; [|right; eexists; eexists; split; reflexivity].
  left. rewrite ready_maybeNotifyIdentified.
  match goal with
  | |- ready (match unsupported with [] => ?t | _ => _ end) = true =>
      assert (R : ready t = true)
  end.
  { rewrite (ready_frames (fun _ => true) _ _
               (frames_sendGroupUpdate _ _ _ _ _ eq_refl)).
    rewrite (ready_frames (fun _ => true) _ _ (frames_startInitialStateTimeout _ _)).
    rewrite (ready_frames (fun _ => true) _ _ (frames_sendServerHello _ _ eq_refl)).
    reflexivity. }
  destruct unsupported; [exact R|].
  destruct (onUnsupportedRoles _); exact R.
Qed.

Lemma disciplined_handleHello payload s :
  ready s = false -> disciplined s -> disciplined (handleHello payload s).
Proof.
  intros R [C [T F]]. specialize (T R).
  assert (Hclose : forall reason t,
             counters t = counters s -> log t = log s -> ready t = false ->
             disciplined (close1008 reason t)).
  { intros reason t Ct Lt Rt. split; [exact (eq_trans Ct C)|].
    assert (Hx : texts (close1008 reason t) = []).
    { unfold texts, close1008, ws_close. cbn [log emit set_log].
      rewrite Lt, flat_map_app. fold (texts s). now rewrite T. }
    rewrite Hx. split; reflexivity. }
  rewrite handleHello_cases.
  destruct (negb (Spec.version_is_1 payload)); [now apply Hclose|].
  destruct (String.eqb (Spec.trimmed_client_id payload) ""); [now apply Hclose|].
  destruct (Spec.supported_roles payload) as [|entry rest]; [now apply Hclose|].
  cbn zeta.
  destruct (Spec.first_unsupported_family payload) as [fam|]; [now apply Hclose|].
  match goal with
  | |- disciplined (completeHello ?a ?b ?c ?d ?t) =>
      pose proof (keeps_completeHello a b c d t) as K;
      pose proof (completeHello_ready a b c d t) as Hr;
      set (s' := completeHello a b c d t) in *
  end.
  pose proof (keeps_roles _ _ _ K) as Hroles.
  destruct K as [_ [C' [evs [L E]]]].
  destruct (texts_ok _ _ _ E) as [E1 _].
  split; [exact (eq_trans C' C)|].
  assert (Hx : texts s' = flat_map (fun e => match e with
                                             | WsSendText m => [m]
                                             | _ => []
                                             end) evs).
  { rewrite (texts_app _ _ _ L). unfold texts at 1.
    cbn [log set_roles Spec.with_identity set_clientName set_clientId].
    fold (texts s). now rewrite T. }
  split.
  - intros Rf. destruct Hr as [Hr|[e [t [Hr Lt]]]]; [congruence|].
    rewrite Hr. unfold texts, throw. cbn [log emit set_log].
    rewrite Lt, flat_map_app. cbn [log set_roles Spec.with_identity set_clientName
                                     set_clientId].
    fold (texts s). now rewrite T.
  - now rewrite Hx, Hroles.
Qed.

Lemma disciplined_handleText parsed clk s :
  disciplined s -> disciplined (handleText parsed clk s).
Proof.
  intros D. destruct (ready s) eqn:R.
  - apply (disciplined_keeps s); [| |exact D].
    + rewrite R. now apply keeps_handleText_ready.
    + rewrite R. now apply ready_handleText_ready.
  - unfold handleText. destruct parsed as [msg|]; [|exact D].
    destruct (get_strict msg "type") as [type|e].
    + cbn zeta. rewrite R. cbn [negb]. case_match.
      * apply (disciplined_keeps s); [apply keeps_close1008 | reflexivity | exact D].
      * now apply disciplined_handleHello.
    + apply (disciplined_keeps s); [apply keeps_throw | reflexivity | exact D].
Qed.

Lemma disciplined_step s o : disciplined s -> disciplined (step s o).
Proof.
  intros D. destruct o as [clk o]. unfold step. cbn [fst snd].
  destruct o;
    try (apply (disciplined_keeps s);
         [ solve [eauto 3 with keeps]
         | apply (ready_frames (fun _ => true)); solve [eauto 3 with frames]
         | exact D ]).
  - now apply disciplined_handleText.
  - apply (disciplined_keeps s); [apply keeps_setHooks | | exact D].
    apply (ready_step_other s (clk, SetHooks h context)). reflexivity.
  - destruct D as [C [T F]]. unfold getBackpressureStats.
    unfold counters in C. injection C as C1 C2 C3 C4.
    split; [|split; [exact T | exact F]].
    unfold counters. cbn [backpressureDrops lastBackpressureBytes lastBackpressureTs
                          backpressureEvents set_backpressureEvents].
    now rewrite C1, C2, C3, C4.
  - apply (disciplined_keeps s); [apply keeps_same; reflexivity | reflexivity | exact D].
Qed.

Lemma disciplined_run ops s : disciplined s -> disciplined (run ops s).
Proof.
  revert s. induction ops as [|o ops IH]; intros s D; [exact D|].
  cbn [run fold_left]. apply IH, disciplined_step, D.
Qed.

Lemma disciplined_new w reason meta h : disciplined (new w reason meta h).
Proof. split; [reflexivity|]. split; reflexivity. Qed.

Import Js Session Trace Effects Discipline.

(** X10. After any sequence of operations on a new session: a session
    that is not ready has written no JSON message; a [server/state] with
    metadata, a [server/state] with a controller, a [stream/start] for
    artwork and a [stream/start] for a visualizer were written only to a
    session that has the metadata, controller, artwork and visualizer role;
    and a [server/command] has a player part and the session the player
    role, or a source part and the session the source role. *)
Theorem X10_text_discipline
    (w : WebSocket) (reason : ConnectionReason) (meta : SendspinConnectionMeta)
    (h : SendspinSessionHooks) (ops : list (Clock * op)) :
  let s := run ops (new w reason meta h) in
  (ready s = false -> texts s = [])
  /\ (forall ts md, In (ServerStateMetadata ts md) (texts s) ->
      has_role Roles.METADATA s = true)
  /\ (forall c, In (ServerStateController c) (texts s) ->
      has_role Roles.CONTROLLER s = true)
  /\ (forall chans, In (StreamStartArtwork chans) (texts s) ->
      has_role Roles.ARTWORK s = true)
  /\ (forall config, In (StreamStartVisualizer config) (texts s) ->
      has_role Roles.VISUALIZER s = true)
  /\ (forall payload, In (ServerCommand payload) (texts s) ->
      truthy (get payload "player") && has_role Roles.PLAYER s
      || truthy (get payload "source") && has_role Roles.SOURCE s = true).
Proof.
  cbn zeta.
  destruct (disciplined_run ops _ (disciplined_new w reason meta h)) as [_ [T F]].
  rewrite forallb_forall in F.
  split; [exact T|].
  repeat split; intros; match goal with H : In _ _ |- _ => exact (F _ H) end.
Qed.

(** A new session has written nothing; after the handshake and four sends
    the texts are in the log and their roles are active. *)
Lemma X10_text_discipline_witness :
  let title := VObj [("title", VStr "a")]%string in
  let sends := [(Examples.clk0, SendMetadata title); (Examples.clk0, SendControllerState (VObj []));
                (Examples.clk0, SendArtworkStreamStart []);
                (Examples.clk0, SendVisualizerStreamStart (VObj []))] in
  let s := run (Examples.handshake ++ sends) Examples.fresh in
  (ready Examples.fresh = false /\ texts Examples.fresh = [])
  /\ (In (ServerStateMetadata (Num.of_Z 0) title) (texts s)
      /\ has_role Roles.METADATA s = true)
  /\ (In (ServerStateController (VObj [])) (texts s)
      /\ has_role Roles.CONTROLLER s = true)
  /\ (In (StreamStartArtwork []) (texts s) /\ has_role Roles.ARTWORK s = true)
  /\ (In (StreamStartVisualizer (VObj [])) (texts s)
      /\ has_role Roles.VISUALIZER s = true).
Proof.
  cbn zeta.
  pose proof (X10_text_discipline (mkWs OPEN 0) DISCOVERY (mkMeta None None None)
                no_hooks []) as [N _].
  match goal with
  | |- _ /\ (In _ (texts (run ?ops _)) /\ _) /\ _ =>
      pose proof (X10_text_discipline (mkWs OPEN 0) DISCOVERY (mkMeta None None None)
                    no_hooks ops) as [_ [M [C [A [V _]]]]]
  end.
  cbn zeta in N, M, C, A, V.
  split; [split; [reflexivity | apply N; reflexivity]|].
  split; [|split; [|split]].
  - match goal with |- ?P /\ _ => assert (H : P) by (vm_compute; tauto) end.
    split; [exact H | exact (M _ _ H)].
  - match goal with |- ?P /\ _ => assert (H : P) by (vm_compute; tauto) end.
    split; [exact H | exact (C _ H)].
  - match goal with |- ?P /\ _ => assert (H : P) by (vm_compute; tauto) end.
    split; [exact H | exact (A _ H)].
  - match goal with |- ?P /\ _ => assert (H : P) by (vm_compute; tauto) end.
    split; [exact H | exact (V _ H)].
Defined.

(** X11. After any sequence of operations on a new session, PCM frames
    sent at any buffered amount included, [getBackpressureStats] returns no
    drop, no bytes, no time of a drop and no recent drop: no caller of
    [sendBinary] passes [allowDrop]. *)
Theorem X11_backpressure_idle
    (w : WebSocket) (reason : ConnectionReason) (meta : SendspinConnectionMeta)
    (h : SendspinSessionHooks) (ops : list (Clock * op)) (clk : Clock) :
  backpressureStats clk (run ops (new w reason meta h))
  = {| drops := 0; lastBytes := 0; lastDropTs := None; recentDrops := 0 |}.
Proof.
  destruct (disciplined_run ops _ (disciplined_new w reason meta h)) as [C _].
  unfold counters in C. injection C as C1 C2 C3 C4.
  unfold backpressureStats, getBackpressureStats. cbn zeta.
  cbn [backpressureDrops lastBackpressureBytes lastBackpressureTs backpressureEvents
       set_backpressureEvents].
  now rewrite C1, C2, C3, C4.
Qed.

Lemma identity_step s o : ready s = true -> identity (step s o) = identity s.
Proof.
  intros R. destruct o as [clk o]. unfold step. cbn [fst snd].
  destruct o;
    try (match goal with
         | |- identity ?t = identity s =>
             assert (K : keeps true s t) by eauto 3 with keeps; exact (proj1 K)
         end).
  - exact (proj1 (keeps_handleText_ready parsed clk s R)).
  - reflexivity.
  - reflexivity.
Qed.

(** X12. Once a session is ready, no sequence of operations changes
    that it is ready, its client id, its client name, its roles or its
    connection reason. *)
Theorem X12_identity_fixed (s : SendspinSession) (ops : list (Clock * op)) :
  ready s = true ->
  ready (run ops s) = true
  /\ getClientId (run ops s) = getClientId s
  /\ clientName (run ops s) = clientName s
  /\ getRoles (run ops s) = getRoles s
  /\ getConnectionReason (run ops s) = getConnectionReason s.
Proof.
  revert s. induction ops as [|o ops IH]; intros s R.
  - repeat split. exact R.
  - cbn [run fold_left]. fold (run ops (step s o)).
    destruct (IH (step s o) (ready_step s o R)) as [H1 [H2 [H3 [H4 H5]]]].
    pose proof (identity_step s o R) as I. unfold identity in I.
    injection I as I1 I2 I3 I4.
    unfold getClientId, getRoles, getConnectionReason in *.
    split; [exact H1|]. repeat split; congruence.
Qed.

(** A goodbye, a second hello, a stream start and [destroy] leave the
    identity of the session of the handshake as it was. *)
Lemma X12_identity_fixed_witness :
  let later :=
    [(Examples.clk0, HandleText (Some Examples.hello));
     (Examples.clk0, SendStreamStart None);
     (Examples.clk0, HandleText
              (Some (VObj [("type", VStr "client/goodbye");
                           ("payload", VObj [("reason", VStr "restart")])]%string)));
     (Examples.clk0, Destroy)] in
  ready Examples.session = true
  /\ ready (run later Examples.session) = true
  /\ getClientId (run later Examples.session) = Some "c1"%string
  /\ getRoles (run later Examples.session) = getRoles Examples.session.
Proof.
  cbn zeta.
  match goal with
  | |- _ /\ ready (run ?ops _) = true /\ _ =>
      destruct (X12_identity_fixed Examples.session ops) as [H1 [H2 [_ [H4 _]]]];
        [vm_compute; reflexivity|]
  end.
  split; [vm_compute; reflexivity|]. split; [exact H1|].
  split; [rewrite H2; vm_compute; reflexivity | exact H4].
Defined.

(** ** The initial-state timeout *)

Import Js Session Trace Timers.

Section Still.

Implicit Types (s t : SendspinSession).

Lemma still_refl s : still s s.
Proof. reflexivity. Qed.

Lemma still_trans s t s' : still s t -> still t s' -> still s s'.
Proof. unfold still. congruence. Qed.

Lemma ticks_refl s : ticks s s.
Proof. intros H. exact H. Qed.

Lemma ticks_trans s t s' : ticks s t -> ticks t s' -> ticks s s'.
Proof. unfold ticks. auto. Qed.

Lemma ticks_still s s' : still s s' -> ticks s s'.
Proof.
  unfold still, clockwork, ticks, timeout_armed, pending_timeouts.
  intros H. injection H as -> -> ->. auto.
Qed.

End Still.

Create HintDb still.

Ltac still_layers :=
  lazymatch goal with
  | |- still ?s ?s => apply still_refl
  | |- still ?s (?f ?t) =>
      apply (still_trans s t);
      [ still_layers
      | first [ reflexivity
              | solve [ eauto 3 with still ] ] ]
  end.

Ltac still_cases := cbn zeta; repeat case_match; still_layers.

Lemma still_close1008 reason s : still s (close1008 reason s).
Proof. reflexivity. Qed.

Lemma still_sendJson m s : still s (sendJson m s).
Proof. unfold sendJson. still_cases. Qed.

Lemma still_sendBinary buf allowDrop clk s : still s (sendBinary buf allowDrop clk s).
Proof. unfold sendBinary. still_cases. Qed.

Lemma still_maybeNotifyIdentified s : still s (maybeNotifyIdentified s).
Proof. unfold maybeNotifyIdentified. still_cases. Qed.

#[local] Hint Resolve still_close1008 still_sendJson still_sendBinary
  still_maybeNotifyIdentified : still.

Lemma still_sendStreamFormat s : still s (sendStreamFormat s).
Proof. unfold sendStreamFormat. still_cases. Qed.

#[local] Hint Resolve still_sendStreamFormat : still.

Lemma still_ensureStreamStarted s : still s (ensureStreamStarted s).
Proof. unfold ensureStreamStarted. still_cases. Qed.

Lemma still_sendServerHello s : still s (sendServerHello s).
Proof. unfold sendServerHello. still_cases. Qed.

Lemma still_sendGroupUpdate st gid gname s : still s (sendGroupUpdate st gid gname s).
Proof. unfold sendGroupUpdate. still_cases. Qed.

Lemma still_applyPreferredStreamFormat s : still s (applyPreferredStreamFormat s).
Proof. unfold applyPreferredStreamFormat. still_cases. Qed.

#[local] Hint Resolve still_ensureStreamStarted still_sendServerHello
  still_sendGroupUpdate still_applyPreferredStreamFormat : still.

Lemma still_handleClientTime payload clk s : still s (handleClientTime payload clk s).
Proof. unfold handleClientTime. still_cases. Qed.

Lemma still_handleClientCommand payload s : still s (handleClientCommand payload s).
Proof. unfold handleClientCommand. still_cases. Qed.

Lemma still_handleClientGoodbye payload s : still s (handleClientGoodbye payload s).
Proof. unfold handleClientGoodbye. still_cases. Qed.

Lemma still_applyPlayerFormatRequest request s : still s (applyPlayerFormatRequest request s).
Proof. unfold applyPlayerFormatRequest. still_cases. Qed.

Lemma still_sendArtworkStreamStart chans s : still s (sendArtworkStreamStart chans s).
Proof. unfold sendArtworkStreamStart. still_cases. Qed.

#[local] Hint Resolve still_handleClientTime still_handleClientCommand
  still_handleClientGoodbye still_applyPlayerFormatRequest
  still_sendArtworkStreamStart : still.

Lemma still_applyArtworkFormatRequest request s :
  still s (applyArtworkFormatRequest request s).
Proof. unfold applyArtworkFormatRequest. still_cases. Qed.

#[local] Hint Resolve still_applyArtworkFormatRequest : still.

Lemma still_handleStreamRequestFormat payload s :
  still s (handleStreamRequestFormat payload s).
Proof. unfold handleStreamRequestFormat. still_cases. Qed.

Lemma still_handleBinary buf s : still s (handleBinary buf s).
Proof. unfold handleBinary. still_cases. Qed.

Lemma still_sendStreamStart fmt s : still s (sendStreamStart fmt s).
Proof. unfold sendStreamStart. still_cases. Qed.

Lemma still_sendStreamClear rs s : still s (sendStreamClear rs s).
Proof. unfold sendStreamClear. still_cases. Qed.

Lemma still_sendStreamEnd rs s : still s (sendStreamEnd rs s).
Proof. unfold sendStreamEnd. still_cases. Qed.

Lemma still_writePcm frame clk s : still s (writePcm frame clk s).
Proof. unfold writePcm. still_cases. Qed.

#[local] Hint Resolve still_handleStreamRequestFormat still_handleBinary
  still_sendStreamStart still_sendStreamClear still_sendStreamEnd still_writePcm : still.

Lemma still_pcmRetry frame clk s : still s (pcmRetry frame clk s).
Proof. unfold pcmRetry. still_cases. Qed.

Lemma still_initialStateTimeout s : still s (initialStateTimeout s).
Proof. unfold initialStateTimeout. still_cases. Qed.

Lemma still_sendServerCommand p v m s : still s (sendServerCommand p v m s).
Proof. unfold sendServerCommand. still_cases. Qed.

Lemma still_sendMetadata metadata clk s : still s (sendMetadata metadata clk s).
Proof. unfold sendMetadata. still_cases. Qed.

Lemma still_sendControllerState controller s : still s (sendControllerState controller s).
Proof. unfold sendControllerState. still_cases. Qed.

Lemma still_sendArtwork channel imageData clk s :
  still s (sendArtwork channel imageData clk s).
Proof. unfold sendArtwork. still_cases. Qed.

Lemma still_sendVisualizerStreamStart config s :
  still s (sendVisualizerStreamStart config s).
Proof. unfold sendVisualizerStreamStart. still_cases. Qed.

Lemma still_sendVisualizerFrame buf ts clk s :
  still s (sendVisualizerFrame buf ts clk s).
Proof. unfold sendVisualizerFrame. still_cases. Qed.

Lemma still_getBackpressureStats clk s : still s (getBackpressureStats clk s).
Proof. reflexivity. Qed.

Lemma still_setHooks h context s : still s (setHooks h context s).
Proof. unfold setHooks. still_cases. Qed.

#[local] Hint Resolve still_pcmRetry still_initialStateTimeout
  still_sendServerCommand still_sendMetadata still_sendControllerState
  still_sendArtwork still_sendVisualizerStreamStart still_sendVisualizerFrame
  still_getBackpressureStats still_setHooks : still.

(** ** The operations that move the clockwork *)

Create HintDb ticks.

Lemma filter_initial_app (l : list timer) (t : timer) :
  List.filter is_initial_timeout (l ++ [t])
  = List.filter is_initial_timeout l ++ (if is_initial_timeout t then [t] else []).
Proof. rewrite List.filter_app. cbn. now destruct (is_initial_timeout t). Qed.

Lemma ticks_startInitialStateTimeout s : ticks s (startInitialStateTimeout s).
Proof.
  unfold startInitialStateTimeout. repeat case_match; try apply ticks_refl.
  intros [H1 H2]. unfold timeout_armed, pending_timeouts in *.
  cbn [timers initialStateTimer initialStateReceived set_initialStateTimer set_timers].
  rewrite filter_initial_app, length_app. cbn [is_initial_timeout length].
  apply orb_false_elim in H0 as [Hr Ht].
  assert (Hz : length (List.filter is_initial_timeout (timers s)) = 0%nat).
  { destruct (length (List.filter is_initial_timeout (timers s))); [reflexivity|].
    destruct H2 as [H2 _]; [lia | congruence]. }
  rewrite Hz. split; [lia | auto].
Qed.

Lemma filter_filter_initial (l : list timer) :
  List.filter is_initial_timeout
    (List.filter (fun t => negb (is_initial_timeout t)) l) = [].
Proof.
  induction l as [|t l IH]; [reflexivity|].
  cbn [List.filter]. destruct (is_initial_timeout t) eqn:E; cbn [negb]; [exact IH|].
  cbn [List.filter]. now rewrite E.
Qed.

Lemma armed_clearInitialStateTimer s : timeout_armed (clearInitialStateTimer s).
Proof.
  unfold timeout_armed, pending_timeouts, clearInitialStateTimer.
  cbn [timers set_initialStateTimer set_timers]. rewrite filter_filter_initial.
  cbn [length]. split; lia.
Qed.

Lemma ticks_destroy s : ticks s (destroy s).
Proof.
  unfold destroy. cbn zeta. intros H.
  set (t := if initialStateTimer s then clearInitialStateTimer s else s).
  assert (K : timeout_armed t)
    by (subst t; destruct (initialStateTimer s);
        [apply armed_clearInitialStateTimer | exact H]).
  clearbody t. destruct (onDisconnected (hooks t)); exact K.
Qed.

Lemma ticks_recordInitialState s : ticks s (recordInitialState s).
Proof.
  unfold recordInitialState. case_match; [|apply ticks_refl]. cbn zeta.
  intros [H1 H2].
  apply (ticks_still _ _ (still_maybeNotifyIdentified _)).
  destruct (initialStateTimer s) eqn:T;
    cbn [initialStateTimer set_initialStateReceived].
  - rewrite T. apply armed_clearInitialStateTimer.
  - rewrite T.
    assert (Hz : pending_timeouts s = 0%nat).
    { destruct (pending_timeouts s); [reflexivity|].
      destruct H2 as [H2 _]; [lia | congruence]. }
    unfold timeout_armed, pending_timeouts in *.
    cbn [timers set_initialStateReceived]. rewrite Hz. split; lia.
Qed.

Lemma ticks_sendPcmAudioFrame frame clk s : ticks s (sendPcmAudioFrame frame clk s).
Proof.
  unfold sendPcmAudioFrame. case_match; [apply ticks_refl|]. cbn zeta.
  pose proof (still_ensureStreamStarted s) as E.
  case_match.
  - intros A. apply (ticks_still _ _ E) in A.
    unfold timeout_armed, pending_timeouts in *.
    cbn [timers set_timers initialStateTimer initialStateReceived].
    rewrite filter_initial_app, app_nil_r. exact A.
  - apply ticks_still. eapply still_trans; [exact E | apply still_writePcm].
Qed.

Lemma filter_delete_le (l : list timer) (i : nat) :
  (length (List.filter is_initial_timeout (delete i l))
   <= length (List.filter is_initial_timeout l))%nat.
Proof.
  revert i. induction l as [|t l IH]; intros i; [destruct i; cbn; lia|].
  destruct i as [|i]; cbn [delete list_delete List.filter].
  - destruct (is_initial_timeout t); cbn [length]; lia.
  - specialize (IH i). unfold delete in *.
    destruct (is_initial_timeout t); cbn [length]; lia.
Qed.

Lemma ticks_timerFires i clk s : ticks s (timerFires i clk s).
Proof.
  unfold timerFires. destruct (timers s !! i) as [t|] eqn:L; [|apply ticks_refl].
  cbn zeta. intros [H1 H2].
  assert (K : timeout_armed (set_timers (delete i (timers s)) s)).
  { unfold timeout_armed, pending_timeouts in *. cbn [timers set_timers
      initialStateTimer initialStateReceived].
    pose proof (filter_delete_le (timers s) i) as Hle. split; [lia|].
    intros Hp. apply H2. lia. }
  destruct t.
  - exact (ticks_still _ _ (still_initialStateTimeout _) K).
  - exact (ticks_still _ _ (still_pcmRetry _ _ _) K).
Qed.

#[local] Hint Resolve ticks_startInitialStateTimeout ticks_destroy
  ticks_recordInitialState ticks_sendPcmAudioFrame ticks_timerFires : ticks.

Ltac ticks_layers :=
  lazymatch goal with
  | |- ticks ?s ?s => apply ticks_refl
  | |- ticks ?s (?f ?t) =>
      apply (ticks_trans s t);
      [ ticks_layers
      | first [ apply ticks_still; reflexivity
              | apply ticks_still; solve [ eauto 3 with still ]
              | solve [ eauto 3 with ticks ] ] ]
  end.

Ltac ticks_let Hq :=
  lazymatch goal with
  | |- ticks ?s0 (let x := ?v in @?B x) =>
      let x' := fresh "s" in
      pose (x' := v);
      change (ticks s0 (B x')); cbv beta;
      first [ let Hq' := fresh "Hq" in
              assert (Hq' : ticks s0 x')
                by (eapply ticks_trans; [exact Hq|]; subst x';
                    repeat case_match; ticks_layers);
              clear Hq; rename Hq' into Hq; clearbody x'
            | idtac ]
  | |- ticks _ (if ?c then _ else _) => destruct c eqn:?
  | |- ticks _ (match ?c with _ => _ end) => destruct c eqn:?
  end.

Ltac ticks_end Hq := eapply ticks_trans; [exact Hq|]; ticks_layers.

Lemma ticks_completeHello playerSupport sourceSupport artworkSupport unsupported s :
  ticks s (completeHello playerSupport sourceSupport artworkSupport unsupported s).
Proof.
  pose proof (ticks_refl s) as Hq.
  cbv beta delta [completeHello].
  repeat ticks_let Hq; ticks_end Hq.
Qed.

Lemma ticks_handleHello payload s : ticks s (handleHello payload s).
Proof.
  pose proof (ticks_refl s) as Hq.
  cbv beta delta [handleHello].
  repeat ticks_let Hq;
    first [ ticks_end Hq
          | eapply ticks_trans; [exact Hq | apply ticks_completeHello] ].
Qed.

Lemma ticks_after_recordInitialState payload s :
  ticks (recordInitialState s) (handleClientState payload s).
Proof.
  cbv beta delta [handleClientState].
  generalize (recordInitialState s). intros t.
  pose proof (ticks_refl t) as Hq.
  repeat ticks_let Hq; ticks_end Hq.
Qed.

Lemma ticks_handleClientState payload s : ticks s (handleClientState payload s).
Proof.
  eapply ticks_trans; [apply ticks_recordInitialState|].
  apply ticks_after_recordInitialState.
Qed.

Lemma ticks_handleText parsed clk s : ticks s (handleText parsed clk s).
Proof.
  unfold handleText. destruct parsed as [msg|]; [|apply ticks_refl].
  destruct (get_strict msg "type") as [type|e]; [|apply ticks_still; reflexivity].
  cbn zeta.
  repeat case_match; try apply ticks_refl;
    first [ apply ticks_handleHello
          | apply ticks_handleClientState
          | apply ticks_still; solve [eauto 3 with still] ].
Qed.

Lemma ticks_step s o : ticks s (step s o).
Proof.
  destruct o as [clk o]. unfold step. cbn [fst snd].
  destruct o; try (apply ticks_still; solve [eauto 3 with still]).
  - apply ticks_handleText.
  - apply ticks_destroy.
  - apply ticks_sendPcmAudioFrame.
  - apply ticks_timerFires.
  - apply ticks_still. reflexivity.
Qed.

Lemma armed_run ops s : timeout_armed s -> timeout_armed (run ops s).
Proof.
  revert s. induction ops as [|o ops IH]; intros s H; [exact H|].
  cbn [run fold_left]. apply IH, ticks_step, H.
Qed.

Lemma armed_new w reason meta h : timeout_armed (new w reason meta h).
Proof. unfold timeout_armed, pending_timeouts. cbn. split; lia. Qed.

Import Js Session Trace Timers.

Lemma pending_lookup (l : list timer) (i : nat) :
  l !! i = Some InitialStateTimeout ->
  (0 < length (List.filter is_initial_timeout l))%nat.
Proof.
  revert i. induction l as [|t l IH]; intros i H; [destruct i; discriminate H|].
  destruct i as [|i]; cbn in H.
  - injection H as ->. cbn. lia.
  - specialize (IH i H). cbn [List.filter]. destruct (is_initial_timeout t); cbn [length]; lia.
Qed.

(** X13. After any sequence of operations on a new session at most
    one initial-state timeout is waiting, and none once the initial state was
    received; a waiting one that fires finds the initial state not received
    and does one thing: it closes the socket with code 1008 and the reason
    [initial state timeout]. *)
Theorem X13_initial_state_timeout
    (w : WebSocket) (reason : ConnectionReason) (meta : SendspinConnectionMeta)
    (h : SendspinSessionHooks) (ops : list (Clock * op)) :
  let s := run ops (new w reason meta h) in
  (pending_timeouts s <= 1)%nat
  /\ (initialStateReceived s = true -> pending_timeouts s = 0%nat)
  /\ (forall (i : nat) (clk : Clock),
        timers s !! i = Some InitialStateTimeout ->
        initialStateReceived s = false
        /\ log (timerFires i clk s)
           = log s ++ [WsClose (Some 1008) (Some "initial state timeout"%string)]).
Proof.
  cbn zeta. destruct (armed_run ops _ (armed_new w reason meta h)) as [H1 H2].
  set (s := run ops (new w reason meta h)) in *.
  split; [exact H1|]. split.
  - intros R. destruct (pending_timeouts s) eqn:P; [reflexivity|].
    destruct H2 as [_ H2]; [lia | congruence].
  - intros i clk L.
    assert (P : (0 < pending_timeouts s)%nat) by exact (pending_lookup _ _ L).
    destruct (H2 P) as [_ R]. split; [exact R|].
    unfold timerFires. rewrite L. cbn zeta. unfold initialStateTimeout.
    cbn [initialStateReceived set_timers]. rewrite R. reflexivity.
Qed.

(** After the hello of a player the timeout waits and closes the socket
    when it fires; after the first [client/state] none waits. *)
Lemma X13_initial_state_timeout_witness :
  let waiting := run [(Examples.clk0, HandleText (Some Examples.hello))] Examples.fresh in
  timers waiting !! 0%nat = Some InitialStateTimeout
  /\ initialStateReceived waiting = false
  /\ log (timerFires 0 Examples.clk0 waiting)
     = log waiting ++ [WsClose (Some 1008) (Some "initial state timeout"%string)]
  /\ initialStateReceived Examples.session = true
  /\ pending_timeouts Examples.session = 0%nat.
Proof.
  cbn zeta.
  destruct (X13_initial_state_timeout (mkWs OPEN 0) DISCOVERY (mkMeta None None None)
              no_hooks [(Examples.clk0, HandleText (Some Examples.hello))]) as [_ [_ F]].
  destruct (X13_initial_state_timeout (mkWs OPEN 0) DISCOVERY (mkMeta None None None)
              no_hooks Examples.handshake) as [_ [R _]].
  cbn zeta in F, R.
  assert (L : timers (run [(Examples.clk0, HandleText (Some Examples.hello))] Examples.fresh) !! 0%nat
              = Some InitialStateTimeout) by (vm_compute; reflexivity).
  destruct (F 0%nat Examples.clk0 L) as [F1 F2].
  split; [exact L|]. split; [exact F1|]. split; [exact F2|].
  assert (I : initialStateReceived Examples.session = true) by (vm_compute; reflexivity).
  split; [exact I | exact (R I)].
Defined.

(** ** The life of a PCM stream *)

Import Js Session Trace Wire.

Lemma writePcm_log (frame : SendspinPcmFrame) (clk : Clock) (ts : Z) (s : SendspinSession) :
  is_open s = true -> pcm_timestamp frame clk = Num.of_Z ts -> - 2 ^ 63 <= ts < 2 ^ 63 ->
  writePcm frame clk s = emit (WsSendBinary (pcm_bytes ts frame) (bufferedAmount (ws s))) s.
Proof.
  intros O T R. unfold writePcm. fold (pcm_timestamp frame clk). rewrite T.
  rewrite packBinaryHeaderRaw_of_Z by (unfold Binary.AUDIO_CHUNK; lia).
  unfold sendBinary. rewrite O. reflexivity.
Qed.

Lemma sendPcmAudioFrame_started (frame : SendspinPcmFrame) (clk : Clock) (ts : Z)
    (s : SendspinSession) :
  is_open s = true -> bufferedAmount (ws s) <= maxBufferedSend ->
  pcm_timestamp frame clk = Num.of_Z ts -> - 2 ^ 63 <= ts < 2 ^ 63 ->
  activeStream s = true ->
  sendPcmAudioFrame frame clk s
  = emit (WsSendBinary (pcm_bytes ts frame) (bufferedAmount (ws s))) s.
Proof.
  intros O B T R A. unfold sendPcmAudioFrame, ensureStreamStarted.
  rewrite O, A. cbn [negb]. cbn zeta.
  destruct (Z.gtb_spec (bufferedAmount (ws s)) maxBufferedSend); [lia|].
  now apply writePcm_log.
Qed.

Lemma sendPcmAudioFrame_starting (frame : SendspinPcmFrame) (clk : Clock) (ts : Z)
    (s : SendspinSession) :
  ready s = true -> is_open s = true -> bufferedAmount (ws s) <= maxBufferedSend ->
  pcm_timestamp frame clk = Num.of_Z ts -> - 2 ^ 63 <= ts < 2 ^ 63 ->
  activeStream s = false ->
  sendPcmAudioFrame frame clk s
  = emit (WsSendBinary (pcm_bytes ts frame) (bufferedAmount (ws s)))
      (emit (WsSendText (StreamStartPlayer (streamFormat s))) (set_activeStream true s)).
Proof.
  intros Rd O B T R A. unfold sendPcmAudioFrame, ensureStreamStarted, sendStreamFormat.
  rewrite O, A, Rd. cbn [negb]. cbn zeta.
  unfold sendJson. change (is_open (set_activeStream true s)) with (is_open s).
  rewrite O. cbn [negb].
  change (bufferedAmount (ws (emit _ (set_activeStream true s))))
    with (bufferedAmount (ws s)).
  destruct (Z.gtb_spec (bufferedAmount (ws s)) maxBufferedSend); [lia|].
  etransitivity; [apply (writePcm_log frame clk ts); [exact O | exact T | exact R]|].
  reflexivity.
Qed.

(** X14. On a ready session whose socket is open and buffers no more
    than the limit, [sendPcmAudioFrame] with an integer timestamp in the
    signed 64-bit range writes [stream/start] with the current format and
    then the frame when no stream is active, and the frame alone when one
    is; after [sendStreamEnd] the next frame announces the stream again and
    the one after it does not; the frame unpacks to the type 4 and the
    timestamp. *)
Theorem X14_stream_lifecycle (s : SendspinSession) (clk : Clock)
    (frame : SendspinPcmFrame) (ts : Z) (rs : option (list string)) :
  ready s = true -> is_open s = true -> bufferedAmount (ws s) <= maxBufferedSend ->
  pcm_timestamp frame clk = Num.of_Z ts -> - 2 ^ 63 <= ts < 2 ^ 63 ->
  let start := WsSendText (StreamStartPlayer (streamFormat s)) in
  let chunk := WsSendBinary (pcm_bytes ts frame) (bufferedAmount (ws s)) in
  (activeStream s = false ->
   log (sendPcmAudioFrame frame clk s) = log s ++ [start; chunk])
  /\ (activeStream s = true ->
      log (sendPcmAudioFrame frame clk s) = log s ++ [chunk])
  /\ log (sendPcmAudioFrame frame clk (sendPcmAudioFrame frame clk (sendStreamEnd rs s)))
     = log s ++ [WsSendText (StreamEnd rs); start; chunk; chunk]
  /\ Binary.unpackBinaryHeader (pcm_bytes ts frame)
     = Ok {| Binary.messageType := Num.of_Z 4; Binary.timestampUs := Num.of_Z ts |}.
Proof.
  intros Rd O B T R. cbn zeta. split; [|split; [|split]].
  - intros A. rewrite (sendPcmAudioFrame_starting frame clk ts s Rd O B T R A).
    cbn [log emit set_log set_activeStream]. now rewrite <- app_assoc.
  - intros A. now rewrite (sendPcmAudioFrame_started frame clk ts s O B T R A).
  - set (e := sendStreamEnd rs s).
    assert (E : e = emit (WsSendText (StreamEnd rs)) (set_activeStream false s)).
    { unfold e, sendStreamEnd, sendJson. rewrite Rd. cbn [negb]. cbn zeta.
      change (is_open (set_activeStream false s)) with (is_open s). now rewrite O. }
    clearbody e. subst e.
    rewrite (sendPcmAudioFrame_starting frame clk ts
               (emit (WsSendText (StreamEnd rs)) (set_activeStream false s))
               Rd O B T R eq_refl).
    match goal with
    | |- log (sendPcmAudioFrame _ _ ?t) = _ =>
        rewrite (sendPcmAudioFrame_started frame clk ts t O B T R eq_refl)
    end.
    cbn [log emit set_log set_activeStream streamFormat ws].
    rewrite <- !app_assoc. reflexivity.
  - apply unpackBinaryHeader_packed; [unfold Binary.AUDIO_CHUNK; lia | exact R].
Qed.

(** The first frame on the session of the handshake announces the stream,
    the second does not. *)
Lemma X14_stream_lifecycle_witness :
  let frame := mkFrame [x01; x02] (Some (Num.of_Z 1000000)) in
  let start := WsSendText (StreamStartPlayer (streamFormat Examples.session)) in
  let chunk := WsSendBinary (pcm_bytes 1000000 frame) 0 in
  activeStream Examples.session = false
  /\ log (sendPcmAudioFrame frame Examples.clk0 Examples.session) = log Examples.session ++ [start; chunk]
  /\ activeStream (sendPcmAudioFrame frame Examples.clk0 Examples.session) = true
  /\ log (sendPcmAudioFrame frame Examples.clk0 (sendPcmAudioFrame frame Examples.clk0 Examples.session))
     = log (sendPcmAudioFrame frame Examples.clk0 Examples.session) ++ [chunk].
Proof.
  cbn zeta.
  set (frame := mkFrame [x01; x02] (Some (Num.of_Z 1000000))).
  destruct (X14_stream_lifecycle Examples.session Examples.clk0 frame 1000000 None) as [A _];
    [vm_compute; reflexivity | vm_compute; reflexivity | vm_compute; discriminate
    | reflexivity | lia | ].
  destruct (X14_stream_lifecycle (sendPcmAudioFrame frame Examples.clk0 Examples.session) Examples.clk0 frame
              1000000 None) as [_ [B _]];
    [vm_compute; reflexivity | vm_compute; reflexivity | vm_compute; discriminate
    | reflexivity | lia | ].
  assert (A0 : activeStream Examples.session = false) by (vm_compute; reflexivity).
  assert (A1 : activeStream (sendPcmAudioFrame frame Examples.clk0 Examples.session) = true)
    by (vm_compute; reflexivity).
  split; [exact A0|]. split; [exact (A A0)|]. split; [exact A1|]. exact (B A1).
Defined.

(** ** An accepted hello *)

Import Js Session Trace Effects Discipline.

Lemma texts_emit e s :
  texts (emit e s) = texts s ++ match e with
                                | WsSendText m => [m]
                                | _ => []
                                end.
Proof.
  unfold texts. cbn [log emit set_log]. rewrite flat_map_app. cbn [flat_map].
  now rewrite app_nil_r.
Qed.

Lemma texts_maybeNotifyIdentified s : texts (maybeNotifyIdentified s) = texts s.
Proof.
  unfold maybeNotifyIdentified. repeat case_match; try reflexivity.
  unfold texts. cbn [log set_identified]. fold (texts (emit CallOnIdentified s)).
  rewrite texts_emit. apply app_nil_r.
Qed.

Lemma texts_startInitialStateTimeout s : texts (startInitialStateTimeout s) = texts s.
Proof. unfold startInitialStateTimeout. repeat case_match; reflexivity. Qed.

Lemma texts_sendJson m s :
  is_open s = true -> texts (sendJson m s) = texts s ++ [m].
Proof. intros O. unfold sendJson. rewrite O. apply texts_emit. Qed.

(** The group of a session that was not given one. *)
Lemma getDefaultGroupInfo_same s t :
  connectionMeta t = connectionMeta s -> clientId t = clientId s ->
  getDefaultGroupInfo t = getDefaultGroupInfo s.
Proof. intros M C. unfold getDefaultGroupInfo. now rewrite M, C. Qed.

(** X15. For a hello that no check rejects, on a session that is not
    ready and whose socket is open, with [supported_commands] of the player
    absent or an array: the session is ready, has the trimmed client id and
    the resolved roles, requires the initial state exactly when it has the
    player role, is stopped, and has written [server/hello] (nothing when no
    role is active) and then [group/update] with the state stopped and the
    default group, which is the client id when the connection has neither a
    player id nor a zone id. *)
Theorem X15_hello_accepted (s : SendspinSession) (payload : value) :
  ready s = false -> is_open s = true ->
  Spec.hello_rejection payload = None ->
  (let commands := get (support_block payload "player@v1_support" "player_support")
                     "supported_commands" in
   nullish commands = true \/ exists items, commands = VArr items) ->
  let s' := handleHello payload s in
  let group := getDefaultGroupInfo (Spec.with_identity payload s) in
  ready s' = true
  /\ getClientId s' = Some (Spec.trimmed_client_id payload)
  /\ getRoles s' = Spec.active_roles payload
  /\ initialStateRequired s' = has_role Roles.PLAYER s'
  /\ playbackState s' = STOPPED
  /\ texts s'
     = texts s
       ++ match Spec.active_roles payload with
          | [] => []
          | rs => [ServerHello rs (connectionReason s)]
          end
       ++ [GroupUpdate STOPPED (Some group) (Some group)]
  /\ (playerId (connectionMeta s) = None -> zoneId (connectionMeta s) = None ->
      group = Spec.trimmed_client_id payload).
Proof.
  intros R O Hrej Hcmd. cbn zeta.
  rewrite handleHello_cases.
  unfold Spec.hello_rejection in Hrej.
  destruct (negb (Spec.version_is_1 payload)); [discriminate Hrej|].
  destruct (String.eqb (Spec.trimmed_client_id payload) ""); [discriminate Hrej|].
  destruct (Spec.supported_roles payload) as [|entry rest] eqn:SR; [discriminate Hrej|].
  rewrite <- SR. cbn zeta.
  destruct (Spec.first_unsupported_family payload) as [fam|]; [discriminate Hrej|].
  clear Hrej.
  set (s2 := set_roles (Spec.active_roles payload) (Spec.with_identity payload s)).
  set (ps := support_block payload "player@v1_support" "player_support") in *.
  unfold completeHello. cbn zeta.
  set (ps' := if truthy ps then ps else VObj []).
  assert (Hps : get ps' "supported_commands" = get ps "supported_commands").
  { unfold ps'. destruct (truthy ps) eqn:E; [reflexivity|].
    destruct ps; try discriminate E; reflexivity. }
  cbn [playerSupport set_sourceSupport set_playerSupport].
  fold ps'. rewrite Hps.
  assert (Hinc : forall lit, exists b,
             includes (coalesce (get ps "supported_commands") (VArr [])) lit = Ok b).
  { intros lit. cbn zeta in Hcmd. destruct Hcmd as [N|[items ->]].
    - unfold coalesce. rewrite N. eexists. reflexivity.
    - eexists. reflexivity. }
  destruct (Hinc "volume"%string) as [v ->]. destruct (Hinc "mute"%string) as [m ->].
  match goal with
  | |- context [sendServerHello ?t] => set (s3 := t)
  end.
  assert (F3 : ready s3 = true /\ roles s3 = Spec.active_roles payload
               /\ clientId s3 = Some (Spec.trimmed_client_id payload)
               /\ connectionMeta s3 = connectionMeta s
               /\ connectionReason s3 = connectionReason s
               /\ is_open s3 = true /\ texts s3 = texts s
               /\ initialStateRequired s3 = has_role Roles.PLAYER s2).
  { unfold s3. cbn [ready set_ready].
    match goal with
    | |- context [applyPreferredStreamFormat ?t] =>
        pose proof (keeps_applyPreferredStreamFormat true t) as K;
        pose proof (frames_applyPreferredStreamFormat (fun _ => true) t) as F;
        set (s4 := t) in *
    end.
    assert (P : ws (applyPreferredStreamFormat s4) = ws s4
                /\ connectionMeta (applyPreferredStreamFormat s4) = connectionMeta s4).
    { unfold applyPreferredStreamFormat. repeat case_match; split; reflexivity. }
    destruct P as [Pw Pm], K as [I [_ [evs [L _]]]], F as [G [evs' [L' _]]].
    unfold identity in I. injection I as I1 I2 I3 I4.
    unfold gate in G. injection G as G1 G2 G3 G4.
    assert (Lg : log (applyPreferredStreamFormat s4) = log s4).
    { unfold applyPreferredStreamFormat. repeat case_match; reflexivity. }
    split; [reflexivity|].
    cbn [roles clientId connectionMeta connectionReason set_ready initialStateRequired].
    unfold is_open, texts. cbn [ws log set_ready].
    rewrite I3, I1, I4, Pm, Pw, Lg, G3.
    unfold s4. destruct (match get _ "channels" with VArr l => l | _ => [] end);
      repeat split; try reflexivity; exact O. }
  destruct F3 as [F3r [F3o [F3c [F3m [F3n [F3w [F3t F3i]]]]]]].
  clearbody s3.
  (* the server hello *)
  set (s5 := sendServerHello s3).
  assert (F5 : ready s5 = true /\ roles s5 = roles s3 /\ clientId s5 = clientId s3
               /\ connectionMeta s5 = connectionMeta s3 /\ is_open s5 = true
               /\ initialStateRequired s5 = initialStateRequired s3
               /\ texts s5 = texts s ++ match Spec.active_roles payload with
                                        | [] => []
                                        | rs => [ServerHello rs (connectionReason s)]
                                        end).
  { unfold s5, sendServerHello. rewrite F3o, F3n.
    destruct (Spec.active_roles payload) as [|r rs].
    - rewrite app_nil_r. repeat split; assumption.
    - unfold sendJson. rewrite F3w. cbn [negb].
      rewrite texts_emit, F3t. repeat split; assumption. }
  destruct F5 as [F5r [F5o [F5c [F5m [F5w [F5i F5t]]]]]]. clearbody s5.
  set (s6 := startInitialStateTimeout s5).
  assert (F6 : ready s6 = true /\ roles s6 = roles s5 /\ clientId s6 = clientId s5
               /\ connectionMeta s6 = connectionMeta s5 /\ is_open s6 = true
               /\ initialStateRequired s6 = initialStateRequired s5
               /\ texts s6 = texts s5).
  { unfold s6, startInitialStateTimeout. repeat case_match; repeat split; assumption. }
  destruct F6 as [F6r [F6o [F6c [F6m [F6w [F6i F6t]]]]]]. clearbody s6.
  assert (Hg : getDefaultGroupInfo s6 = getDefaultGroupInfo (Spec.with_identity payload s)).
  { apply getDefaultGroupInfo_same;
      [rewrite F6m, F5m, F3m | rewrite F6c, F5c, F3c]; reflexivity. }
  rewrite Hg. set (group := getDefaultGroupInfo (Spec.with_identity payload s)).
  set (s7 := sendGroupUpdate STOPPED (Some group) (Some group) s6).
  assert (F7 : ready s7 = true /\ roles s7 = roles s6 /\ clientId s7 = clientId s6
               /\ initialStateRequired s7 = initialStateRequired s6
               /\ playbackState s7 = STOPPED
               /\ texts s7 = texts s6 ++ [GroupUpdate STOPPED (Some group) (Some group)]).
  { unfold s7, sendGroupUpdate. rewrite F6r. cbn [negb]. cbn zeta.
    unfold sendJson. change (is_open (set_playbackState STOPPED s6)) with (is_open s6).
    rewrite F6w. cbn [negb]. rewrite texts_emit. repeat split; assumption. }
  destruct F7 as [F7r [F7o [F7c [F7i [F7p F7t]]]]]. clearbody s7.
  match goal with
  | |- context [maybeNotifyIdentified ?t] => set (s8 := t)
  end.
  assert (F8 : ready s8 = true /\ roles s8 = roles s7 /\ clientId s8 = clientId s7
               /\ initialStateRequired s8 = initialStateRequired s7
               /\ playbackState s8 = STOPPED /\ texts s8 = texts s7).
  { unfold s8. destruct (unsupportedRoles _); [repeat split; assumption|].
    destruct (onUnsupportedRoles (hooks s7)); [|repeat split; assumption].
    rewrite texts_emit, app_nil_r. repeat split; assumption. }
  destruct F8 as [F8r [F8o [F8c [F8i [F8p F8t]]]]]. clearbody s8.
  pose proof (keeps_maybeNotifyIdentified true s8) as [I _].
  unfold identity in I. injection I as I1 I2 I3 I4.
  pose proof (frames_same (fun _ => true) s8 s8 eq_refl eq_refl) as _.
  assert (Fm : initialStateRequired (maybeNotifyIdentified s8) = initialStateRequired s8
               /\ playbackState (maybeNotifyIdentified s8) = playbackState s8).
  { unfold maybeNotifyIdentified. repeat case_match; split; reflexivity. }
  destruct Fm as [Fm1 Fm2].
  unfold getClientId, getRoles, has_role.
  rewrite ready_maybeNotifyIdentified, texts_maybeNotifyIdentified, I1, I3, Fm1, Fm2.
  split; [exact F8r|]. split; [congruence|]. split; [congruence|].
  split; [rewrite F8i, F7i, F6i, F5i, F3i, F8o, F7o, F6o, F5o, F3o; reflexivity|].
  split; [exact F8p|]. split.
  - rewrite F8t, F7t, F6t, F5t. now rewrite <- app_assoc.
  - intros P Z. unfold group, getDefaultGroupInfo.
    cbn [connectionMeta clientId Spec.with_identity set_clientName set_clientId].
    now rewrite P, Z.
Qed.

(** The hello of the five-role client on a new session. *)
Lemma X15_hello_accepted_witness :
  ready Examples.fresh = false
  /\ Spec.hello_rejection Examples.hello_payload = None
  /\ ready (handleHello Examples.hello_payload Examples.fresh) = true
  /\ getClientId (handleHello Examples.hello_payload Examples.fresh) = Some "c1"%string
  /\ initialStateRequired (handleHello Examples.hello_payload Examples.fresh) = true
  /\ texts (handleHello Examples.hello_payload Examples.fresh)
     = [ServerHello (Spec.active_roles Examples.hello_payload) DISCOVERY;
        GroupUpdate STOPPED (Some "c1"%string) (Some "c1"%string)].
Proof.
  destruct (X15_hello_accepted Examples.fresh Examples.hello_payload) as [H1 [H2 [_ [H4 [_ [H6 H7]]]]]];
    [reflexivity | reflexivity | vm_compute; reflexivity
    | right; eexists; vm_compute; reflexivity | ].
  cbn zeta in H7. specialize (H7 eq_refl eq_refl).
  split; [reflexivity|]. split; [vm_compute; reflexivity|].
  split; [exact H1|]. split; [exact H2|].
  split; [rewrite H4; vm_compute; reflexivity|].
  rewrite H6, H7. vm_compute. reflexivity.
Defined.

(** ** Requests for an artwork format *)

Import Js Session Trace.

Lemma clamp_channel_le (channel : num) (idx : nat) :
  clamp_channel channel = Some idx -> (idx <= 3)%nat.
Proof.
  unfold clamp_channel. destruct channel as [q| | |]; cbn [Num.floor Num.of_Z].
  - intros H. injection H as <-. lia.
  - intros H. injection H as <-. lia.
  - intros H. injection H as <-. lia.
  - discriminate.
Qed.

Lemma clamp_channel_of_Z (z : Z) :
  clamp_channel (Num.of_Z z) = Some (Z.to_nat (Z.max 0 (Z.min 3 z))).
Proof. unfold clamp_channel. cbn [Num.floor Num.of_Z]. now rewrite !Qfloor_Z. Qed.

Lemma artwork_sent_length chans s :
  artworkChannels (sendArtworkStreamStart chans s) = chans
  \/ artworkChannels (sendArtworkStreamStart chans s) = artworkChannels s.
Proof.
  unfold sendArtworkStreamStart, sendJson. repeat case_match; auto.
Qed.

(** X16. [applyArtworkFormatRequest] with a truthy request whose
    channel is a number keeps the number of artwork channels; an integer
    channel is clamped to 0..3; when the index is not below the number of
    channels the session is unchanged; otherwise the channel at the index
    takes the source and the format of the request unless nullish and its
    width and height when numbers, and [stream/start] with all channels is
    written exactly when the session is ready, has the artwork role and the
    socket is open. *)
Theorem X16_artwork_request (s : SendspinSession) (request : value) (channel : num) :
  truthy request = true -> get request "channel" = VNum channel ->
  let s' := applyArtworkFormatRequest request s in
  length (artworkChannels s') = length (artworkChannels s)
  /\ (forall z : Z, channel = Num.of_Z z ->
        clamp_channel channel = Some (Z.to_nat (Z.max 0 (Z.min 3 z))))
  /\ (forall idx : nat, clamp_channel channel = Some idx ->
        (idx <= 3)%nat
        /\ ((length (artworkChannels s) <= idx)%nat -> s' = s)
        /\ (forall current, artworkChannels s !! idx = Some current ->
              let next :=
                {| source := coalesce (get request "source") (source current);
                   format := coalesce (get request "format") (format current);
                   width := num_or (get request "media_width") (width current);
                   height := num_or (get request "media_height") (height current) |} in
              artworkChannels s' = <[ idx := next ]> (artworkChannels s)
              /\ log s'
                 = log s ++ (if ready s && has_role Roles.ARTWORK s && is_open s
                             then [WsSendText
                                     (StreamStartArtwork
                                        (<[ idx := next ]> (artworkChannels s)))]
                             else []))).
Proof.
  intros T C. cbn zeta. unfold applyArtworkFormatRequest. rewrite T, C. cbn [negb].
  cbn zeta. split; [|split].
  - destruct (clamp_channel channel) as [idx|].
    + destruct (artworkChannels s !! idx) as [current|]; [|reflexivity].
      cbn [artworkChannels set_artworkChannels].
      match goal with
      | |- context [sendArtworkStreamStart ?c ?t] =>
          destruct (artwork_sent_length c t) as [-> | ->]
      end; cbn [artworkChannels set_artworkChannels]; apply length_insert.
    + destruct (artwork_sent_length (artworkChannels s) s) as [-> | ->]; reflexivity.
  - intros z ->. apply clamp_channel_of_Z.
  - intros idx Hc. rewrite Hc. split; [exact (clamp_channel_le _ _ Hc)|]. split.
    + intros L. rewrite (lookup_ge_None_2 _ _ L). reflexivity.
    + intros current Hl. rewrite Hl. cbn zeta.
      cbn [artworkChannels set_artworkChannels].
      unfold sendArtworkStreamStart, sendJson, has_role, is_open.
      cbn [ready roles ws set_artworkChannels artworkChannels].
      destruct (ready s); cbn [negb andb];
        [|split; [reflexivity | now rewrite app_nil_r]].
      destruct (existsb (String.eqb Roles.ARTWORK) (roles s)); cbn [negb andb];
        [|split; [reflexivity | now rewrite app_nil_r]].
      destruct (ReadyState_eqb (readyState (ws s)) OPEN); cbn [negb];
        split; try reflexivity. now rewrite app_nil_r.
Qed.

(** A request for channel 0 changes the format and the width and is
    announced; channel 7 is clamped to 3, where there is no channel. *)
Lemma X16_artwork_request_witness :
  let request := VObj [("channel", VNum (Num.of_Z 0)); ("format", VStr "png");
                       ("media_width", VNum (Num.of_Z 640))]%string in
  let beyond := VObj [("channel", VNum (Num.of_Z 7))]%string in
  let next := {| source := VStr "album"; format := VStr "png";
                 width := Num.of_Z 640; height := Num.of_Z 300 |} in
  artworkChannels (applyArtworkFormatRequest request Examples.session) = [next]
  /\ log (applyArtworkFormatRequest request Examples.session)
     = log Examples.session ++ [WsSendText (StreamStartArtwork [next])]
  /\ clamp_channel (Num.of_Z 7) = Some 3%nat
  /\ applyArtworkFormatRequest beyond Examples.session = Examples.session.
Proof.
  cbn zeta.
  match goal with
  | |- artworkChannels (applyArtworkFormatRequest ?r _) = _ /\ _ =>
      destruct (X16_artwork_request Examples.session r (Num.of_Z 0)) as [_ [_ H]];
        [reflexivity | reflexivity |]
  end.
  match goal with
  | |- _ /\ _ /\ _ /\ applyArtworkFormatRequest ?r _ = _ =>
      destruct (X16_artwork_request Examples.session r (Num.of_Z 7)) as [_ [C K]];
        [reflexivity | reflexivity |]
  end.
  cbn zeta in H, K.
  destruct (H 0%nat ltac:(vm_compute; reflexivity)) as [_ [_ H1]].
  destruct (H1 {| source := VStr "album"; format := VStr "jpeg";
                  width := Num.of_Z 300; height := Num.of_Z 300 |}
              ltac:(vm_compute; reflexivity)) as [H2 H3].
  pose proof (C 7 eq_refl) as C7.
  destruct (K 3%nat C7) as [_ [K1 _]].
  split; [rewrite H2; vm_compute; reflexivity|].
  split; [rewrite H3; vm_compute; reflexivity|].
  split; [exact C7|]. apply K1. vm_compute. lia.
Defined.

(** ** server/core.ts: the session of a client *)

Import Js Session.

Section RegistryFacts.

Import Core.

Implicit Types (entries : list (nat * SendspinSession)).

(** The candidates after the loop of [getSession] has run over [entries]. *)
Lemma getSession_fold (clientId : string) entries (acc : candidates) :
  let r := fold_left (getSession_step clientId) entries acc in
  let m := fun e : nat * SendspinSession => id_matches clientId (snd e) in
  let pm := fun e : nat * SendspinSession =>
              id_matches clientId (snd e) && is_playback (snd e) in
  preferred r = match preferred acc with
                | Some p => Some p
                | None => option_map snd (List.find pm entries)
                end
  /\ (preferred r = None ->
      fallback r = match fallback acc with
                   | Some f => Some f
                   | None => option_map snd (List.find m entries)
                   end).
Proof.
  revert acc. induction entries as [|e entries IH]; intros acc; cbn zeta.
  - cbn. split; [now destruct (preferred acc) | now destruct (fallback acc)].
  - cbn [fold_left List.find]. specialize (IH (getSession_step clientId acc e)).
    cbn zeta in IH. destruct IH as [IH1 IH2].
    unfold getSession_step in IH1, IH2 |- *.
    destruct (id_matches clientId (snd e)) eqn:M; cbn [andb]; [|split; assumption].
    destruct (is_playback (snd e)) eqn:P, (preferred acc) as [p|] eqn:A,
      (fallback acc) as [f|] eqn:B;
      cbn [andb is_none preferred fallback option_map] in *;
      rewrite ?A, ?B in *;
      (split; [assumption | try assumption; try (intros H; congruence)]).
Qed.

End RegistryFacts.

Lemma getSession_find (clientId : string) (core : Core.SendspinCore) :
  Core.getSession clientId core
  = match List.find (fun e => Core.id_matches clientId (snd e) && Core.is_playback (snd e))
            (Core.sessionsBySocket core) with
    | Some e => Some (snd e)
    | None => option_map snd
                (List.find (fun e => Core.id_matches clientId (snd e))
                   (Core.sessionsBySocket core))
    end.
Proof.
  unfold Core.getSession. cbn zeta.
  destruct (getSession_fold clientId (Core.sessionsBySocket core)
              {| Core.preferred := None; Core.fallback := None |}) as [H1 H2].
  cbn [Core.preferred Core.fallback] in H1, H2. rewrite H1.
  destruct (List.find _ _) as [e|]; [reflexivity|].
  cbn [option_map]. apply H2. exact H1.
Qed.

Lemma id_matches_getClientId (clientId : string) (s : SendspinSession) :
  Core.id_matches clientId s = true <-> getClientId s = Some clientId.
Proof.
  unfold Core.id_matches. destruct (getClientId s) as [c|]; [|split; discriminate].
  split.
  - intros H. apply String.eqb_eq in H. now subst.
  - intros H. injection H as ->. apply String.eqb_refl.
Qed.

(** X17. [getSession] returns the first session, in the order of
    connection, whose client id is the one asked for and whose connection
    reason is PLAYBACK, or else the first session with that client id; what
    it returns is a session of the map with that client id; it returns
    nothing exactly when no session has the client id; and when a PLAYBACK
    session has the client id, a PLAYBACK session is returned. *)
Theorem X17_getSession_policy (clientId : string) (core : Core.SendspinCore) :
  let entries := Core.sessionsBySocket core in
  let matching := fun e : nat * SendspinSession => Core.id_matches clientId (snd e) in
  let playback := fun e : nat * SendspinSession =>
                    Core.id_matches clientId (snd e) && Core.is_playback (snd e) in
  Core.getSession clientId core
  = match List.find playback entries with
    | Some e => Some (snd e)
    | None => option_map snd (List.find matching entries)
    end
  /\ (forall s, Core.getSession clientId core = Some s ->
        In s (List.map snd entries) /\ getClientId s = Some clientId)
  /\ (Core.getSession clientId core = None <->
      forall e, In e entries -> getClientId (snd e) <> Some clientId)
  /\ (forall e, In e entries -> getClientId (snd e) = Some clientId ->
        getConnectionReason (snd e) = PLAYBACK ->
        exists s, Core.getSession clientId core = Some s
                  /\ getConnectionReason s = PLAYBACK).
Proof.
  cbn zeta. rewrite getSession_find.
  split; [reflexivity|]. split; [|split].
  - intros s.
    destruct (List.find (fun e => Core.id_matches clientId (snd e)
                                  && Core.is_playback (snd e)) _) as [e|] eqn:F.
    + intros H. injection H as <-. apply find_some in F as [I M].
      apply andb_prop in M as [M _].
      split; [now apply in_map | now apply id_matches_getClientId].
    + destruct (List.find (fun e => Core.id_matches clientId (snd e)) _) as [e|] eqn:G;
        [|discriminate].
      intros H. injection H as <-. apply find_some in G as [I M].
      split; [now apply in_map | now apply id_matches_getClientId].
  - destruct (List.find (fun e => Core.id_matches clientId (snd e)
                                  && Core.is_playback (snd e)) _) as [e|] eqn:F.
    + split; [discriminate|]. intros H. apply find_some in F as [I M].
      apply andb_prop in M as [M _]. apply id_matches_getClientId in M.
      now destruct (H e I).
    + destruct (List.find (fun e => Core.id_matches clientId (snd e)) _) as [e|] eqn:G.
      * split; [discriminate|]. intros H. apply find_some in G as [I M].
        apply id_matches_getClientId in M. now destruct (H e I).
      * split; [|reflexivity]. intros _ e I C.
        apply id_matches_getClientId in C.
        pose proof (find_none _ _ G e I) as N. cbn beta in N. congruence.
  - intros e I C P.
    destruct (List.find (fun e => Core.id_matches clientId (snd e)
                                  && Core.is_playback (snd e)) _) as [e'|] eqn:F.
    + exists (snd e'). split; [reflexivity|]. apply find_some in F as [_ M].
      apply andb_prop in M as [_ M]. unfold Core.is_playback in M.
      now destruct (getConnectionReason (snd e')).
    + pose proof (find_none _ _ F e I) as N. cbn beta in N.
      apply id_matches_getClientId in C. rewrite C in N.
      unfold Core.is_playback in N. rewrite P in N. discriminate N.
Qed.

(** Of a session that has said nothing and two sessions of the client
    [c1], the PLAYBACK one is returned; nobody is [c2]. *)
Lemma X17_getSession_policy_witness :
  let discovery := run [(Examples.clk0, HandleText (Some Examples.hello))] Examples.fresh in
  let playback :=
    run [(Examples.clk0, HandleText (Some Examples.hello))]
      (new (mkWs OPEN 0) PLAYBACK (mkMeta None None None) no_hooks) in
  let core := Core.mkCore [(0%nat, Examples.fresh); (1%nat, discovery); (2%nat, playback)] in
  getClientId playback = Some "c1"%string
  /\ getConnectionReason playback = PLAYBACK
  /\ (exists s, Core.getSession "c1" core = Some s /\ getConnectionReason s = PLAYBACK)
  /\ Core.getSession "c2" core = None.
Proof.
  cbn zeta.
  match goal with
  | |- getClientId ?p = _ /\ _ /\ _ /\ Core.getSession _ ?core = None =>
      destruct (X17_getSession_policy "c1" core) as [_ [_ [_ P]]];
      destruct (X17_getSession_policy "c2" core) as [_ [_ [N _]]];
      assert (C : getClientId p = Some "c1"%string) by (vm_compute; reflexivity);
      pose proof (P (2%nat, p) ltac:(cbn; tauto) C eq_refl) as E
  end.
  split; [exact C|]. split; [reflexivity|]. split; [exact E|].
  apply N. intros e I. cbn [Core.sessionsBySocket In] in I.
  destruct I as [<- | [<- | [<- | []]]]; vm_compute; discriminate.
Defined.

Section Routing.

Import Core Registry.

Implicit Types (entries : list (nat * SendspinSession)) (st : State).

Lemma getEntry_fold (clientId : string) entries
    (acc : option (nat * SendspinSession) * option (nat * SendspinSession)) :
  let r := fold_left (getEntry_step clientId) entries acc in
  let m := fun e : nat * SendspinSession => id_matches clientId (snd e) in
  let pm := fun e : nat * SendspinSession =>
              id_matches clientId (snd e) && is_playback (snd e) in
  fst r = match fst acc with
          | Some p => Some p
          | None => List.find pm entries
          end
  /\ (fst r = None ->
      snd r = match snd acc with
              | Some f => Some f
              | None => List.find m entries
              end).
Proof.
  revert acc. induction entries as [|e entries IH]; intros acc; cbn zeta.
  - cbn. split; [now destruct (fst acc) | now destruct (snd acc)].
  - cbn [fold_left List.find]. specialize (IH (getEntry_step clientId acc e)).
    cbn zeta in IH. destruct IH as [IH1 IH2].
    unfold getEntry_step in IH1, IH2 |- *. destruct acc as [a b]. cbn [fst snd] in *.
    destruct (id_matches clientId (snd e)) eqn:M; cbn [andb]; [|split; assumption].
    destruct (is_playback (snd e)) eqn:P, a as [p|], b as [f|];
      cbn [andb is_none fst snd] in *;
      (split; [assumption | try assumption; try (intros H; congruence)]).
Qed.

Lemma getEntry_find (clientId : string) st :
  getEntry clientId st
  = match List.find (fun e => id_matches clientId (snd e) && is_playback (snd e))
            (sessionsBySocket (sessions st)) with
    | Some e => Some e
    | None => List.find (fun e => id_matches clientId (snd e))
                (sessionsBySocket (sessions st))
    end.
Proof.
  unfold getEntry. cbn zeta.
  destruct (getEntry_fold clientId (sessionsBySocket (sessions st)) (None, None))
    as [H1 H2].
  cbn [fst snd] in H1, H2. rewrite H1.
  destruct (List.find _ _) as [e|]; [reflexivity|]. apply H2. exact H1.
Qed.

(** The entry found holds the session that [getSession] returns. *)
Lemma getEntry_getSession (clientId : string) st :
  getSessionByClientId clientId st = option_map snd (getEntry clientId st).
Proof.
  unfold getSessionByClientId. rewrite getSession_find, getEntry_find.
  destruct (List.find _ _); [reflexivity|]. reflexivity.
Qed.

Lemma getEntry_In (clientId : string) st (e : nat * SendspinSession) :
  getEntry clientId st = Some e ->
  In e (sessionsBySocket (sessions st)) /\ id_matches clientId (snd e) = true.
Proof.
  rewrite getEntry_find.
  destruct (List.find (fun e => id_matches clientId (snd e) && is_playback (snd e)) _)
    as [e'|] eqn:F.
  - intros H. injection H as <-. apply find_some in F as [I M].
    apply andb_prop in M as [M _]. auto.
  - intros H. apply find_some in H. exact H.
Qed.

Lemma getEntry_None (clientId : string) st :
  getEntry clientId st = None <->
  forall e, In e (sessionsBySocket (sessions st)) -> id_matches clientId (snd e) = false.
Proof.
  rewrite getEntry_find. split.
  - destruct (List.find (fun e => id_matches clientId (snd e) && is_playback (snd e)) _);
      [discriminate|].
    intros H e I. exact (find_none _ _ H e I).
  - intros H.
    assert (N : forall f, (forall e, f e = true -> id_matches clientId (snd e) = true) ->
                List.find f (sessionsBySocket (sessions st)) = None).
    { intros f Hf. destruct (List.find f _) as [e|] eqn:F; [|reflexivity].
      apply find_some in F as [I M]. specialize (Hf e M).
      rewrite (H e I) in Hf. discriminate Hf. }
    rewrite (N (fun e => id_matches clientId (snd e) && is_playback (snd e)))
      by (intros e M; now apply andb_prop in M as [M _]).
    apply N. auto.
Qed.

Lemma map_set_split {A : Type} (k : nat) (x : A) (l : list (nat * A)) :
  NoDup (List.map fst l) -> In (k, x) l ->
  exists before after,
    l = before ++ (k, x) :: after
    /\ forall v, map_set k v l = before ++ (k, v) :: after.
Proof.
  induction l as [|[k' x'] l IH]; intros N I; [destruct I|].
  cbn [List.map fst] in N. inversion N as [|? ? Hn N']; subst.
  cbn [map_set]. destruct I as [I|I].
  - injection I as -> ->. exists [], l. split; [reflexivity|].
    intros v. now rewrite Nat.eqb_refl.
  - destruct (Nat.eqb_spec k k') as [->|Hne].
    + exfalso. apply Hn. apply (in_map fst) in I. now apply list_elem_of_In.
    + destruct (IH N' I) as [before [after [E1 E2]]].
      exists ((k', x') :: before), after. cbn [app]. split; [now rewrite <- E1|].
      intros v. now rewrite E2.
Qed.

End Routing.

(** X18. A send routed by client id (the sockets of the map being distinct)
    touches neither the registered hooks nor the lead statistics; when no
    session has the client id it changes nothing; otherwise it replaces the
    session that [getSession] selects by that session after the send, and
    leaves every other session, and the order, as they were. *)
Theorem X18_route (clientId : string) (m : Registry.send) (clk : Clock)
    (st : Registry.State) :
  NoDup (List.map fst (Core.sessionsBySocket (Registry.sessions st))) ->
  let st' := Registry.route clientId m clk st in
  Registry.hooksByClientId st' = Registry.hooksByClientId st
  /\ Registry.leadStatsByClientId st' = Registry.leadStatsByClientId st
  /\ match Registry.getSessionByClientId clientId st with
     | None =>
         st' = st
         /\ forall e, In e (Core.sessionsBySocket (Registry.sessions st)) ->
                      getClientId (snd e) <> Some clientId
     | Some session =>
         exists ws before after,
           Core.sessionsBySocket (Registry.sessions st) = before ++ (ws, session) :: after
           /\ Core.sessionsBySocket (Registry.sessions st')
              = before ++ (ws, Registry.deliver m clk session) :: after
     end.
Proof.
  intros N. cbn zeta. unfold Registry.route, Registry.with_session.
  rewrite getEntry_getSession.
  destruct (Registry.getEntry clientId st) as [[ws session]|] eqn:E; cbn [option_map snd].
  - split; [reflexivity|]. split; [reflexivity|].
    destruct (getEntry_In _ _ _ E) as [I _].
    destruct (map_set_split ws session _ N I) as [before [after [E1 E2]]].
    exists ws, before, after. split; [exact E1 | apply E2].
  - split; [reflexivity|]. split; [reflexivity|]. split; [reflexivity|].
    intros e I C. pose proof (proj1 (getEntry_None clientId st) E e I) as M.
    unfold Core.id_matches in M. rewrite C, String.eqb_refl in M. discriminate M.
Qed.

(** Two connections, the first of which has said hello as [c1]: a group
    update for [c1] reaches that session, one for [c2] changes nothing. *)
Lemma X18_route_witness :
  let st := Registry.onMessage 0 (Registry.Text (Some Examples.hello)) Examples.clk0
              (Registry.handleConnection 0 (mkWs OPEN 0) (mkMeta None None None)
                 DISCOVERY
                 (Registry.handleConnection 1 (mkWs OPEN 0) (mkMeta None None None)
                    DISCOVERY Registry.new)) in
  let m := Registry.GroupUpdate PLAYING None None in
  NoDup (List.map fst (Core.sessionsBySocket (Registry.sessions st)))
  /\ (exists session ws before after,
        Registry.getSessionByClientId "c1" st = Some session
        /\ Core.sessionsBySocket (Registry.sessions st) = before ++ (ws, session) :: after
        /\ Core.sessionsBySocket
             (Registry.sessions (Registry.route "c1" m Examples.clk0 st))
           = before ++ (ws, sendGroupUpdate PLAYING None None session) :: after)
  /\ Registry.getSessionByClientId "c2" st = None
  /\ Registry.route "c2" m Examples.clk0 st = st.
Proof.
  cbn zeta.
  match goal with
  | |- NoDup (List.map fst (Core.sessionsBySocket (Registry.sessions ?st))) /\ _ =>
      assert (N : NoDup (List.map fst (Core.sessionsBySocket (Registry.sessions st))))
        by (apply (bool_decide_unpack _); vm_compute; exact I);
      pose proof (X18_route "c1" (Registry.GroupUpdate PLAYING None None)
                    Examples.clk0 st N) as [_ [_ H1]];
      pose proof (X18_route "c2" (Registry.GroupUpdate PLAYING None None)
                    Examples.clk0 st N) as [_ [_ H2]];
      destruct (Registry.getSessionByClientId "c1" st) as [session|] eqn:G1;
        [|vm_compute in G1; discriminate G1];
      destruct (Registry.getSessionByClientId "c2" st) as [other|] eqn:G2;
        [vm_compute in G2; discriminate G2|]
  end.
  split; [exact N|]. split.
  - destruct H1 as (ws & before & after & E1 & E2).
    exists session, ws, before, after. split; [reflexivity|]. split; [exact E1 | exact E2].
  - split; [reflexivity | exact (proj1 H2)].
Defined.

Import Js Session Effects.

(** ** Hooks *)

Lemma hooking_maybeNotifyIdentified s : hooking (maybeNotifyIdentified s) = hooking s.
Proof. unfold maybeNotifyIdentified. repeat case_match; reflexivity. Qed.

Lemma hooking_sendJson m s : hooking (sendJson m s) = hooking s.
Proof. unfold sendJson. case_match; reflexivity. Qed.

Lemma hooking_sendGroupUpdate st gid gname s :
  hooking (sendGroupUpdate st gid gname s) = hooking s.
Proof.
  unfold sendGroupUpdate. case_match; [reflexivity|]. cbn zeta.
  now rewrite hooking_sendJson.
Qed.

Lemma hooking_startInitialStateTimeout s : hooking (startInitialStateTimeout s) = hooking s.
Proof. unfold startInitialStateTimeout. repeat case_match; reflexivity. Qed.

Lemma hooking_sendServerHello s : hooking (sendServerHello s) = hooking s.
Proof. unfold sendServerHello. case_match; [reflexivity|]. apply hooking_sendJson. Qed.

Lemma hooking_applyPreferredStreamFormat s :
  hooking (applyPreferredStreamFormat s) = hooking s.
Proof. unfold applyPreferredStreamFormat. repeat case_match; reflexivity. Qed.

Lemma hooking_completeHello playerSupport sourceSupport artworkSupport unsupported s :
  hooking (completeHello playerSupport sourceSupport artworkSupport unsupported s)
  = hooking s.
Proof.
  unfold completeHello. cbn zeta.
  destruct (includes _ "volume") as [v|e]; [|reflexivity].
  destruct (includes _ "mute") as [m|e]; [|reflexivity].
  rewrite hooking_maybeNotifyIdentified.
  match goal with
  | |- hooking (match unsupported with [] => ?t | _ => _ end) = _ =>
      assert (R : hooking t = hooking s)
  end.
  { rewrite hooking_sendGroupUpdate, hooking_startInitialStateTimeout,
      hooking_sendServerHello.
    match goal with
    | |- context [applyPreferredStreamFormat ?t] =>
        pose proof (hooking_applyPreferredStreamFormat t) as P
    end.
    unfold hooking in *. cbn [hooks hooksAttached set_ready]. injection P as -> ->.
    destruct (match get artworkSupport "channels" with VArr l => l | _ => [] end);
      reflexivity. }
  destruct unsupported; [exact R|].
  destruct (onUnsupportedRoles _); exact R.
Qed.

Lemma hooking_handleHello payload s : hooking (handleHello payload s) = hooking s.
Proof.
  rewrite handleHello_cases. repeat case_match; try reflexivity.
  cbn zeta. now rewrite hooking_completeHello.
Qed.

(** The client id that a hello leaves in the session, accepted or not. *)
Lemma clientId_handleHello payload s :
  Spec.version_is_1 payload = true -> Spec.trimmed_client_id payload <> ""%string ->
  getClientId (handleHello payload s) = Some (Spec.trimmed_client_id payload).
Proof.
  intros V E. rewrite handleHello_cases, V. cbn [negb].
  apply String.eqb_neq in E. rewrite E.
  destruct (Spec.supported_roles payload); [reflexivity|]. cbn zeta.
  destruct (Spec.first_unsupported_family payload); [reflexivity|].
  match goal with
  | |- getClientId (completeHello ?a ?b ?c ?d ?t) = _ =>
      destruct (keeps_completeHello a b c d t) as [I _]
  end.
  unfold identity in I. injection I as I1 _ _ _. unfold getClientId. now rewrite I1.
Qed.

Lemma setHooks_facts h context s :
  hooks (setHooks h context s) = h
  /\ hooksAttached (setHooks h context s) = true
  /\ getClientId (setHooks h context s) = getClientId s.
Proof.
  destruct (keeps_setHooks true h context s) as [I _].
  unfold identity in I. injection I as I1 _ _ _.
  split; [|split; [|exact I1]].
  - unfold setHooks. cbn zeta.
    match goal with
    | |- hooks ?x = _ => change (hooks x) with (fst (hooking x))
    end.
    rewrite hooking_maybeNotifyIdentified. destruct context; reflexivity.
  - unfold setHooks. cbn zeta.
    match goal with
    | |- hooksAttached ?x = _ => change (hooksAttached x) with (snd (hooking x))
    end.
    rewrite hooking_maybeNotifyIdentified. destruct context; reflexivity.
Qed.

Section Hooks.

Import Registry.

Lemma map_get_set {A : Type} (k : nat) (v : A) (l : list (nat * A)) :
  map_get k (map_set k v l) = Some v.
Proof.
  induction l as [|[k' x'] l IH]; cbn [map_set map_get].
  - now rewrite Nat.eqb_refl.
  - destruct (Nat.eqb_spec k k') as [->|Hne]; cbn [map_get].
    + now rewrite Nat.eqb_refl.
    + destruct (Nat.eqb_spec k k'); [contradiction | exact IH].
Qed.

Lemma map_get_set_other {A : Type} (k j : nat) (v : A) (l : list (nat * A)) :
  j <> k -> map_get j (map_set k v l) = map_get j l.
Proof.
  intros Hne. induction l as [|[k' x'] l IH]; cbn [map_set map_get].
  - destruct (Nat.eqb_spec j k); [contradiction | reflexivity].
  - destruct (Nat.eqb_spec k k') as [->|Hk]; cbn [map_get].
    + destruct (Nat.eqb_spec j k'); [contradiction | reflexivity].
    + now rewrite IH.
Qed.

End Hooks.



(** ** Registering and unregistering hooks *)



(** ** client.ts: the stream state of a client *)

Import Js Client ClientStream.

Lemma new_PCMFormat_accepted sr ch bd f : new_PCMFormat sr ch bd = Ok f -> accepted f.
Proof.
  unfold accepted, new_PCMFormat. intros H.
  destruct (Num.leb sr (Num.of_Z 0)) eqn:E1; [discriminate H|].
  destruct (Num.ltb ch (Num.of_Z 1) || Num.gtb ch (Num.of_Z 2)) eqn:E2; [discriminate H|].
  destruct (negb (existsb (Num.eqb bd) [Num.of_Z 16; Num.of_Z 24; Num.of_Z 32])) eqn:E3;
    [discriminate H|].
  injection H as <-. cbn [sampleRate channels bitDepth]. now rewrite E1, E2, E3.
Qed.

Lemma In_emit e es c : In e (log (emit es c)) <-> In e (log c) \/ In e es.
Proof. unfold emit. cbn [log set_log]. apply in_app_iff. Qed.

Lemma consistent_handleStreamStart m nowUs c :
  consistent c -> consistent (fst (handleStreamStart m nowUs c)).
Proof.
  intros [H1 H2]. unfold handleStreamStart.
  destruct (player m) as [p|]; [|split; assumption]. cbn zeta.
  destruct (new_PCMFormat _ _ _) as [pcmFormat|e] eqn:N; cbn [fst].
  - apply new_PCMFormat_accepted in N.
    assert (Hlog : forall t : SendspinClient,
               log t = log c ->
               forall cb ts chunk f,
                 In (CallAudioChunk cb ts chunk f)
                    (log (sendTimeMessage nowUs (notifyStreamStart m t))) ->
                 accepted (pcm f)).
    { intros t Lt cb ts chunk f I. unfold sendTimeMessage in I.
      destruct (negb (isConnected _)).
      - unfold notifyStreamStart in I. apply In_emit in I as [I|I].
        + rewrite Lt in I. eauto.
        + apply in_map_iff in I as [x [Hx _]]. discriminate Hx.
      - apply In_emit in I as [I|[I|[]]]; [|discriminate I].
        unfold notifyStreamStart in I. apply In_emit in I as [I|I].
        + rewrite Lt in I. eauto.
        + apply in_map_iff in I as [x [Hx _]]. discriminate Hx. }
    assert (Hfmt : forall t : SendspinClient,
               currentAudioFormat t
               = Some {| codec := p_codec p; pcm := pcmFormat;
                         codecHeader := match codec_header p with
                                        | Some h => if String.eqb h "" then None else Some h
                                        | None => None
                                        end |} ->
               streamActive t = true -> currentPlayer t = Some p ->
               forall f, currentAudioFormat t = Some f ->
                 accepted (pcm f) /\ streamActive t = true /\ currentPlayer t <> None).
    { intros t Ft At Pt f Hf. rewrite Ft in Hf. injection Hf as <-.
      cbn [pcm]. rewrite At, Pt. repeat split; [exact N | discriminate]. }
    destruct (streamActive c && _); cbn [fst].
    + split; [apply Hfmt; reflexivity | exact H2].
    + split.
      * unfold sendTimeMessage, notifyStreamStart.
        destruct (negb (isConnected _)); apply Hfmt; reflexivity.
      * apply Hlog. reflexivity.
  - split; [|exact H2]. intros f Hf. cbn [currentAudioFormat set_streamActive] in Hf.
    destruct (H1 f Hf) as [A [_ P]]. split; [exact A | split; [reflexivity | exact P]].
Qed.

Lemma consistent_handleBinaryMessage payload c :
  consistent c -> consistent (handleBinaryMessage payload c).
Proof.
  intros H. unfold handleBinaryMessage.
  destruct (Binary.unpackBinaryHeader payload) as [header|]; [|exact H].
  destruct (negb (streamActive c)); [exact H|].
  destruct (Num.eqb _ _); [|exact H].
  unfold handleAudioChunk. destruct (currentAudioFormat c) as [f|] eqn:F; [|exact H].
  destruct H as [H1 H2].
  split; [exact H1|]. intros cb ts chunk f' I. apply In_emit in I as [I|I]; [eauto|].
  apply in_map_iff in I as [x [Hx _]]. injection Hx as _ _ _ <-.
  exact (proj1 (H1 f F)).
Qed.

Lemma consistent_step c o : consistent c -> consistent (step c o).
Proof.
  intros H. destruct o as [m nowUs | rs | rs | payload | ct sr st nowUs | ]; cbn [step].
  - now apply consistent_handleStreamStart.
  - unfold handleStreamEnd.
    destruct (if negb (truthy rs) then Ok true else includes rs "player@v1")
      as [stop|e]; cbn [rbind]; [|exact H].
    cbn zeta. cbn [fst]. destruct stop; [|exact H].
    destruct H as [_ H2]. split; [discriminate | exact H2].
  - exact H.
  - now apply consistent_handleBinaryMessage.
  - exact H.
  - destruct H as [_ H2]. unfold cleanup. cbn zeta. cbn [fst].
    split; [discriminate | exact H2].
Qed.

Lemma consistent_run ops c : consistent c -> consistent (run ops c).
Proof.
  revert c. induction ops as [|o ops IH]; intros c H; [exact H|].
  cbn [run fold_left]. apply IH, consistent_step, H.
Qed.

(** X21. For a client that starts with no audio format and an empty
    log, after any sequence of stream starts, stream ends, stream clears,
    binary messages, server times and cleanups: a current audio format is
    one that [new PCMFormat] accepts, and then the stream is active and the
    player is set; and every call of an audio-chunk listener carried a
    format that [new PCMFormat] accepts. *)
Theorem X21_client_consistent (c : SendspinClient) (ops : list op) :
  currentAudioFormat c = None -> log c = [] ->
  let c' := run ops c in
  (forall f, currentAudioFormat c' = Some f ->
     new_PCMFormat (sampleRate (pcm f)) (channels (pcm f)) (bitDepth (pcm f)) = Ok (pcm f)
     /\ streamActive c' = true /\ currentPlayer c' <> None)
  /\ (forall cb ts chunk f, In (CallAudioChunk cb ts chunk f) (log c') ->
        new_PCMFormat (sampleRate (pcm f)) (channels (pcm f)) (bitDepth (pcm f))
        = Ok (pcm f)).
Proof.
  intros F L. cbn zeta. apply (consistent_run ops c). split.
  - intros f Hf. rewrite F in Hf. discriminate Hf.
  - intros cb ts chunk f I. rewrite L in I. destruct I.
Qed.

(** A stream start and an audio chunk: the listener is called with the
    format of the stream, which passes the validation. *)
Lemma X21_client_consistent_witness :
  let chunk := framed 4 1000000 [x01; x02] in
  let c' := run [StreamStart ClientExamples.stream_start (Num.of_Z 0); BinaryMessage chunk] ClientExamples.client in
  exists f,
    currentAudioFormat c' = Some f
    /\ In (CallAudioChunk 2 (Num.of_Z 1000000) [x01; x02] f) (log c')
    /\ new_PCMFormat (sampleRate (pcm f)) (channels (pcm f)) (bitDepth (pcm f))
       = Ok (pcm f)
    /\ streamActive c' = true.
Proof.
  cbn zeta.
  match goal with
  | |- exists f, currentAudioFormat (run ?ops _) = _ /\ _ =>
      destruct (X21_client_consistent ClientExamples.client ops eq_refl eq_refl) as [H1 H2]
  end.
  cbn zeta in H1, H2.
  eexists. split; [vm_compute; reflexivity|].
  match goal with
  | |- ?P /\ _ => assert (I : P) by (vm_compute; tauto)
  end.
  split; [exact I|]. split; [exact (H2 _ _ _ _ I)|].
  vm_compute. reflexivity.
Defined.

Import Js Client ClientStream.

Lemma is_str_eq (v : value) (lit : string) : is_str v lit = true <-> v = VStr lit.
Proof.
  destruct v; cbn; try (split; [discriminate | discriminate]).
  split; [intros H; apply String.eqb_eq in H; now subst | intros H; injection H as ->].
  apply String.eqb_refl.
Qed.

Lemma includes_array (items : list value) (lit : string) :
  includes (VArr items) lit = Ok true <-> In (VStr lit) items.
Proof.
  cbn [includes]. split.
  - intros H. injection H as H. apply existsb_exists in H as [x [I E]].
    apply is_str_eq in E. now subst.
  - intros I. f_equal. apply existsb_exists. exists (VStr lit). split; [exact I|].
    now apply is_str_eq.
Qed.

Lemma filter_negb_nil {A : Type} (f : A -> bool) (l : list A) :
  match List.filter (fun x => negb (f x)) l with
  | [] => forallb f l = true
  | _ :: _ => forallb f l = false
  end.
Proof.
  induction l as [|x l IH]; [reflexivity|].
  cbn [List.filter forallb]. destruct (f x); cbn [negb andb]; [exact IH | reflexivity].
Qed.

(** X22. [handleStreamEnd] with no roles, or with an array of roles that
    includes the player role, notifies the listeners and clears the stream,
    the format and the player, after which every binary message is ignored;
    with an array without the player role it notifies and changes nothing.
    [handleStreamClear] notifies the listeners when there are no roles, and
    for an array exactly when every role is the player or the visualizer
    role. *)
Theorem X22_stream_end_clear (c : SendspinClient) (roles : value) (listeners : list nat) :
  (truthy roles = false \/ (exists items, roles = VArr items /\ In (VStr "player@v1") items) ->
   exists c',
     handleStreamEnd roles listeners c
     = Ok (c', List.map (fun cb => StreamEndCall cb roles) listeners)
     /\ streamActive c' = false /\ currentAudioFormat c' = None
     /\ currentPlayer c' = None /\ log c' = log c
     /\ forall payload, handleBinaryMessage payload c' = c')
  /\ (forall items, roles = VArr items -> ~ In (VStr "player@v1") items ->
      handleStreamEnd roles listeners c
      = Ok (c, List.map (fun cb => StreamEndCall cb roles) listeners))
  /\ (truthy roles = false ->
      handleStreamClear roles listeners
      = Ok (List.map (fun cb => StreamClearCall cb roles) listeners))
  /\ (forall items, roles = VArr items ->
      handleStreamClear roles listeners
      = Ok (if forallb (fun role => is_str role "player@v1"
                                    || is_str role "visualizer@v1") items
            then List.map (fun cb => StreamClearCall cb roles) listeners
            else [])).
Proof.
  split; [|split; [|split]].
  - intros H.
    assert (S : (if negb (truthy roles) then Ok true else includes roles "player@v1")
                = Ok true).
    { destruct H as [H|[items [-> I]]]; [now rewrite H|].
      cbn [truthy negb]. now apply includes_array. }
    unfold handleStreamEnd. rewrite S. cbn [rbind]. cbn zeta.
    eexists. split; [reflexivity|]. repeat split.
    intros payload. unfold handleBinaryMessage.
    destruct (Binary.unpackBinaryHeader payload); reflexivity.
  - intros items -> N. unfold handleStreamEnd. cbn [truthy negb].
    destruct (includes (VArr items) "player@v1") as [[|]|e] eqn:E.
    + apply includes_array in E. contradiction.
    + reflexivity.
    + discriminate E.
  - intros H. unfold handleStreamClear. now rewrite H.
  - intros items ->. unfold handleStreamClear. cbn [truthy]. cbn zeta.
    unfold is_clear_role.
    pose proof (filter_negb_nil
                  (fun role => is_str role "player@v1" || is_str role "visualizer@v1")
                  items) as F.
    destruct (List.filter _ items); now rewrite F.
Qed.

(** The end of the player's stream stops the client, the end of the
    artwork stream does not; a clear of the artwork role is not notified. *)
Lemma X22_stream_end_clear_witness :
  let player := VArr [VStr "player@v1"]%string in
  let artwork := VArr [VStr "artwork@v1"]%string in
  streamActive ClientExamples.playing = true
  /\ (exists c',
        handleStreamEnd player [3%nat] ClientExamples.playing = Ok (c', [StreamEndCall 3 player])
        /\ streamActive c' = false /\ currentAudioFormat c' = None
        /\ handleBinaryMessage (framed 4 1000000 [x01; x02]) c' = c')
  /\ handleStreamEnd artwork [3%nat] ClientExamples.playing = Ok (ClientExamples.playing, [StreamEndCall 3 artwork])
  /\ handleStreamClear VUndefined [5%nat] = Ok [StreamClearCall 5 VUndefined]
  /\ handleStreamClear player [5%nat] = Ok [StreamClearCall 5 player]
  /\ handleStreamClear artwork [5%nat] = Ok [].
Proof.
  cbn zeta.
  destruct (X22_stream_end_clear ClientExamples.playing (VArr [VStr "player@v1"]%string) [3%nat])
    as [A _].
  destruct (X22_stream_end_clear ClientExamples.playing (VArr [VStr "artwork@v1"]%string) [3%nat])
    as [_ [B _]].
  destruct (X22_stream_end_clear ClientExamples.playing VUndefined [5%nat]) as [_ [_ [C _]]].
  destruct (X22_stream_end_clear ClientExamples.playing (VArr [VStr "player@v1"]%string) [5%nat])
    as [_ [_ [_ D]]].
  destruct (X22_stream_end_clear ClientExamples.playing (VArr [VStr "artwork@v1"]%string) [5%nat])
    as [_ [_ [_ E]]].
  split; [reflexivity|]. split; [|split; [|split; [|split]]].
  - destruct A as (c' & A1 & A2 & A3 & _ & _ & A6).
    + right. eexists. split; [reflexivity | left; reflexivity].
    + exists c'. split; [exact A1|]. split; [exact A2|]. split; [exact A3 | apply A6].
  - apply (B _ eq_refl). intros [H|[]]. discriminate H.
  - apply C. reflexivity.
  - exact (D _ eq_refl).
  - exact (E _ eq_refl).
Defined.

(** ** Frames between the server and the client *)

Import Js Wire.

Lemma skipn_framed (ty ts : Z) (body : list byte) :
  skipn Binary.BINARY_HEADER_SIZE (framed ty ts body) = body.
Proof.
  unfold framed, Binary.BINARY_HEADER_SIZE.
  rewrite skipn_app, length_cons, length_be_bytes. cbn [Nat.sub].
  rewrite skipn_all2 by (cbn [length]; rewrite length_be_bytes; lia). reflexivity.
Qed.

(** What the client does with a frame. *)
Lemma client_handleBinaryMessage_framed (ty ts : Z) (body : list byte)
    (c : Client.SendspinClient) :
  0 <= ty <= 255 -> - 2 ^ 63 <= ts < 2 ^ 63 ->
  Client.handleBinaryMessage (framed ty ts body) c
  = if Client.streamActive c && (ty =? 4)
    then Client.handleAudioChunk (Num.of_Z ts) body c
    else c.
Proof.
  intros Hty Hts. unfold Client.handleBinaryMessage.
  unfold framed at 1. rewrite unpackBinaryHeader_packed by assumption.
  cbn [Binary.messageType Binary.timestampUs]. rewrite skipn_framed.
  destruct (Client.streamActive c); cbn [negb andb]; [|reflexivity].
  now rewrite eqb_of_Z.
Qed.

(** What the session does with a frame. *)
Lemma session_handleBinary_framed (ty ts : Z) (body : list byte)
    (s : Session.SendspinSession) :
  0 <= ty <= 255 -> - 2 ^ 63 <= ts < 2 ^ 63 ->
  Session.handleBinary (framed ty ts body) s
  = if (ty =? 12) && Session.has_role Session.Roles.SOURCE s
       && Session.onSourceAudio (Session.hooks s)
    then Session.emit (Session.CallOnSourceAudio (Num.of_Z ts) body) s
    else s.
Proof.
  intros Hty Hts. unfold Session.handleBinary.
  unfold framed at 1. rewrite unpackBinaryHeader_packed by assumption.
  cbn [Binary.messageType Binary.timestampUs]. rewrite skipn_framed, eqb_of_Z.
  destruct (ty =? Binary.SOURCE_AUDIO_CHUNK) eqn:E;
    change Binary.SOURCE_AUDIO_CHUNK with 12 in E; rewrite E; cbn [andb]; [|reflexivity].
  destruct (Session.has_role _ s); cbn [negb andb]; [|reflexivity].
  reflexivity.
Qed.

Import Session Trace.

(** X23. What the session writes and what the client makes of it,
    on an open socket with the server clock at an integer: a PCM frame below
    the backpressure limit is written as one binary frame, and the client
    hands its bytes and timestamp to every audio-chunk listener with the
    current format when a stream is active and it has a format, and ignores
    it otherwise; an image for a channel 0..3 and a visualizer frame are
    written by a ready session (with the visualizer role for the latter) and
    the client ignores both. *)
Theorem X23_server_frames_at_client (s : SendspinSession) (clk : Clock) (now : Z)
    (c : Client.SendspinClient) :
  is_open s = true -> serverNowUs clk = Num.of_Z now -> - 2 ^ 63 <= now < 2 ^ 63 ->
  (forall (frame : SendspinPcmFrame) (ts : Z),
     bufferedAmount (ws s) <= maxBufferedSend ->
     pcm_timestamp frame clk = Num.of_Z ts -> - 2 ^ 63 <= ts < 2 ^ 63 ->
     binary_writes (sendPcmAudioFrame frame clk s)
     = binary_writes s ++ [(framed 4 ts (data frame), bufferedAmount (ws s))]
     /\ Client.handleBinaryMessage (framed 4 ts (data frame)) c
        = if Client.streamActive c
          then match Client.currentAudioFormat c with
               | Some f =>
                   Client.emit
                     (List.map (fun cb => Client.CallAudioChunk cb (Num.of_Z ts)
                                            (data frame) f)
                        (Client.audioChunkCallbacks c)) c
               | None => c
               end
          else c)
  /\ (forall (channel : Z) (image : list byte),
        ready s = true -> 0 <= channel <= 3 ->
        binary_writes (sendArtwork channel (Some image) clk s)
        = binary_writes s ++ [(framed (8 + channel) now image, bufferedAmount (ws s))]
        /\ Client.handleBinaryMessage (framed (8 + channel) now image) c = c)
  /\ (forall (buf : list byte) (ts : Z),
        ready s = true -> has_role Roles.VISUALIZER s = true ->
        - 2 ^ 63 <= ts < 2 ^ 63 ->
        binary_writes (sendVisualizerFrame buf (Some (Num.of_Z ts)) clk s)
        = binary_writes s ++ [(framed 16 ts buf, bufferedAmount (ws s))]
        /\ Client.handleBinaryMessage (framed 16 ts buf) c = c).
Proof.
  intros O Hnow Rnow. split; [|split].
  - intros frame ts B T R. split.
    + unfold sendPcmAudioFrame. rewrite O. cbn [negb]. cbn zeta.
      destruct (ensureStreamStarted_fields s) as [Hws _]. rewrite Hws.
      destruct (Z.gtb_spec (bufferedAmount (ws s)) maxBufferedSend); [lia|].
      assert (O' : is_open (ensureStreamStarted s) = true)
        by (unfold is_open; now rewrite Hws).
      rewrite (writePcm_log frame clk ts _ O' T R), binary_writes_emit, Hws.
      f_equal. apply binary_writes_emits, frames_emits, frames_ensureStreamStarted.
      reflexivity.
    + rewrite client_handleBinaryMessage_framed by lia.
      destruct (Client.streamActive c); reflexivity.
  - intros channel image Rd Hc. split.
    + unfold sendArtwork. rewrite Rd, Hnow. cbn [negb].
      change Binary.ARTWORK_CHANNEL_0 with 8.
      rewrite packBinaryHeaderRaw_of_Z by lia.
      unfold sendBinary. rewrite O. cbn [negb andb]. unfold ws_send_binary.
      now rewrite binary_writes_emit.
    + rewrite client_handleBinaryMessage_framed by lia.
      destruct (Z.eqb_spec (8 + channel) 4); [lia|]. now rewrite andb_false_r.
  - intros buf ts Rd V R. split.
    + unfold sendVisualizerFrame. rewrite Rd, V. cbn [negb].
      change Binary.VISUALIZATION_DATA with 16.
      rewrite packBinaryHeaderRaw_of_Z by lia.
      unfold sendBinary. rewrite O. cbn [negb andb]. unfold ws_send_binary.
      now rewrite binary_writes_emit.
    + rewrite client_handleBinaryMessage_framed by lia. now rewrite andb_false_r.
Qed.

(** A PCM frame, an image for channel 2 and a visualizer frame sent by
    the session of the handshake, as a playing client takes them. *)
Lemma X23_server_frames_at_client_witness :
  let frame := mkFrame [x01; x02] (Some (Num.of_Z 1000000)) in
  let s := Examples.session in
  let playing := ClientExamples.playing in
  ready s = true
  /\ has_role Roles.VISUALIZER s = true
  /\ binary_writes (sendPcmAudioFrame frame Examples.clk0 s)
     = binary_writes s ++ [(framed 4 1000000 [x01; x02], 0)]
  /\ Client.handleBinaryMessage (framed 4 1000000 [x01; x02]) playing
     = Client.emit
         [Client.CallAudioChunk 2 (Num.of_Z 1000000) [x01; x02]
            (Client.mkAudioFormat "pcm"
               (Client.mkPCM (Num.of_Z 48000) (Num.of_Z 2) (Num.of_Z 16)) None)]
         playing
  /\ binary_writes (sendArtwork 2 (Some [x0a]) Examples.clk0 s)
     = binary_writes s ++ [(framed 10 0 [x0a], 0)]
  /\ Client.handleBinaryMessage (framed 10 0 [x0a]) playing = playing
  /\ binary_writes (sendVisualizerFrame [x0b] (Some (Num.of_Z 7)) Examples.clk0 s)
     = binary_writes s ++ [(framed 16 7 [x0b], 0)]
  /\ Client.handleBinaryMessage (framed 16 7 [x0b]) playing = playing.
Proof.
  cbn zeta.
  destruct (X23_server_frames_at_client Examples.session Examples.clk0 0 ClientExamples.playing)
    as [P [A V]]; [reflexivity | reflexivity | lia |].
  assert (R : ready Examples.session = true) by (vm_compute; reflexivity).
  assert (Vr : has_role Roles.VISUALIZER Examples.session = true)
    by (vm_compute; reflexivity).
  destruct (P (mkFrame [x01; x02] (Some (Num.of_Z 1000000))) 1000000)
    as [P1 P2]; [vm_compute; discriminate | reflexivity | lia |].
  destruct (A 2 [x0a] R ltac:(lia)) as [A1 A2].
  destruct (V [x0b] 7 R Vr ltac:(lia)) as [V1 V2].
  split; [exact R|]. split; [exact Vr|]. split; [exact P1|].
  split; [cbn [data] in P2; rewrite P2; reflexivity|].
  split; [exact A1|]. split; [exact A2|]. split; [exact V1 | exact V2].
Defined.

(** X24. A connected client sends a source chunk with an integer
    server timestamp in the signed 64-bit range as one frame of type 12; a
    session hands the bytes and the timestamp of that frame to
    [onSourceAudio] when it has the source role and the hook, and ignores it
    otherwise; a session ignores every frame of another type and every
    message shorter than the header. *)
Theorem X24_source_audio_at_server (c : Client.SendspinClient) (audioData : list byte)
    (ts : Z) (s : SendspinSession) :
  Client.isConnected c = true -> - 2 ^ 63 <= ts < 2 ^ 63 ->
  Client.sendSourceAudioChunk audioData None (Some (Num.of_Z ts)) c
  = Ok (Client.emit [Client.WsSendBinary (framed 12 ts audioData)] c)
  /\ handleBinary (framed 12 ts audioData) s
     = (if has_role Roles.SOURCE s && onSourceAudio (hooks s)
        then emit (CallOnSourceAudio (Num.of_Z ts) audioData) s
        else s)
  /\ (forall (ty : Z) (body : list byte),
        0 <= ty <= 255 -> ty <> 12 -> handleBinary (framed ty ts body) s = s)
  /\ (forall data : list byte, (length data < 9)%nat -> handleBinary data s = s).
Proof.
  intros Hconn R. split; [|split; [|split]].
  - unfold Client.sendSourceAudioChunk. rewrite Hconn. cbn [negb rbind].
    change Binary.SOURCE_AUDIO_CHUNK with 12.
    rewrite packBinaryHeaderRaw_of_Z by lia. cbn [rbind].
    unfold Client.sendBinary, Client.isConnected in *.
    apply andb_prop in Hconn as [_ H].
    destruct (Client.ws c) as [[]|]; try discriminate H. reflexivity.
  - rewrite session_handleBinary_framed by lia. reflexivity.
  - intros ty body Hty Hne. rewrite session_handleBinary_framed by lia.
    destruct (Z.eqb_spec ty 12); [contradiction | reflexivity].
  - intros data L. unfold handleBinary, Binary.unpackBinaryHeader.
    destruct (Nat.ltb_spec (length data) Binary.BINARY_HEADER_SIZE) as [_|H];
      [reflexivity|]. unfold Binary.BINARY_HEADER_SIZE in H. lia.
Qed.

(** A chunk sent by a connected client, as the session of a source takes
    it. *)
Lemma X24_source_audio_at_server_witness :
  let client := ClientExamples.client in
  let s := ClientExamples.source_session in
  Client.isConnected client = true
  /\ has_role Roles.SOURCE s = true
  /\ Client.sendSourceAudioChunk [x01; x02] None (Some (Num.of_Z 1000000)) client
     = Ok (Client.emit [Client.WsSendBinary (framed 12 1000000 [x01; x02])] client)
  /\ handleBinary (framed 12 1000000 [x01; x02]) s
     = emit (CallOnSourceAudio (Num.of_Z 1000000) [x01; x02]) s
  /\ handleBinary (framed 4 1000000 [x01; x02]) s = s
  /\ handleBinary [x0c; x00; x00] s = s.
Proof.
  cbn zeta.
  destruct (X24_source_audio_at_server ClientExamples.client [x01; x02] 1000000
              ClientExamples.source_session)
    as [H1 [H2 [H3 H4]]]; [reflexivity | lia |].
  assert (S : has_role Roles.SOURCE ClientExamples.source_session = true)
    by (vm_compute; reflexivity).
  split; [reflexivity|]. split; [exact S|]. split; [exact H1|].
  split; [rewrite H2, S; reflexivity|].
  split; [apply H3; lia | apply H4; cbn; lia].
Defined.
